(** * brasil.io core models: identifier hashing, query composition and the
      DataTable generation lifecycle (core/models.py)

    Python values are embedded as follows.
    - [str] is [string]; a character is a code point below 256, so that the
      ASCII check of [encode("ascii")], [str.split], [str.strip] and
      [str.lower] are the ones of Python on that range.
    - an exception is a constructor of [exn]; a function that may raise
      returns a [result].
    - the relational store is an explicit state: rows of [core_datatable]
      keyed by primary key, and the set of physical tables that exist.
    - what the module calls and does not define (Django's checks of
      ordering names and of filter arguments, PostgreSQL's text search,
      core/dynamic_models.py, core/filters.py) is a parameter of the
      definitions that reach it. *)

From Stdlib Require Import ZArith List String Ascii Permutation Lia Bool.
From stdpp Require Import gmap strings list fin_maps sorting.
Import ListNotations.
Local Open Scope string_scope.
Local Open Scope Z_scope.

(** ** Exceptions *)

Inductive exn : Type :=
| UnicodeEncodeError
| IndexError
| AttributeError
| AssertionError
| TypeError
| ValueError
| OverflowError
| DatabaseError
| ProgrammingError
| FieldError
| ValidationError
| KeyError
| RuntimeError (msg : string)
| RecursionError.

Inductive result (A : Type) : Type :=
| Ok (a : A)
| Err (e : exn).
Arguments Ok {A} a.
Arguments Err {A} e.

(** ** Python string operations *)

Module PyStr.

Definition code (c : ascii) : Z := Z.of_N (N_of_ascii c).

Fixpoint len (s : string) : nat :=
  match s with
  | EmptyString => O
  | String _ s' => S (len s')
  end.

(** [s[:n]] *)
Fixpoint take (n : nat) (s : string) : string :=
  match n, s with
  | S n', String c s' => String c (take n' s')
  | _, _ => EmptyString
  end.

Fixpoint drop (n : nat) (s : string) : string :=
  match n, s with
  | S n', String _ s' => drop n' s'
  | _, _ => s
  end.

(** [s[-n:]] for [n > 0]: the whole string when it is shorter than [n]. *)
Definition last_n (n : nat) (s : string) : string := drop (len s - n) s.

Fixpoint starts_with (p s : string) : bool :=
  match p, s with
  | EmptyString, _ => true
  | String a p', String b s' => Ascii.eqb a b && starts_with p' s'
  | String _ _, EmptyString => false
  end.

(** [s.replace(old, new)] for a non-empty [old]: one pass from the left,
    occurrences do not overlap and the output is not scanned again.
    [skip] counts the characters of the current occurrence still to drop. *)
Fixpoint replace_from (old new : string) (skip : nat) (s : string) : string :=
  match s with
  | EmptyString => EmptyString
  | String c s' =>
      match skip with
      | S k => replace_from old new k s'
      | O =>
          if starts_with old s
          then new ++ replace_from old new (len old - 1) s'
          else String c (replace_from old new O s')
      end
  end.

Definition replace (old new s : string) : string := replace_from old new O s.

(** [sep.join(l)] *)
Fixpoint join (sep : string) (l : list string) : string :=
  match l with
  | [] => EmptyString
  | [x] => x
  | x :: l' => x ++ sep ++ join sep l'
  end.

(** [str.isspace] on one character. *)
Definition is_space (c : ascii) : bool :=
  let n := code c in
  ((9 <=? n) && (n <=? 13)) || ((28 <=? n) && (n <=? 32))
  || (n =? 133) || (n =? 160).

(** [str.split()] without arguments: maximal runs of non-space characters.
    [cur] is the current run, reversed. *)
Fixpoint split_from (cur : list ascii) (s : string) : list string :=
  let flush := match cur with
               | [] => []
               | _ => [string_of_list_ascii (rev cur)]
               end in
  match s with
  | EmptyString => flush
  | String c s' =>
      if is_space c then flush ++ split_from [] s'
      else split_from (c :: cur) s'
  end.

Definition split (s : string) : list string := split_from [] s.

Fixpoint lstrip (s : string) : string :=
  match s with
  | String c s' => if is_space c then lstrip s' else s
  | EmptyString => EmptyString
  end.

Definition rev_string (s : string) : string :=
  string_of_list_ascii (rev (list_ascii_of_string s)).

Definition rstrip (s : string) : string := rev_string (lstrip (rev_string s)).

(** [s.strip()] *)
Definition strip (s : string) : string := rstrip (lstrip s).

Definition lower_char (c : ascii) : ascii :=
  let n := code c in
  if ((65 <=? n) && (n <=? 90))
     || ((192 <=? n) && (n <=? 222) && negb (n =? 215))
  then ascii_of_N (Z.to_N (n + 32)) else c.

(** [s.lower()] *)
Fixpoint lower (s : string) : string :=
  match s with
  | EmptyString => EmptyString
  | String c s' => String (lower_char c) (lower s')
  end.

(** [s.encode("ascii")]: the code points, or UnicodeEncodeError. *)
Fixpoint encode_ascii (s : string) : result (list Z) :=
  match s with
  | EmptyString => Ok []
  | String c s' =>
      if code c <? 128
      then match encode_ascii s' with
           | Ok bs => Ok (code c :: bs)
           | Err e => Err e
           end
      else Err UnicodeEncodeError
  end.

(** [sorted(l)] on strings: ascending by code points. *)
Fixpoint insert_sorted (x : string) (l : list string) : list string :=
  match l with
  | [] => [x]
  | y :: l' => if String.leb x y then x :: l else y :: insert_sorted x l'
  end.

Fixpoint sorted (l : list string) : list string :=
  match l with
  | [] => []
  | x :: l' => insert_sorted x (sorted l')
  end.

(** [s.split(sep)] for a separator of one character: the pieces between
    the separators, empty ones included; one empty piece for the empty
    string. [cur] is the current piece, reversed. *)
Fixpoint split_on_from (sep : ascii) (cur : list ascii) (s : string) : list string :=
  match s with
  | EmptyString => [string_of_list_ascii (rev cur)]
  | String c s' =>
      if Ascii.eqb c sep
      then string_of_list_ascii (rev cur) :: split_on_from sep [] s'
      else split_on_from sep (c :: cur) s'
  end.

Definition split_on (sep : ascii) (s : string) : list string := split_on_from sep [] s.

(** The strings that [encode("ascii")] accepts. *)
Definition is_ascii (s : string) : Prop :=
  Forall (fun c => code c < 128) (list_ascii_of_string s).

(** The order of [sorted]. *)
Definition le (a b : string) : Prop := String.leb a b = true.

End PyStr.

Definition bytes_of (s : string) : list Z := map PyStr.code (list_ascii_of_string s).

(** ** hashlib.md5 (RFC 1321) on 32-bit words held in [Z] *)

Module MD5.

Definition mask32 : Z := 4294967295.
Definition w32 (x : Z) : Z := Z.land x mask32.
Definition add32 (x y : Z) : Z := w32 (x + y).
Definition not32 (x : Z) : Z := Z.lxor x mask32.
Definition rotl32 (x : Z) (n : Z) : Z :=
  w32 (Z.lor (Z.shiftl x n) (Z.shiftr x (32 - n))).

Definition K : list Z :=
  [ 3614090360; 3905402710; 606105819; 3250441966; 4118548399; 1200080426;
    2821735955; 4249261313; 1770035416; 2336552879; 4294925233; 2304563134;
    1804603682; 4254626195; 2792965006; 1236535329; 4129170786; 3225465664;
    643717713; 3921069994; 3593408605; 38016083; 3634488961; 3889429448;
    568446438; 3275163606; 4107603335; 1163531501; 2850285829; 4243563512;
    1735328473; 2368359562; 4294588738; 2272392833; 1839030562; 4259657740;
    2763975236; 1272893353; 4139469664; 3200236656; 681279174; 3936430074;
    3572445317; 76029189; 3654602809; 3873151461; 530742520; 3299628645;
    4096336452; 1126891415; 2878612391; 4237533241; 1700485571; 2399980690;
    4293915773; 2240044497; 1873313359; 4264355552; 2734768916; 1309151649;
    4149444226; 3174756917; 718787259; 3951481745 ].

Definition S : list Z :=
  [ 7; 12; 17; 22; 7; 12; 17; 22; 7; 12; 17; 22; 7; 12; 17; 22;
    5; 9; 14; 20; 5; 9; 14; 20; 5; 9; 14; 20; 5; 9; 14; 20;
    4; 11; 16; 23; 4; 11; 16; 23; 4; 11; 16; 23; 4; 11; 16; 23;
    6; 10; 15; 21; 6; 10; 15; 21; 6; 10; 15; 21; 6; 10; 15; 21 ].

Record state := { sa : Z; sb : Z; sc : Z; sd : Z }.

Definition init : state :=
  {| sa := 1732584193; sb := 4023233417; sc := 2562383102; sd := 271733878 |}.

(** Little-endian word of four bytes. *)
Definition word_of (bs : list Z) : Z :=
  match bs with
  | [b0; b1; b2; b3] => b0 + 256 * b1 + 65536 * b2 + 16777216 * b3
  | _ => 0
  end.

Definition bytes_of_word (x : Z) : list Z :=
  [ x mod 256; (x / 256) mod 256; (x / 65536) mod 256; (x / 16777216) mod 256 ].

Fixpoint words (n : nat) (bs : list Z) : list Z :=
  match n with
  | O => []
  | Datatypes.S n' => word_of (firstn 4 bs) :: words n' (skipn 4 bs)
  end.

Definition round (m : list Z) (st : state) (i : nat) : state :=
  let a := sa st in let b := sb st in let c := sc st in let d := sd st in
  let iz := Z.of_nat i in
  let '(f, g) :=
    if iz <? 16 then (Z.lor (Z.land b c) (Z.land (not32 b) d), iz)
    else if iz <? 32 then (Z.lor (Z.land d b) (Z.land (not32 d) c), (5 * iz + 1) mod 16)
    else if iz <? 48 then (Z.lxor (Z.lxor b c) d, (3 * iz + 5) mod 16)
    else (Z.lxor c (Z.lor b (not32 d)), (7 * iz) mod 16) in
  let f' := add32 (add32 (add32 f a) (nth i K 0)) (nth (Z.to_nat g) m 0) in
  {| sa := d; sd := c; sc := b; sb := add32 b (rotl32 f' (nth i S 0)) |}.

Definition chunk (st : state) (bs : list Z) : state :=
  let m := words 16 bs in
  let st' := fold_left (round m) (seq 0 64) st in
  {| sa := add32 (sa st) (sa st'); sb := add32 (sb st) (sb st');
     sc := add32 (sc st) (sc st'); sd := add32 (sd st) (sd st') |}.

Fixpoint chunks (n : nat) (st : state) (bs : list Z) : state :=
  match n with
  | O => st
  | Datatypes.S n' => chunks n' (chunk st (firstn 64 bs)) (skipn 64 bs)
  end.

Definition length_bytes (bits : Z) : list Z :=
  map (fun k => (bits / 2 ^ (8 * Z.of_nat k)) mod 256) (seq 0 8).

Definition pad (msg : list Z) : list Z :=
  let n := Z.of_nat (length msg) in
  let zeros := Z.to_nat ((55 - n) mod 64) in
  msg ++ [128] ++ repeat 0 zeros ++ length_bytes ((8 * n) mod 2 ^ 64).

Definition digest (msg : list Z) : list Z :=
  let p := pad msg in
  let st := chunks (length p / 64) init p in
  bytes_of_word (sa st) ++ bytes_of_word (sb st)
  ++ bytes_of_word (sc st) ++ bytes_of_word (sd st).

Definition hex_digit (n : Z) : ascii :=
  ascii_of_N (Z.to_N (if n <? 10 then 48 + n else 87 + n)).

Definition hex_byte (b : Z) : string :=
  String (hex_digit ((b / 16) mod 16)) (String (hex_digit (b mod 16)) EmptyString).

Fixpoint hex (bs : list Z) : string :=
  match bs with
  | [] => EmptyString
  | b :: bs' => hex_byte b ++ hex bs'
  end.

(** [hashlib.md5(msg).hexdigest()] *)
Definition hexdigest (msg : list Z) : string := hex (digest msg).

End MD5.

(** ** make_index_name *)

Definition format_index_key (tablename index_type : string) (fields : list string) : string :=
  tablename ++ " " ++ index_type ++ " " ++ PyStr.join ", " (PyStr.sorted fields).

Definition make_index_name (tablename index_type : string) (fields : list string)
  : result string :=
  match PyStr.encode_ascii (format_index_key tablename index_type fields) with
  | Err e => Err e
  | Ok bytes =>
      let idx_hash := MD5.hexdigest bytes in
      let tablename' :=
        PyStr.take 12 (PyStr.replace "-" "" (PyStr.replace "data_" "" tablename)) in
      match index_type with
      | EmptyString => Err IndexError
      | String k _ =>
          Ok ("idx_" ++ tablename' ++ "_" ++ String k (PyStr.last_n 12 idx_hash))
      end
  end.

(** ** Query sets over a dataset table's dynamic model *)

(** [SearchQuery(word, config=config)] and the [&] of two of them. *)
Inductive SearchQuery : Type :=
| SQ (word config : string)
| SQAnd (lhs rhs : SearchQuery).

(** A keyword argument of [filter]; the right-hand side of
    [search_data=query] is the Python variable [query], which may be None. *)
Inductive Lookup : Type :=
| SearchDataExact (query : option SearchQuery)
| FieldExact (field value : string).

(** [SearchRank(F(field), query)] *)
Inductive Annotation : Type :=
| SearchRank (field : string) (query : option SearchQuery).

(** The parts of [django.db.models.sql.Query] the query set methods touch. *)
Record Query : Type := {
  where_ : list Lookup;
  annotations : list (string * Annotation);
  order_by : list string
}.

(** [Model.extra], set by [Table.get_model]. *)
Record Extra : Type := {
  extra_filtering : list string;
  extra_ordering : list string;
  extra_search : list string
}.

Record DynamicModel : Type := {
  db_table : string;
  extra : Extra
}.

Record QuerySet : Type := {
  model : DynamicModel;
  query : Query;
  _count : option Z
}.

(** [QuerySet._clone]: a new instance on a copy of the query; the [_count]
    attribute that [count] sets is not carried over. *)
Definition clone (qs : QuerySet) : QuerySet :=
  {| model := model qs; query := query qs; _count := None |}.

(** [qs.annotate(name=a)] *)
Definition annotate (name : string) (a : Annotation) (qs : QuerySet) : QuerySet :=
  let c := clone qs in
  {| model := model c;
     query := {| where_ := where_ (query c);
                 annotations := annotations (query c) ++ [(name, a)];
                 order_by := order_by (query c) |};
     _count := _count c |}.

(** [qs.filter(lookup)] *)
Definition filter_ (l : Lookup) (qs : QuerySet) : QuerySet :=
  let c := clone qs in
  {| model := model c;
     query := {| where_ := where_ (query c) ++ [l];
                 annotations := annotations (query c);
                 order_by := order_by (query c) |};
     _count := _count c |}.

(** [self.order_by += ordering], the statement that ends
    [Query.add_ordering] when it is given names: they are appended to
    [order_by], in place. *)
Definition extend_order_by (ordering : list string) (qs : QuerySet) : QuerySet :=
  {| model := model qs;
     query := {| where_ := where_ (query qs);
                 annotations := annotations (query qs);
                 order_by := order_by (query qs) ++ ordering |};
     _count := _count qs |}.

Definition str_truthy (s : string) : bool :=
  match s with EmptyString => false | _ => true end.

Definition list_truthy {A} (l : list A) : bool :=
  match l with [] => false | _ => true end.

Definition str_in (x : string) (l : list string) : bool := existsb (String.eqb x) l.

Section PythonSets.

(** The order in which a Python [set] built from a list is iterated. It
    depends on the string hashes of the process; all that is known is
    that each element comes once. *)
Variable set_iter : list string -> list string.

(** Whether [Query.add_ordering] of Django accepts a name as an ordering
    of a query set: version 3.0 matches the name against [ORDER_PATTERN],
    later versions resolve it against the fields and annotations of the
    query. *)
Variable order_item_valid : QuerySet -> string -> bool.

(** [qs.query.add_ordering] called with the names [ordering], at least
    one: FieldError when Django refuses one of them, and the query is
    left as it is then; otherwise the names are appended to [order_by]. *)
Definition add_ordering (ordering : list string) (qs : QuerySet) : result QuerySet :=
  if forallb (order_item_valid qs) ordering then Ok (extend_order_by ordering qs)
  else Err FieldError.

(** One turn of the loop body of [search]. *)
Definition search_step (config : string) (query : option SearchQuery) (word : string)
  : option SearchQuery :=
  if negb (str_truthy word) then query
  else match query with
       | None => Some (SQ word config)
       | Some q => Some (SQAnd q (SQ word config))
       end.

(** [DatasetTableModelQuerySet.search]. The name that its call of
    [add_ordering] passes is "-search_rank", the annotation made on the
    line before: whatever its version, Django accepts it, and the call is
    the concatenation. *)
Definition search (search_query : string) (self : QuerySet) : QuerySet :=
  let search_fields := extra_search (extra (model self)) in
  if str_truthy search_query && list_truthy search_fields then
    let words := PyStr.split search_query in
    let config := "pg_catalog.portuguese" in
    let query := fold_left (search_step config) (set_iter words) None in
    let qs := filter_ (SearchDataExact query)
                (annotate "search_rank" (SearchRank "search_data" query) self) in
    extend_order_by ["-search_rank"] qs
  else self.

(** [DatasetTableModelQuerySet.apply_ordering]. The query of [self] is
    changed in place and [self] is returned: the result stands for both.
    What [add_ordering] raises goes on to the caller. *)
Definition apply_ordering (query : list string) (self : QuerySet) : result QuerySet :=
  let model_ordering := extra_ordering (extra (model self)) in
  let model_filtering := extra_filtering (extra (model self)) in
  let allowed_fields := set_iter (model_ordering ++ model_filtering) in
  let clean_allowed :=
    map (fun field => PyStr.lower (PyStr.strip (PyStr.replace "-" "" field)))
        allowed_fields in
  let ordering_query :=
    List.filter (fun field => str_in (PyStr.replace "-" "" field) clean_allowed) query in
  if list_truthy ordering_query then add_ordering ordering_query self
  else if list_truthy model_ordering then add_ordering model_ordering self
  else Ok self.

End PythonSets.

(** ** The storage engine as the query sets see it *)

(** A Python float: a finite value [m * 2^e], an infinity or a NaN. *)
Inductive pyfloat : Type :=
| Finite (m e : Z)
| Infinity (negative : bool)
| NaN.

(** [int(x)] on a float: truncation toward zero. *)
Definition py_int (x : pyfloat) : result Z :=
  match x with
  | Finite m e => if 0 <=? e then Ok (m * 2 ^ e) else Ok (Z.quot m (2 ^ (- e)))
  | Infinity _ => Err OverflowError
  | NaN => Err ValueError
  end.

Section Storage.

(** Text search as PostgreSQL decides it: whether a search vector matches
    the tsquery that a search query is compiled to, which is
    [plainto_tsquery(config, word)] for a word and the conjunction of both
    sides for [&], and [ts_rank] for that tsquery. PostgreSQL normalises
    the tsquery as a whole and drops the stop words from it: the match of
    a conjunction is not the conjunction of the matches of its words. *)
Variable tsvector : Type.
Variable rank : Type.
Variable ts_match : tsvector -> SearchQuery -> bool.
Variable ts_rank : tsvector -> SearchQuery -> rank.

Record Row : Type := {
  row_fields : list (string * string);
  search_data : option tsvector
}.

(** A physical table: its rows, and the [reltuples] of its row in
    [pg_class]. *)
Record Relation : Type := {
  rel_rows : list Row;
  rel_reltuples : pyfloat
}.

(** What the queries of this module read: the physical tables by name,
    each with its row in [pg_class] (a name without table has no row
    there either), and the exception that reading [pg_class] raises for
    the role of the connection, if it raises one. *)
Record Database : Type := {
  relations : string -> option Relation;
  statistics_error : option exn
}.

Definition row_field (r : Row) (name : string) : option string :=
  snd <$> List.find (fun kv => String.eqb (fst kv) name) (row_fields r).

(** One lookup on one row. An exact lookup against None is [IS NULL]. *)
Definition eval_lookup (l : Lookup) (r : Row) : bool :=
  match l with
  | SearchDataExact None =>
      match search_data r with None => true | Some _ => false end
  | SearchDataExact (Some q) =>
      match search_data r with None => false | Some v => ts_match v q end
  | FieldExact f v =>
      match row_field r f with Some v' => String.eqb v v' | None => false end
  end.

Definition eval_where (w : list Lookup) (r : Row) : bool :=
  forallb (fun l => eval_lookup l r) w.

(** The value of an annotation on a row; None is SQL NULL. *)
Definition eval_annotation (a : Annotation) (r : Row) : option rank :=
  match a with
  | SearchRank _ (Some q) => (fun v => ts_rank v q) <$> search_data r
  | SearchRank _ None => None
  end.

(** The rows a query set selects, each with its annotations, before
    they are sorted by [order_by]; the query raises ProgrammingError when
    the table of the model does not exist. *)
Definition selected (db : Database) (qs : QuerySet)
  : result (list (Row * list (string * option rank))) :=
  match relations db (db_table (model qs)) with
  | None => Err ProgrammingError
  | Some rel =>
      Ok (map (fun r => (r, map (fun na => (fst na, eval_annotation (snd na) r))
                                (annotations (query qs))))
              (List.filter (eval_where (where_ (query qs))) (rel_rows rel)))
  end.

(** [QuerySet.count]: SELECT COUNT on the query. *)
Definition exact_count (db : Database) (qs : QuerySet) : result Z :=
  match selected db qs with
  | Ok rows => Ok (Z.of_nat (length rows))
  | Err e => Err e
  end.

(** The [try] block of [count]: the statistics are read, [fetchone()] is
    None when [pg_class] has no row of that name, and [int] is applied to
    the value. *)
Definition read_reltuples (db : Database) (qs : QuerySet) : result Z :=
  match statistics_error db with
  | Some e => Err e
  | None =>
      match relations db (db_table (model qs)) with
      | None => Err TypeError
      | Some rel => py_int (rel_reltuples rel)
      end
  end.

Definition set_count (c : Z) (qs : QuerySet) : QuerySet :=
  {| model := model qs; query := query qs; _count := Some c |}.

(** [DatasetTableModelQuerySet.count]: the value returned, or what the
    exact count raises, and [self] with its [_count] attribute, which is
    set when a value is returned. *)
Definition count (db : Database) (self : QuerySet) : result Z * QuerySet :=
  match _count self with
  | Some c => (Ok c, self)
  | None =>
      let r :=
        if negb (list_truthy (where_ (query self))) then
          match read_reltuples db self with
          | Ok n => Ok n
          | Err _ => exact_count db self
          end
        else exact_count db self in
      match r with
      | Ok c => (Ok c, set_count c self)
      | Err e => (Err e, self)
      end
  end.

End Storage.

(** ** The indexes of a dynamic model *)

Inductive IndexClass : Type :=
| BTreeIndex
| GinIndex.

(** [django_indexes.Index(name=..., fields=...)] and
    [pg_indexes.GinIndex(name=..., fields=...)] *)
Record Index : Type := {
  index_class : IndexClass;
  index_name : string;
  index_fields : list string
}.

Definition and_then {A B} (r : result A) (f : A -> result B) : result B :=
  match r with
  | Ok a => f a
  | Err e => Err e
  end.

Definition list_eqb (l1 l2 : list string) : bool :=
  if decide (l1 = l2) then true else false.

(** The loop over [filtering] in [Table.get_model]; [indexes] is the list
    built so far. *)
Fixpoint filtering_indexes (db_table : string) (ordering : list string)
    (filtering : list string) (indexes : list Index) : result (list Index) :=
  match filtering with
  | [] => Ok indexes
  | field_name :: filtering' =>
      if list_eqb ordering [field_name]
      then filtering_indexes db_table ordering filtering' indexes
      else
        and_then (make_index_name db_table "filter" [field_name]) (fun name =>
        filtering_indexes db_table ordering filtering'
          (indexes ++ [ {| index_class := BTreeIndex; index_name := name;
                           index_fields := [field_name] |} ])%list)
  end.

(** The list [indexes] that [Table.get_model] builds for the physical
    table [db_table] from the table's [ordering], [filtering] and [search]
    (each already replaced by the empty list when it is None). *)
Definition get_model_indexes (db_table : string) (ordering filtering search : list string)
  : result (list Index) :=
  and_then
    (if list_truthy ordering
     then and_then (make_index_name db_table "order" ordering) (fun name =>
          Ok [ {| index_class := BTreeIndex; index_name := name;
                  index_fields := ordering |} ])
     else Ok [])
    (fun indexes =>
  and_then
    (if list_truthy filtering
     then filtering_indexes db_table ordering filtering indexes
     else Ok indexes)
    (fun indexes =>
  if list_truthy search
  then and_then (make_index_name db_table "search" ["search_data"]) (fun name =>
       Ok (indexes ++ [ {| index_class := GinIndex; index_name := name;
                           index_fields := ["search_data"] |} ])%list)
  else Ok indexes)).

(** ** DataTable generations *)

(** A [DataTable] instance in memory. [id] is None until the first save.
    [created_at] of an instance not saved yet stands for the reading of the
    clock that [auto_now_add] stores at that first save. [table] is the
    key of the logical Table, None when the foreign key is null. *)
Record DataTable : Type := {
  id : option Z;
  created_at : Z;
  table : option Z;
  db_table_name : string;
  active : bool
}.

(** A row of [core_datatable], without its primary key. *)
Record Stored : Type := {
  stored_created_at : Z;
  stored_table : option Z;
  stored_db_table_name : string;
  stored_active : bool
}.

(** The rows of [core_datatable] by primary key, and the names of the
    physical tables that exist. *)
Record Store : Type := {
  data_tables : gmap Z Stored;
  physical : gset string
}.

Definition stored_of (d : DataTable) : Stored :=
  {| stored_created_at := created_at d; stored_table := table d;
     stored_db_table_name := db_table_name d; stored_active := active d |}.

Definition load (kv : Z * Stored) : DataTable :=
  {| id := Some kv.1; created_at := stored_created_at kv.2;
     table := stored_table kv.2; db_table_name := stored_db_table_name kv.2;
     active := stored_active kv.2 |}.

Definition set_active (b : bool) (d : DataTable) : DataTable :=
  {| id := id d; created_at := created_at d; table := table d;
     db_table_name := db_table_name d; active := b |}.

Definition set_id (i : Z) (d : DataTable) : DataTable :=
  {| id := Some i; created_at := created_at d; table := table d;
     db_table_name := db_table_name d; active := active d |}.

(** *** Database code: a state monad over [Store] with exceptions *)

Definition M (A : Type) : Type := Store -> result A * Store.

Definition ret {A} (a : A) : M A := fun s => (Ok a, s).

Definition bind {A B} (m : M A) (f : A -> M B) : M B :=
  fun s => match m s with
           | (Ok a, s') => f a s'
           | (Err e, s') => (Err e, s')
           end.

Definition raise {A} (e : exn) : M A := fun s => (Err e, s).

Definition get_store : M Store := fun s => (Ok s, s).

Definition put_store (s' : Store) : M unit := fun _ => (Ok tt, s').

Notation "x <- m ;; k" := (bind m (fun x => k))
  (at level 100, m at next level, right associativity).
Notation "m ;;; k" := (bind m (fun _ => k))
  (at level 100, right associativity).

(** [with transaction.atomic():] an exception leaving the block undoes
    what the block did to the database, then goes on to the caller. *)
Definition atomic {A} (m : M A) : M A :=
  fun s => match m s with
           | (Ok a, s') => (Ok a, s')
           | (Err e, _) => (Err e, s)
           end.

(** [try: m except ProgrammingError: pass] *)
Definition ignore_programming_error (m : M unit) : M unit :=
  fun s => match m s with
           | (Err ProgrammingError, s') => (Ok tt, s')
           | r => r
           end.

(** *** DataTableQuerySet *)

Definition for_table (t : Z) (m : gmap Z Stored) : gmap Z Stored :=
  filter (fun kv => stored_table kv.2 = Some t) m.

Definition inactive (m : gmap Z Stored) : gmap Z Stored :=
  filter (fun kv => stored_active kv.2 = false) m.

Definition active_ (m : gmap Z Stored) : gmap Z Stored :=
  filter (fun kv => stored_active kv.2 = true) m.

(** [exclude(id=i)]; with None nothing is excluded. *)
Definition exclude_id (i : option Z) (m : gmap Z Stored) : gmap Z Stored :=
  match i with
  | Some i => filter (fun kv => kv.1 <> i) m
  | None => m
  end.

Definition newer (best : option (Z * Stored)) (kv : Z * Stored) : option (Z * Stored) :=
  match best with
  | None => Some kv
  | Some b => if stored_created_at b.2 <? stored_created_at kv.2 then Some kv else Some b
  end.

(** [order_by("-created_at").first()]: a row with the greatest
    [created_at], None on an empty set. Among rows with that same
    [created_at] the database is free to return any; here the one that
    comes first in the enumeration of the map. *)
Definition most_recent (m : gmap Z Stored) : option DataTable :=
  load <$> fold_left newer (map_to_list m) None.

Definition get_current_active (m : gmap Z Stored) : option DataTable :=
  most_recent (active_ m).

(** *** DataTable *)

Definition DataTable_str (d : DataTable) : string := "DataTable: " ++ db_table_name d.

(** [self.table], on which an attribute is then read: AttributeError
    when it is None. *)
Definition table_of (self : DataTable) : M Z :=
  match table self with
  | Some t => ret t
  | None => raise AttributeError
  end.

(** [self.save()]: INSERT under a primary key no row has when the instance
    has none, else UPDATE (or INSERT) of the row of its key. *)
Definition save (self : DataTable) : M DataTable :=
  fun s =>
    let i := match id self with
             | Some i => i
             | None => fresh (dom (data_tables s))
             end in
    (Ok (set_id i self),
     {| data_tables := <[i := stored_of self]> (data_tables s);
        physical := physical s |}).

(** *** The dynamic model of a generation *)

(** A row of [core_field], as [Field.field_class] reads it. *)
Record FieldRow : Type := {
  field_name : string;
  field_type : string;
  field_null : bool;
  field_options : list (string * string)
}.

(** What [Table.get_model] reads of a row of [core_table], with the slug
    of its dataset and the rows of [core_field] that point to it, in
    their order. *)
Record TableSchema : Type := {
  tbl_dataset_slug : string;
  tbl_name : string;
  tbl_ordering : list string;
  tbl_filtering : option (list string);
  tbl_search : option (list string);
  tbl_fields : list FieldRow
}.

(** The query set classes and the mixins that [Table.get_model] chooses
    from. *)
Inductive QuerySetClass : Type :=
| DatasetTableModelQuerySet
| SociosBrasilEmpresaQuerySet
| Covid19BoletimQuerySet
| Covid19CasoQuerySet.

Inductive MixinClass : Type :=
| DatasetTableModelMixin
| SociosBrasilEmpresaMixin.

(** The model class that [Table.get_model] returns: what the query sets
    read of it, the indexes of its [Meta], its mixins and the class of
    its manager [objects]. *)
Record ModelClass : Type := {
  dynamic_model : DynamicModel;
  meta_indexes : list Index;
  model_mixins : list MixinClass;
  model_objects : QuerySetClass
}.

(** What the methods of [DataTable] reach and this module does not
    define or write: the rows of [core_table], which exist for every key
    that a generation points to (the foreign key sees to it), and two
    names of core/dynamic_models.py, each with what it raises: the
    constructor call of [Field.field_class] on a row of [core_field],
    where the lookup in [FIELD_TYPES] raises KeyError on a type that is
    not registered, and [create_model_class], here for the table (which
    gives the name and the fields of the model), the physical name, the
    indexes, the mixins and the manager. *)
Record Env : Type := {
  core_table : Z -> TableSchema;
  field_class : FieldRow -> result unit;
  create_model_class :
    TableSchema -> string -> list Index -> list MixinClass -> QuerySetClass -> result unit
}.

(** The dictionary of the field classes, built field by field. *)
Fixpoint field_classes (env : Env) (fields : list FieldRow) : result unit :=
  match fields with
  | [] => Ok tt
  | field :: fields' =>
      and_then (field_class env field) (fun _ => field_classes env fields')
  end.

(** [Table.get_model] of the table with key [t], called with
    [cache=False] and a generation: the registry of models is not read,
    and the entry that the method writes to it at the end is state of the
    process that nothing here reads. *)
Definition get_model (env : Env) (t : Z) (data_table : DataTable) : result ModelClass :=
  let self := core_table env t in
  let db_table := db_table_name data_table in
  and_then (field_classes env (tbl_fields self)) (fun _ =>
  let ordering := tbl_ordering self in
  let filtering := default [] (tbl_filtering self) in
  let search := default [] (tbl_search self) in
  and_then (get_model_indexes db_table ordering filtering search) (fun indexes =>
  let dataset_slug := tbl_dataset_slug self in
  let name := tbl_name self in
  let '(mixins, objects) :=
    if String.eqb dataset_slug "socios-brasil" && String.eqb name "empresa"
    then ([SociosBrasilEmpresaMixin; DatasetTableModelMixin], SociosBrasilEmpresaQuerySet)
    else if String.eqb dataset_slug "covid19"
    then ([DatasetTableModelMixin],
          if String.eqb name "boletim" then Covid19BoletimQuerySet
          else if String.eqb name "caso" then Covid19CasoQuerySet
          else DatasetTableModelQuerySet)
    else ([DatasetTableModelMixin], DatasetTableModelQuerySet) in
  and_then (create_model_class env self db_table indexes mixins objects) (fun _ =>
  Ok {| dynamic_model :=
          {| db_table := db_table;
             extra := {| extra_filtering := filtering; extra_ordering := ordering;
                         extra_search := search |} |};
        meta_indexes := indexes;
        model_mixins := mixins;
        model_objects := objects |}))).

(** Modelled from the spec: [Model.delete_table] of the dynamic model
    class (core/dynamic_models.py), "destroys the physical structure";
    the storage engine raises when the structure does not exist. *)
Definition delete_table (Model : ModelClass) : M unit :=
  fun s =>
    let name := db_table (dynamic_model Model) in
    if decide (name ∈ physical s)
    then (Ok tt, {| data_tables := data_tables s; physical := physical s ∖ {[name]} |})
    else (Err ProgrammingError, s).

(** [DataTable.delete_data_table]: the model is built before the [try],
    and what [get_model] raises goes on to the caller. *)
Definition delete_data_table (env : Env) (self : DataTable) : M unit :=
  t <- table_of self ;;
  match get_model env t self with
  | Err e => raise e
  | Ok Model => ignore_programming_error (delete_table Model)
  end.

(** The body of [DataTable.activate], over the [deactivate] it calls. *)
Definition activate_body
    (deactivate : DataTable -> bool -> bool -> M DataTable)
    (self : DataTable) (drop_inactive_table : bool) : M DataTable :=
  atomic (
    t <- table_of self ;;
    s <- get_store ;;
    let prev_data_table := get_current_active (for_table t (data_tables s)) in
    match prev_data_table with
    | Some prev => deactivate prev drop_inactive_table false ;;; ret tt
    | None => ret tt
    end ;;;
    save (set_active true self)).

(** The body of [DataTable.deactivate], over the [activate] it calls. The
    value is [self] as the method leaves it. *)
Definition deactivate_body (env : Env)
    (activate : DataTable -> bool -> M DataTable)
    (self : DataTable) (drop_table activate_most_recent : bool) : M DataTable :=
  let plain :=
    self' <- save (set_active false self) ;;
    if drop_table then delete_data_table env self' ;;; ret self' else ret self' in
  atomic (
    if activate_most_recent && active self then
      t <- table_of self ;;
      s <- get_store ;;
      match most_recent (inactive (exclude_id (id self) (for_table t (data_tables s)))) with
      | Some most_recent => activate most_recent drop_table ;;; ret self
      | None => plain
      end
    else plain).

(** The two methods call each other; [n] bounds the depth of the calls, as
    the interpreter's recursion limit does. *)
Fixpoint activate_n (env : Env) (n : nat) (self : DataTable) (drop_inactive_table : bool)
  : M DataTable :=
  match n with
  | O => raise RecursionError
  | S n' => activate_body (deactivate_n env n') self drop_inactive_table
  end
with deactivate_n (env : Env) (n : nat) (self : DataTable)
    (drop_table activate_most_recent : bool) : M DataTable :=
  match n with
  | O => raise RecursionError
  | S n' => deactivate_body env (activate_n env n') self drop_table activate_most_recent
  end.

Definition recursion_limit : nat := 1000.

Definition activate (env : Env) : DataTable -> bool -> M DataTable :=
  activate_n env recursion_limit.
Definition deactivate (env : Env) : DataTable -> bool -> bool -> M DataTable :=
  deactivate_n env recursion_limit.

(** *** Deletion and its signal receivers *)

Definition prevent_active_data_table_deletion (instance : DataTable) : M unit :=
  if active instance
  then raise (RuntimeError
                (DataTable_str instance ++ " is active and can not be deleted. Deactivate it first."))
  else ret tt.

Definition clean_associated_data_base_table (env : Env) (instance : DataTable) : M unit :=
  delete_data_table env instance.

(** [instance.delete()] of Django for a DataTable: inside one transaction
    the receivers of [pre_delete] run, the row is deleted, the receivers of
    [post_delete] run. An instance without primary key is refused first. *)
Definition delete_ (env : Env) (instance : DataTable) : M unit :=
  match id instance with
  | None => raise AssertionError
  | Some i =>
      atomic (
        prevent_active_data_table_deletion instance ;;;
        s <- get_store ;;
        put_store {| data_tables := delete i (data_tables s); physical := physical s |} ;;;
        clean_associated_data_base_table env instance)
  end.

(** The generations of logical table [t] that are active in the store. *)
Definition active_generations (t : Z) (s : Store) : gset Z :=
  dom (active_ (for_table t (data_tables s))).

(** One call as an observer of the store sees it: the store before, what
    the call gives and the store after. *)
Record Transition : Type := {
  before : Store;
  outcome : result DataTable;
  after : Store
}.

(** The [activate] calls of a sequence, each started in the store that
    the call before it leaves. *)
Fixpoint activations (env : Env) (calls : list (DataTable * bool)) (s : Store)
  : list Transition :=
  match calls with
  | [] => []
  | (g, drop) :: calls' =>
      let r := activate env g drop s in
      {| before := s; outcome := r.1; after := r.2 |} :: activations env calls' r.2
  end.

(** ** The specification's wording, for comparison *)

(** The index name as the specification words it: the field names are
    joined by one space and the kind initial follows the truncated table
    name at once. Sanitising and widths are those of the code. *)
Definition spec_index_name (tablename index_type : string) (fields : list string)
  : result string :=
  let key := tablename ++ " " ++ index_type ++ " " ++ PyStr.join " " (PyStr.sorted fields) in
  match PyStr.encode_ascii key with
  | Err e => Err e
  | Ok bytes =>
      let truncated :=
        PyStr.take 12 (PyStr.replace "-" "" (PyStr.replace "data_" "" tablename)) in
      match index_type with
      | EmptyString => Err IndexError
      | String k _ =>
          Ok ("idx_" ++ truncated ++ String k (PyStr.last_n 12 (MD5.hexdigest bytes)))
      end
  end.

(** A requested ordering name without its sign. *)
Definition base_name (f : string) : string :=
  match f with
  | String "-" f' => f'
  | _ => f
  end.

(** [apply_ordering] as the specification words it: a requested name is
    kept when its base name is one of the declared ordering or filtering
    names. *)
Definition spec_apply_ordering (requested : list string) (self : QuerySet) : QuerySet :=
  let model_ordering := extra_ordering (extra (model self)) in
  let declared := (model_ordering ++ extra_filtering (extra (model self)))%list in
  let kept := List.filter (fun f => str_in (base_name f) declared) requested in
  if list_truthy kept then extend_order_by kept self
  else if list_truthy model_ordering then extend_order_by model_ordering self
  else self.

(** ** Sample values for the examples *)

(** One iteration order of a set: each element where it comes first. *)
Definition first_seen (l : list string) : list string := remove_dups l.

(** The words and configurations of a search query, left to right. *)
Fixpoint terms (q : SearchQuery) : list (string * string) :=
  match q with
  | SQ w c => [(w, c)]
  | SQAnd a b => terms a ++ terms b
  end.

(** A storage engine with the one stop word "de": a search vector is its
    list of lexemes, the tsquery of a search query is the list of its
    words that are no stop words, and it matches a vector when it has a
    word and all its words are lexemes of the vector; the rank counts the
    terms of the query. *)
Definition sample_lexemes (q : SearchQuery) : list string :=
  List.filter (fun w => negb (String.eqb w "de")) (map fst (terms q)).
Definition sample_match (v : list string) (q : SearchQuery) : bool :=
  list_truthy (sample_lexemes q) && forallb (fun w => str_in w v) (sample_lexemes q).
Definition sample_rank (v : list string) (q : SearchQuery) : Z := Z.of_nat (length (terms q)).

Definition sample_row (name : string) (lexemes : option (list string)) : Row (list string) :=
  {| row_fields := [("name", name)]; search_data := lexemes |}.

Definition sample_model : DynamicModel :=
  {| db_table := "data_covid19_caso_abcdefgh";
     extra := {| extra_filtering := ["Age"]; extra_ordering := ["name"];
                 extra_search := ["name"] |} |}.

Definition empty_query : Query := {| where_ := []; annotations := []; order_by := [] |}.

Definition sample_qs : QuerySet :=
  {| model := sample_model; query := empty_query; _count := None |}.

Definition sample_rows : list (Row (list string)) :=
  [ sample_row "rio de janeiro" (Some ["rio"; "janeiro"]);
    sample_row "rio branco" (Some ["rio"; "branco"]);
    sample_row "niteroi" (Some ["niteroi"]) ].

(** One table of three rows, with planner statistics that were never
    gathered. *)
Definition sample_db : Database (list string) :=
  {| relations := fun name =>
       if String.eqb name "data_covid19_caso_abcdefgh"
       then Some {| rel_rows := sample_rows; rel_reltuples := Finite (-1) 0 |}
       else None;
     statistics_error := None |}.

(** The same table with statistics that are no number. *)
Definition sample_db_nan : Database (list string) :=
  {| relations := fun name =>
       if String.eqb name "data_covid19_caso_abcdefgh"
       then Some {| rel_rows := sample_rows; rel_reltuples := NaN |}
       else None;
     statistics_error := None |}.

(** A database without the table. *)
Definition sample_db_empty : Database (list string) :=
  {| relations := fun _ => None; statistics_error := None |}.

Arguments Database tsvector : clear implicits.
Arguments Relation tsvector : clear implicits.
Arguments Row tsvector : clear implicits.
Arguments relations {tsvector} d name.
Arguments statistics_error {tsvector} d.
Arguments rel_rows {tsvector} r.
Arguments rel_reltuples {tsvector} r.
Arguments search_data {tsvector} r.
Arguments row_fields {tsvector} r.
Arguments selected {tsvector rank} ts_match ts_rank db qs.
Arguments exact_count {tsvector rank} ts_match ts_rank db qs.
Arguments count {tsvector rank} ts_match ts_rank db self.
Arguments read_reltuples {tsvector} db qs.
Arguments eval_where {tsvector} ts_match w r.
Arguments eval_lookup {tsvector} ts_match l r.
Arguments eval_annotation {tsvector rank} ts_rank a r.

(** The same table, for a role that may not read [pg_class]. *)
Definition sample_db_no_statistics : Database (list string) :=
  {| relations := relations sample_db; statistics_error := Some ProgrammingError |}.

(** The query that the loop of [search] builds from the words it visits. *)
Definition build_query (config : string) (words : list string) : option SearchQuery :=
  fold_left (search_step config) words None.

Definition opt_terms (q : option SearchQuery) : list (string * string) :=
  match q with
  | Some q => terms q
  | None => []
  end.

(** The normal form in which [apply_ordering] compares a declared name. *)
Definition clean_name (field : string) : string :=
  PyStr.lower (PyStr.strip (PyStr.replace "-" "" field)).

(** A row with its [active] column set. *)
Definition set_stored_active (b : bool) (v : Stored) : Stored :=
  {| stored_created_at := stored_created_at v; stored_table := stored_table v;
     stored_db_table_name := stored_db_table_name v; stored_active := b |}.

(** The invariant of the data model: at most one active generation of
    logical table [t]. *)
Definition at_most_one_active (t : Z) (s : Store) : Prop :=
  forall i j, i ∈ active_generations t s -> j ∈ active_generations t s -> i = j.

Definition sample_generation (created : Z) (name : string) (is_active : bool) : Stored :=
  {| stored_created_at := created; stored_table := Some 7;
     stored_db_table_name := name; stored_active := is_active |}.

(** Table 7 with its active generation 1 and two retired ones. *)
Definition sample_store : Store :=
  {| data_tables :=
       <[1 := sample_generation 30 "data_covid19_caso_cccccccc" true]>
       (<[2 := sample_generation 10 "data_covid19_caso_aaaaaaaa" false]>
       (<[3 := sample_generation 20 "data_covid19_caso_bbbbbbbb" false]> ∅));
     physical := {[ "data_covid19_caso_cccccccc"; "data_covid19_caso_bbbbbbbb" ]} |}.

(** Table 7 with one generation, active. *)
Definition sample_store_single : Store :=
  {| data_tables := {[ 1 := sample_generation 30 "data_covid19_caso_cccccccc" true ]};
     physical := {[ "data_covid19_caso_cccccccc" ]} |}.

Definition sample_active : DataTable :=
  load (1, sample_generation 30 "data_covid19_caso_cccccccc" true).


(** A generation of table 7 that was not saved yet. *)
Definition sample_new : DataTable :=
  {| id := None; created_at := 40; table := Some 7;
     db_table_name := "data_covid19_caso_dddddddd"; active := false |}.

(** ** Query strings *)

(** [dict.pop(key, default)] on a QueryDict: the list of values of the
    key. *)
Definition pop (key : string) (default : list string) (q : gmap string (list string))
  : list string * gmap string (list string) :=
  match q !! key with
  | Some values => (values, delete key q)
  | None => (default, q)
  end.

(** [l[0]] *)
Definition first_item (l : list string) : result string :=
  match l with
  | x :: _ => Ok x
  | [] => Err IndexError
  end.

(** What [QueryDict.items()] gives for a key, when it is truthy: the last
    value of the key, if it is not the empty string. *)
Definition truthy_last (values : list string) : option string :=
  match last values with
  | Some v => if str_truthy v then Some v else None
  | None => None
  end.

(** [DatasetTableModelQuerySet.parse_querystring]: the filter query, the
    search query and the ordering names. *)
Definition parse_querystring (querystring : gmap string (list string))
  : result (gmap string string * string * list string) :=
  let query := querystring in
  let '(order_by, query) := pop "order-by" [""] query in
  and_then (first_item order_by) (fun order_by0 =>
  let order_by :=
    map (fun field => PyStr.lower (PyStr.strip field))
        (List.filter (fun field => str_truthy (PyStr.strip field))
                     (PyStr.split_on "," order_by0)) in
  let '(search, query) := pop "search" [""] query in
  and_then (first_item search) (fun search_query =>
  let query := omap truthy_last query in
  Ok (query, search_query, order_by))).

Definition opt_str_truthy (s : option string) : bool :=
  match s with
  | Some s => str_truthy s
  | None => false
  end.

Definition dict_truthy (d : option (gmap string string)) : bool :=
  match d with
  | Some d => if decide (d = ∅) then false else true
  | None => false
  end.

(** What [qs.filter] gives for keyword arguments [kwargs] that Django
    accepts: a clone with the lookups added. *)
Definition filter_kwargs (kwargs : list Lookup) (qs : QuerySet) : QuerySet :=
  let c := clone qs in
  {| model := model c;
     query := {| where_ := (where_ (query c) ++ kwargs)%list;
                 annotations := annotations (query c);
                 order_by := order_by (query c) |};
     _count := _count c |}.

Section Composition.

Variable set_iter : list string -> list string.
Variable order_item_valid : QuerySet -> string -> bool.

(** [DynamicModelFilterProcessor(filtering, model_filtering).filters]
    (core/filters.py): the keyword arguments for [filter] made from the
    filter query and the declared filtering names. *)
Variable processor_filters : gmap string string -> list string -> list Lookup.

(** The exception with which [qs.filter] of Django refuses keyword
    arguments on a query set, if it does: FieldError for a name that is
    no field or lookup of the model, ValidationError for a value that the
    field cannot take. *)
Variable filter_refused : QuerySet -> list Lookup -> option exn.

(** [DatasetTableModelQuerySet.apply_filters] *)
Definition apply_filters (filtering : gmap string string) (self : QuerySet)
  : result QuerySet :=
  let model_filtering := extra_filtering (extra (model self)) in
  let filters := processor_filters filtering model_filtering in
  match filter_refused self filters with
  | Some e => Err e
  | None => Ok (filter_kwargs filters self)
  end.

(** [DatasetTableModelQuerySet.composed_query]; None is the default of
    each argument. *)
Definition composed_query (filter_query : option (gmap string string))
    (search_query : option string) (order_by : option (list string))
    (self : QuerySet) : result QuerySet :=
  let qs := self in
  let qs := if opt_str_truthy search_query
            then search set_iter (default "" search_query) qs else qs in
  and_then (if dict_truthy filter_query
            then apply_filters (default ∅ filter_query) qs else Ok qs) (fun qs =>
  apply_ordering set_iter order_item_valid
    (match order_by with
     | Some l => if list_truthy l then l else []
     | None => []
     end) qs).

(** [DatasetTableModelQuerySet.filter_by_querystring] *)
Definition filter_by_querystring (querystring : gmap string (list string))
    (self : QuerySet) : result QuerySet :=
  and_then (parse_querystring querystring) (fun '(query, search_query, order_by) =>
  composed_query (Some query) (Some search_query) (Some order_by) self).

End Composition.

(** ** The physical table of a logical table *)

(** [Table.data_table] of the logical table with key [t] *)
Definition Table_data_table (t : Z) : M (option DataTable) :=
  s <- get_store ;;
  ret (get_current_active (for_table t (data_tables s))).

(** [Table.db_table]: the attribute is read on what [data_table] gives,
    also when that is None. *)
Definition Table_db_table (t : Z) : M string :=
  data_table <- Table_data_table t ;;
  match data_table with
  | Some d => ret (db_table_name d)
  | None => raise AttributeError
  end.

(** ** New generations *)

Definition ascii_lowercase : list ascii :=
  list_ascii_of_string "abcdefghijklmnopqrstuvwxyz".

(** [random.choice(string.ascii_lowercase)], for the [i]-th draw of the
    generator [rand], which gives any natural number. *)
Definition random_choice (rand : nat -> nat) (i : nat) : ascii :=
  nth (rand i mod 26) ascii_lowercase "a"%char.

(** What [new_data_table] reads of its logical table. *)
Record TableRef : Type := {
  table_pk : Z;
  table_dataset_slug : string;
  table_name : string
}.

(** [DataTable.new_data_table]. The instance is not saved; the
    [created_at] it carries is the one its first save will store ([now]). *)
Definition new_data_table (rand : nat -> nat) (now : Z) (table : TableRef)
    (suffix_size : Z) : DataTable :=
  let db_table_suffix :=
    string_of_list_ascii (map (random_choice rand) (seq 0 (Z.to_nat suffix_size))) in
  let db_table_name :=
    "data_" ++ PyStr.replace "-" "" (table_dataset_slug table)
    ++ "_" ++ PyStr.replace "_" "" (table_name table) in
  let db_table_name :=
    if str_truthy db_table_suffix then db_table_name ++ "_" ++ db_table_suffix
    else db_table_name in
  {| id := None; created_at := now; table := Some (table_pk table);
     db_table_name := db_table_name; active := false |}.

(** ** The catalog of tables *)

(** A row of [core_table], with the slug of the dataset it points to. *)
Record CatalogTable : Type := {
  cat_dataset : Z;
  cat_dataset_slug : string;
  cat_name : string;
  cat_default : bool;
  cat_hidden : bool;
  cat_version : Z
}.

Inductive lookup_error : Type :=
| DoesNotExist
| MultipleObjectsReturned.

(** [QuerySet.get] on the rows that are left: the one row, or an error. *)
Definition get_one (m : gmap Z CatalogTable) : lookup_error + (Z * CatalogTable) :=
  match map_to_list m with
  | [] => inl DoesNotExist
  | [kv] => inr kv
  | _ => inl MultipleObjectsReturned
  end.

(** [ActiveTableManager.get_queryset] and [AllTablesManager] *)
Definition Table_objects (m : gmap Z CatalogTable) : gmap Z CatalogTable :=
  filter (fun kv => cat_hidden kv.2 = false) m.

Definition Table_with_hidden (m : gmap Z CatalogTable) : gmap Z CatalogTable := m.

(** [TableQuerySet.for_dataset] with a slug *)
Definition for_dataset (dataset : string) (m : gmap Z CatalogTable) : gmap Z CatalogTable :=
  filter (fun kv => cat_dataset_slug kv.2 = dataset) m.

(** [TableQuerySet.named] *)
Definition named (name : string) (m : gmap Z CatalogTable)
  : lookup_error + (Z * CatalogTable) :=
  get_one (filter (fun kv => cat_name kv.2 = name) m).

(** [TableQuerySet.default] *)
Definition default_ (m : gmap Z CatalogTable) : lookup_error + (Z * CatalogTable) :=
  get_one (filter (fun kv => cat_default kv.2 = true) m).

(** The module-level [get_table] *)
Definition get_table (catalog : gmap Z CatalogTable) (dataset_slug tablename : string)
    (allow_hidden : bool) : lookup_error + (Z * CatalogTable) :=
  let qs := Table_objects catalog in
  let qs := if allow_hidden then Table_with_hidden catalog else qs in
  named tablename (for_dataset dataset_slug qs).

(** ** Helpers of the further properties *)

(** An index that the loop over [filtering] appends. *)
Definition is_filter_index (db_table : string) (ordering filtering : list string)
    (i : Index) : Prop :=
  index_class i = BTreeIndex
  /\ exists field_name,
       In field_name filtering /\ index_fields i = [field_name]
       /\ ordering <> [field_name]
       /\ make_index_name db_table "filter" [field_name] = Ok (index_name i).

(** [lstrip] and [strip] on the list of the characters. *)
Fixpoint lstrip_list (l : list ascii) : list ascii :=
  match l with
  | c :: l' => if PyStr.is_space c then lstrip_list l' else l
  | [] => []
  end.

Definition strip_list (l : list ascii) : list ascii :=
  rev (lstrip_list (rev (lstrip_list l))).

Definition clean_head (l : list ascii) : Prop :=
  match l with
  | c :: _ => PyStr.is_space c = false
  | [] => True
  end.

Definition is_lowercase_letter (c : ascii) : Prop := 97 <= PyStr.code c <= 122.

(** The name that [new_data_table] gives, before the suffix. *)
Definition new_name_base (table : TableRef) : string :=
  "data_" ++ PyStr.replace "-" "" (table_dataset_slug table)
  ++ "_" ++ PyStr.replace "_" "" (table_name table).

(** A row that a call of [get_table] looks for. *)
Definition table_found (catalog : gmap Z CatalogTable) (dataset_slug tablename : string)
    (allow_hidden : bool) (k : Z) (t : CatalogTable) : Prop :=
  catalog !! k = Some t /\ cat_dataset_slug t = dataset_slug /\ cat_name t = tablename
  /\ (allow_hidden = false -> cat_hidden t = false).

(** A filter processor for the examples: an exact lookup for each key of
    the filter query that is a declared filtering name. *)
Definition sample_processor (filtering : gmap string string) (model_filtering : list string)
  : list Lookup :=
  map (fun kv => FieldExact kv.1 kv.2)
      (List.filter (fun kv => str_in (fst kv) model_filtering) (map_to_list filtering)).

(** A model whose column "date" takes dates only: the text "ontem" is
    refused for it. *)
Definition sample_filter_refused (qs : QuerySet) (kwargs : list Lookup) : option exn :=
  if existsb (fun l => match l with
                       | FieldExact "date" "ontem" => true
                       | _ => false
                       end) kwargs
  then Some ValidationError else None.

Definition sample_table (version : Z) (hidden : bool) : CatalogTable :=
  {| cat_dataset := 1; cat_dataset_slug := "covid19"; cat_name := "caso";
     cat_default := true; cat_hidden := hidden; cat_version := version |}.

(** The table "caso" of one dataset in two versions, the older one hidden. *)
Definition sample_catalog : gmap Z CatalogTable :=
  <[1 := sample_table 1 true]> (<[2 := sample_table 2 false]> ∅).

Definition sample_table_ref : TableRef :=
  {| table_pk := 7; table_dataset_slug := "covid-19"; table_name := "caso_full" |}.

(** The characters of the class [\w] of Python's [re], among the code
    points below 256: the letters, the digits and the underscore. *)
Definition is_word_char (c : ascii) : bool :=
  let n := PyStr.code c in
  ((48 <=? n) && (n <=? 57)) || ((65 <=? n) && (n <=? 90)) || (n =? 95)
  || ((97 <=? n) && (n <=? 122)) || (n =? 170) || ((178 <=? n) && (n <=? 179))
  || (n =? 181) || ((185 <=? n) && (n <=? 186)) || ((188 <=? n) && (n <=? 190))
  || ((192 <=? n) && (n <=? 214)) || ((216 <=? n) && (n <=? 246)) || (248 <=? n).

(** A match of [[.\w]+$] from the start of [s]; [seen] tells whether a
    character was matched already. The end is also met before one last
    line feed. *)
Fixpoint word_dots (s : string) (seen : bool) : bool :=
  match s with
  | EmptyString => seen
  | String c s' =>
      if is_word_char c || (PyStr.code c =? 46) then word_dots s' true
      else seen && (PyStr.code c =? 10)
           && match s' with EmptyString => true | _ => false end
  end.

(** The check of Django 3.0: a match of the name against [ORDER_PATTERN],
    a question mark or a name of letters, digits, underscores and dots
    after at most one sign. *)
Definition order_pattern_match (qs : QuerySet) (item : string) : bool :=
  match item with
  | String "?" _ => true
  | String "-" body => word_dots body false
  | String "+" body => word_dots body false
  | _ => word_dots item false
  end.

(** The exception with which the drop of the table of a generation ends
    before the statement is sent, if it does. *)
Definition drop_error (env : Env) (t : Z) (d : DataTable) (drop : bool) : option exn :=
  if drop
  then match get_model env t d with
       | Err e => Some e
       | Ok _ => None
       end
  else None.

Definition sample_field (name type : string) : FieldRow :=
  {| field_name := name; field_type := type; field_null := true; field_options := [] |}.

(** Table 7 is ordered by date, filtered by state and city and searched
    by city; every field type is registered and every model class can be
    made. *)
Definition sample_env : Env :=
  {| core_table := fun _ =>
       {| tbl_dataset_slug := "covid19"; tbl_name := "caso";
          tbl_ordering := ["-date"]; tbl_filtering := Some ["state"; "city"];
          tbl_search := Some ["city"];
          tbl_fields := [ sample_field "date" "date"; sample_field "state" "string";
                          sample_field "city" "string" ] |};
     field_class := fun _ => Ok tt;
     create_model_class := fun _ _ _ _ _ => Ok tt |}.

(** The name "município", with its i acute as one character. *)
Definition municipio : string := "munic" ++ String (ascii_of_nat 237) "pio".

(** The same, with a table ordered by a column whose name is not ASCII. *)
Definition sample_env_accented : Env :=
  {| core_table := fun _ =>
       {| tbl_dataset_slug := "covid19"; tbl_name := "caso";
          tbl_ordering := [municipio]; tbl_filtering := None; tbl_search := None;
          tbl_fields := [ sample_field municipio "string" ] |};
     field_class := fun _ => Ok tt;
     create_model_class := fun _ _ _ _ _ => Ok tt |}.

(** The same as [sample_env], with a field of a type that [FIELD_TYPES]
    does not have. *)
Definition sample_env_unknown_type : Env :=
  {| core_table := core_table sample_env;
     field_class := fun field =>
       if String.eqb (field_type field) "date" then Err KeyError else Ok tt;
     create_model_class := fun _ _ _ _ _ => Ok tt |}.

(** * Properties *)

(** ** Strings *)

Module PyStrFacts.
Import PyStr.

Lemma len_app s1 s2 : len (s1 ++ s2) = (len s1 + len s2)%nat.
Proof. induction s1 as [|c s1 IH]; simpl; [reflexivity | now rewrite IH]. Qed.

Lemma len_take n s : (len (take n s) <= n)%nat.
Proof.
  revert s. induction n as [|n IH]; intros [|c s]; simpl; try lia.
  specialize (IH s). lia.
Qed.

Lemma len_drop n s : len (drop n s) = (len s - n)%nat.
Proof.
  revert s. induction n as [|n IH]; intros [|c s]; simpl; try lia. apply IH.
Qed.

Lemma len_last_n n s : (n <= len s)%nat -> len (last_n n s) = n.
Proof. intros H. unfold last_n. rewrite len_drop. lia. Qed.

Lemma is_ascii_app s1 s2 : is_ascii s1 -> is_ascii s2 -> is_ascii (s1 ++ s2).
Proof.
  unfold is_ascii. induction s1 as [|c s1 IH]; simpl; intros H1 H2; [exact H2|].
  inversion H1; subst. constructor; auto.
Qed.

Lemma is_ascii_join sep l :
  is_ascii sep -> Forall is_ascii l -> is_ascii (join sep l).
Proof.
  intros Hsep. induction 1 as [|x l Hx Hl IH]; simpl.
  - constructor.
  - destruct l as [|y l']; [exact Hx|].
    apply is_ascii_app; [exact Hx|]. apply is_ascii_app; [exact Hsep | exact IH].
Qed.

Lemma encode_ascii_ok s :
  is_ascii s -> encode_ascii s = Ok (map code (list_ascii_of_string s)).
Proof.
  unfold is_ascii. induction s as [|c s IH]; simpl; intros H; [reflexivity|].
  inversion H as [|? ? Hc Hs]; subst.
  destruct (Z.ltb_spec (code c) 128) as [_|Hge]; [|lia].
  now rewrite (IH Hs).
Qed.

Lemma encode_ascii_err s :
  ~ is_ascii s -> encode_ascii s = Err UnicodeEncodeError.
Proof.
  unfold is_ascii. induction s as [|c s IH]; simpl; intros H.
  - exfalso. apply H. constructor.
  - destruct (Z.ltb_spec (code c) 128) as [Hlt|Hge]; [|reflexivity].
    rewrite IH; [reflexivity|]. intros Hs. apply H. now constructor.
Qed.

Lemma leb_cons a s b t :
  String.leb (String a s) (String b t)
  = match N.compare (N_of_ascii a) (N_of_ascii b) with
    | Lt => true
    | Eq => String.leb s t
    | Gt => false
    end.
Proof.
  unfold String.leb. simpl. unfold Ascii.compare.
  destruct (N.compare (N_of_ascii a) (N_of_ascii b)); reflexivity.
Qed.

Lemma leb_nil_l s : String.leb EmptyString s = true.
Proof. destruct s; reflexivity. Qed.

Lemma le_trans a b c : le a b -> le b c -> le a c.
Proof.
  unfold le. revert b c. induction a as [|x a IH]; intros b c Hab Hbc.
  - apply leb_nil_l.
  - destruct b as [|y b]; [discriminate Hab|].
    destruct c as [|z c]; [discriminate Hbc|].
    rewrite leb_cons in *.
    destruct (N.compare_spec (N_of_ascii x) (N_of_ascii y)) as [Exy|Lxy|Gxy];
      destruct (N.compare_spec (N_of_ascii y) (N_of_ascii z)) as [Eyz|Lyz|Gyz];
      try discriminate;
      destruct (N.compare_spec (N_of_ascii x) (N_of_ascii z)) as [Exz|Lxz|Gxz];
      try reflexivity; try lia.
    eapply IH; eassumption.
Qed.

#[local] Instance le_transitive : Transitive le.
Proof. intros a b c. apply le_trans. Qed.

#[local] Instance le_antisym : AntiSymm (=) le.
Proof. intros a b. apply String.leb_antisym. Qed.

Lemma insert_sorted_perm x l : Permutation (insert_sorted x l) (x :: l).
Proof.
  induction l as [|y l IH]; simpl; [reflexivity|].
  destruct (String.leb x y); [reflexivity|].
  rewrite IH. apply perm_swap.
Qed.

Lemma sorted_perm l : Permutation (sorted l) l.
Proof.
  induction l as [|x l IH]; simpl; [reflexivity|].
  rewrite insert_sorted_perm. now constructor.
Qed.

Lemma insert_sorted_Sorted x l : Sorted le l -> Sorted le (insert_sorted x l).
Proof.
  induction 1 as [|y l Hl IH Hy]; simpl.
  - repeat constructor.
  - destruct (String.leb x y) eqn:Hxy.
    + constructor; [constructor; assumption|]. constructor. exact Hxy.
    + constructor; [exact IH|].
      assert (Hyx : le y x).
      { destruct (String.leb_total x y) as [H|H]; [congruence | exact H]. }
      destruct Hy as [|z l' Hyz]; simpl.
      * constructor. exact Hyx.
      * destruct (String.leb x z); constructor; assumption.
Qed.

Lemma sorted_Sorted l : Sorted le (sorted l).
Proof.
  induction l as [|x l IH]; simpl; [constructor|].
  now apply insert_sorted_Sorted.
Qed.

(** [sorted] forgets the order of its argument. *)
Lemma sorted_permutation l1 l2 : Permutation l1 l2 -> sorted l1 = sorted l2.
Proof.
  intros H. apply (Sorted_unique le); try apply sorted_Sorted.
  rewrite !sorted_perm. exact H.
Qed.

Lemma sorted_ascii l : Forall is_ascii l -> Forall is_ascii (sorted l).
Proof.
  intros H. eapply Permutation_Forall; [|exact H].
  symmetry. apply sorted_perm.
Qed.

End PyStrFacts.

Module MD5Facts.
Import MD5 PyStr PyStrFacts.

Lemma len_hex bs : len (hex bs) = (2 * length bs)%nat.
Proof.
  induction bs as [|b bs IH]; [reflexivity|].
  cbn [hex]. rewrite len_app, IH. cbn [hex_byte len length]. lia.
Qed.

(** A hex digest has 32 characters. *)
Lemma len_hexdigest msg : len (hexdigest msg) = 32%nat.
Proof. unfold hexdigest. rewrite len_hex. reflexivity. Qed.

End MD5Facts.

(** ** make_index_name *)

Section IndexName.
Import PyStr PyStrFacts.

Lemma format_index_key_ascii t k fields :
  is_ascii t -> is_ascii k -> Forall is_ascii fields ->
  is_ascii (format_index_key t k fields).
Proof.
  intros Ht Hk Hf. unfold format_index_key.
  assert (Hsp : is_ascii " ") by (repeat constructor).
  assert (Hcs : is_ascii ", ") by (repeat constructor).
  repeat apply is_ascii_app; auto.
  apply is_ascii_join; [exact Hcs|]. now apply sorted_ascii.
Qed.

(** Text that is not ASCII is refused before anything else. *)
Lemma make_index_name_not_ascii t k fields :
  ~ is_ascii (format_index_key t k fields) ->
  make_index_name t k fields = Err UnicodeEncodeError.
Proof. intros H. unfold make_index_name. now rewrite encode_ascii_err. Qed.

(** An empty index kind has no initial. *)
Lemma make_index_name_empty_kind t fields :
  is_ascii t -> Forall is_ascii fields ->
  make_index_name t "" fields = Err IndexError.
Proof.
  intros Ht Hf. unfold make_index_name.
  rewrite encode_ascii_ok; [reflexivity|].
  apply format_index_key_ascii; auto. constructor.
Qed.

End IndexName.

Example md5_empty : MD5.hexdigest [] = "d41d8cd98f00b204e9800998ecf8427e".
Proof. vm_compute. reflexivity. Qed.

Example md5_abc : MD5.hexdigest (bytes_of "abc") = "900150983cd24fb0d6963f7d28e17f72".
Proof. vm_compute. reflexivity. Qed.

Example md5_block_boundaries :
  MD5.hexdigest (repeat 97 119) = "8a7bd0732ed6a28ce75f6dabc90e1613"
  /\ MD5.hexdigest (repeat 97 56) = "3b0c8ac703f828b04c6c197006d17218"
  /\ MD5.hexdigest (repeat 97 64) = "014842d480b571495a4a0363793f7367".
Proof. vm_compute. repeat split. Qed.

Example make_index_name_covid :
  make_index_name "data_covid19_caso_abcdefgh" "order" ["date"; "state"]
  = Ok "idx_covid19_caso_oec436bf3410d".
Proof. vm_compute. reflexivity. Qed.

Example py_string_examples :
  PyStr.replace "data_" "" "dadata_ta_" = "data_"
  /\ PyStr.replace "aa" "" "aaa" = "a"
  /\ PyStr.split " a b " = ["a"; "b"]
  /\ PyStr.split "  " = []
  /\ PyStr.strip "  Name " = "Name"
  /\ PyStr.lower "Name" = "name"
  /\ PyStr.sorted ["b"; "a"; "B"; "-a"; "_a"; "a1"] = ["-a"; "B"; "_a"; "a"; "a1"; "b"].
Proof. vm_compute. repeat split. Qed.

(** C6, as amended: on ASCII text and a non-empty index kind the name is
    "idx_", the truncated table name, an underscore, the first character
    of the kind and the last 12 hexadecimal digits of the MD5 of
    "<table> <kind> <sorted field names joined by comma and space>"; the
    truncated table name is the table name without any "data_", then
    without any "-", cut to 12 characters. The suffix always has 12
    characters and the whole name at most 30. *)
Theorem make_index_name_format (t k : string) (fields : list string) (c : ascii) (k' : string) :
  PyStr.is_ascii t -> PyStr.is_ascii k ->
  Forall PyStr.is_ascii fields -> k = String c k' ->
  let truncated := PyStr.take 12 (PyStr.replace "-" "" (PyStr.replace "data_" "" t)) in
  let suffix :=
    PyStr.last_n 12
      (MD5.hexdigest
         (bytes_of (t ++ " " ++ k ++ " " ++ PyStr.join ", " (PyStr.sorted fields)))) in
  make_index_name t k fields = Ok ("idx_" ++ truncated ++ "_" ++ String c suffix)
  /\ PyStr.len suffix = 12%nat
  /\ (PyStr.len truncated <= 12)%nat
  /\ (PyStr.len ("idx_" ++ truncated ++ "_" ++ String c suffix) <= 30)%nat.
Proof.
  intros Ht Hk Hf -> truncated suffix.
  assert (Hs : PyStr.len suffix = 12%nat).
  { subst suffix. apply PyStrFacts.len_last_n. rewrite MD5Facts.len_hexdigest. lia. }
  assert (Htr : (PyStr.len truncated <= 12)%nat) by apply PyStrFacts.len_take.
  split; [|split; [exact Hs|split; [exact Htr|]]].
  - unfold make_index_name.
    rewrite PyStrFacts.encode_ascii_ok by (now apply format_index_key_ascii).
    reflexivity.
  - rewrite !PyStrFacts.len_app. cbn [PyStr.len]. rewrite Hs. simpl PyStr.len. lia.
Qed.

Lemma make_index_name_format_witness :
  make_index_name "data_covid19_caso_abcdefgh" "order" ["state"; "date"]
  = Ok "idx_covid19_caso_oec436bf3410d".
Proof.
  destruct (make_index_name_format "data_covid19_caso_abcdefgh" "order"
              ["state"; "date"] "o" "rder") as [H _].
  - repeat constructor.
  - repeat constructor.
  - repeat constructor.
  - reflexivity.
  - rewrite H. vm_compute. reflexivity.
Defined.

(** C6, as stated: with the field names joined by a space and no
    underscore before the kind initial the name is another one; an empty
    kind and text outside ASCII give no name at all. *)
Lemma make_index_name_not_as_worded :
  make_index_name "t" "order" ["a"; "b"] = Ok "idx_t_o1a32033c2394"
  /\ spec_index_name "t" "order" ["a"; "b"] = Ok "idx_toc8e07849a7dc"
  /\ make_index_name "t" "" ["a"] = Err IndexError
  /\ make_index_name "t" "order" [String (ascii_of_nat 233) ""] = Err UnicodeEncodeError.
Proof. vm_compute. repeat split. Qed.

(** C7: the name does not depend on the order of the field names; as a
    function, equal arguments give equal names. *)
Theorem make_index_name_permutation (t k : string) (l1 l2 : list string) :
  Permutation l1 l2 -> make_index_name t k l1 = make_index_name t k l2.
Proof.
  intros H. unfold make_index_name, format_index_key.
  now rewrite (PyStrFacts.sorted_permutation l1 l2 H).
Qed.

Lemma make_index_name_permutation_witness :
  make_index_name "data_caso" "filter" ["a"; "b"]
  = make_index_name "data_caso" "filter" ["b"; "a"].
Proof.
  apply (make_index_name_permutation "data_caso" "filter" ["a"; "b"] ["b"; "a"]).
  apply perm_swap.
Defined.

(** ** count *)

(** The exact count: the number of rows of the table that the filter
    keeps, and ProgrammingError when there is no table. *)
Lemma exact_count_unfold {tsvector rank : Type}
    (ts_match : tsvector -> SearchQuery -> bool)
    (ts_rank : tsvector -> SearchQuery -> rank)
    (db : Database tsvector) (qs : QuerySet) :
  exact_count ts_match ts_rank db qs
  = match relations db (db_table (model qs)) with
    | Some rel =>
        Ok (Z.of_nat (length (List.filter (eval_where ts_match (where_ (query qs)))
                                          (rel_rows rel))))
    | None => Err ProgrammingError
    end.
Proof.
  unfold exact_count, selected.
  destruct (relations db (db_table (model qs))) as [rel|]; [|reflexivity].
  now rewrite length_map.
Qed.

(** C3, as amended: on a query set without filter whose count is not
    cached yet, [count] gives what the exact count gives when reading the
    planner statistics raises or when the value read has no integer part
    to take (an infinity, a NaN); when the read gives a number, [count]
    gives that number cut toward zero, whatever it is. On a filtered
    query set it gives what the exact count gives. The exact count is the
    number of rows of the table that the filter keeps; when the table does
    not exist, which is when [pg_class] has no row for it, the exact count
    raises ProgrammingError and so does [count]. A value that is returned
    is cached on the instance; nothing is cached when [count] raises. *)
Theorem count_fallback {tsvector rank : Type}
    (ts_match : tsvector -> SearchQuery -> bool)
    (ts_rank : tsvector -> SearchQuery -> rank)
    (db : Database tsvector) (qs : QuerySet) :
  _count qs = None ->
  let r := count ts_match ts_rank db qs in
  let exact := exact_count ts_match ts_rank db qs in
  let table := relations db (db_table (model qs)) in
  (where_ (query qs) = [] ->
     ((exists e, statistics_error db = Some e) -> r.1 = exact)
     /\ (forall rel, statistics_error db = None -> table = Some rel ->
           (forall e, py_int (rel_reltuples rel) = Err e -> r.1 = exact)
           /\ (forall n, py_int (rel_reltuples rel) = Ok n -> r.1 = Ok n)))
  /\ (where_ (query qs) <> [] -> r.1 = exact)
  /\ (forall rel, table = Some rel ->
        exact = Ok (Z.of_nat (length (List.filter (eval_where ts_match (where_ (query qs)))
                                                  (rel_rows rel)))))
  /\ (table = None -> exact = Err ProgrammingError /\ r.1 = Err ProgrammingError)
  /\ (forall c, r.1 = Ok c -> _count r.2 = Some c)
  /\ (forall e, r.1 = Err e -> r.2 = qs).
Proof.
  intros Hnone r exact table.
  assert (Hr : r = match (if negb (list_truthy (where_ (query qs)))
                          then match read_reltuples db qs with
                               | Ok n => Ok n
                               | Err _ => exact
                               end
                          else exact) with
                   | Ok c => (Ok c, set_count c qs)
                   | Err e => (Err e, qs)
                   end).
  { subst r. unfold count. now rewrite Hnone. }
  assert (Hfst : r.1 = if negb (list_truthy (where_ (query qs)))
                       then match read_reltuples db qs with
                            | Ok n => Ok n
                            | Err _ => exact
                            end
                       else exact).
  { rewrite Hr. now destruct (if negb _ then _ else _). }
  split; [|split; [|split; [|split; [|split]]]].
  - intros Hw. rewrite Hfst, Hw. cbn [list_truthy negb]. unfold read_reltuples. split.
    + intros [e ->]. reflexivity.
    + intros rel -> Hrel. fold table. rewrite Hrel. split.
      * intros e ->. reflexivity.
      * intros n ->. reflexivity.
  - intros Hw. rewrite Hfst. destruct (where_ (query qs)); [congruence|reflexivity].
  - intros rel Hrel. subst exact. rewrite exact_count_unfold. fold table. now rewrite Hrel.
  - intros Htable.
    assert (He : exact = Err ProgrammingError).
    { subst exact. rewrite exact_count_unfold. fold table. now rewrite Htable. }
    split; [exact He|]. rewrite Hfst.
    destruct (negb _); [|exact He]. unfold read_reltuples. fold table. rewrite Htable.
    now destruct (statistics_error db).
  - intros c Hc. rewrite Hr in Hc |- *.
    destruct (if negb _ then _ else _) as [c'|e]; cbn [fst snd] in *; [|discriminate].
    now injection Hc as ->.
  - intros e He. rewrite Hr in He |- *.
    destruct (if negb _ then _ else _) as [c'|e']; cbn [fst snd] in *; [discriminate|].
    reflexivity.
Qed.

Lemma count_fallback_witness :
  (count sample_match sample_rank sample_db_no_statistics sample_qs).1 = Ok 3
  /\ (count sample_match sample_rank sample_db_nan sample_qs).1 = Ok 3.
Proof.
  split.
  - destruct (count_fallback sample_match sample_rank sample_db_no_statistics sample_qs)
      as (H & _).
    + reflexivity.
    + destruct (H eq_refl) as [H1 _]. rewrite H1.
      * vm_compute. reflexivity.
      * exists ProgrammingError. reflexivity.
  - destruct (count_fallback sample_match sample_rank sample_db_nan sample_qs)
      as (H & _).
    + reflexivity.
    + destruct (H eq_refl) as [_ H2].
      destruct (H2 {| rel_rows := sample_rows; rel_reltuples := NaN |} eq_refl eq_refl)
        as [H3 _].
      rewrite (H3 ValueError eq_refl). vm_compute. reflexivity.
Defined.

(** C3, as stated: statistics of -1 are returned as they are, while the
    table has three rows. *)
Lemma count_returns_minus_one :
  where_ (query sample_qs) = []
  /\ statistics_error sample_db = None
  /\ rel_reltuples <$> relations sample_db (db_table (model sample_qs))
     = Some (Finite (-1) 0)
  /\ (count sample_match sample_rank sample_db sample_qs).1 = Ok (-1)
  /\ exact_count sample_match sample_rank sample_db sample_qs = Ok 3.
Proof. vm_compute. repeat split. Qed.

(** Without the table, the count raises, filtered or not, whether the
    statistics can be read or not. *)
Example count_without_table :
  count sample_match sample_rank sample_db_empty sample_qs = (Err ProgrammingError, sample_qs).
Proof. vm_compute. reflexivity. Qed.

(** A cached count is returned without any read. *)
Lemma count_cached {tsvector rank : Type}
    (ts_match : tsvector -> SearchQuery -> bool)
    (ts_rank : tsvector -> SearchQuery -> rank)
    (db : Database tsvector) (qs : QuerySet) (c : Z) :
  _count qs = Some c -> count ts_match ts_rank db qs = (Ok c, qs).
Proof. intros H. unfold count. now rewrite H. Qed.

(** ** search *)

Lemma terms_not_nil q : terms q <> [].
Proof.
  induction q as [w c|a IHa b IHb]; simpl; [discriminate|].
  destruct (terms a); [congruence | discriminate].
Qed.

Lemma fold_search_step_terms config words q0 :
  opt_terms (fold_left (search_step config) words q0)
  = (opt_terms q0 ++ map (fun w => (w, config)) (List.filter str_truthy words))%list.
Proof.
  revert q0. induction words as [|w words IH]; intros q0; simpl.
  - now rewrite app_nil_r.
  - rewrite IH. unfold search_step. destruct (str_truthy w); simpl; [|reflexivity].
    destruct q0 as [q|]; simpl; [|reflexivity].
    now rewrite <- app_assoc.
Qed.

Lemma build_query_terms config words :
  opt_terms (build_query config words)
  = map (fun w => (w, config)) (List.filter str_truthy words).
Proof. unfold build_query. now rewrite fold_search_step_terms. Qed.

Lemma filter_Permutation_bool {A} (f : A -> bool) l1 l2 :
  Permutation l1 l2 -> Permutation (List.filter f l1) (List.filter f l2).
Proof.
  induction 1 as [|x l1 l2 H IH|x y l|l1 l2 l3 H12 IH12 H23 IH23]; simpl.
  - constructor.
  - destruct (f x); [now constructor | exact IH].
  - destruct (f x), (f y); try reflexivity. apply perm_swap.
  - now transitivity (List.filter f l2).
Qed.

Lemma forallb_Permutation {A} (f : A -> bool) l1 l2 :
  Permutation l1 l2 -> forallb f l1 = forallb f l2.
Proof.
  induction 1 as [|x l1 l2 H IH|x y l|l1 l2 l3 H12 IH12 H23 IH23]; simpl.
  - reflexivity.
  - now rewrite IH.
  - destruct (f x), (f y); reflexivity.
  - congruence.
Qed.

Lemma list_truthy_Permutation {A} (l1 l2 : list A) :
  Permutation l1 l2 -> list_truthy l1 = list_truthy l2.
Proof.
  intros H. destruct l1 as [|x l1], l2 as [|y l2]; try reflexivity.
  - now apply Permutation_nil in H.
  - now apply Permutation_sym, Permutation_nil in H.
Qed.

Section SearchFacts.

Variable set_iter : list string -> list string.
Hypothesis set_iter_In : forall l x, In x (set_iter l) <-> In x l.
Hypothesis set_iter_NoDup : forall l, NoDup (set_iter l).

Context {tsvector rank : Type}.
Variable ts_match : tsvector -> SearchQuery -> bool.
Variable ts_rank : tsvector -> SearchQuery -> rank.
Hypothesis ts_match_Permutation :
  forall v q q', Permutation (terms q) (terms q') -> ts_match v q = ts_match v q'.
Hypothesis ts_rank_Permutation :
  forall v q q', Permutation (terms q) (terms q') -> ts_rank v q = ts_rank v q'.

Lemma set_iter_nil : set_iter [] = [].
Proof.
  destruct (set_iter []) as [|x l] eqn:E; [reflexivity|].
  exfalso. apply (proj1 (set_iter_In [] x)). rewrite E. now left.
Qed.

(** An empty query, or a model without search fields: nothing is done. *)
Lemma search_empty_query qs : search set_iter "" qs = qs.
Proof. reflexivity. Qed.

Lemma search_no_search_fields q qs :
  extra_search (extra (model qs)) = [] -> search set_iter q qs = qs.
Proof. intros H. unfold search. rewrite H. now rewrite andb_false_r. Qed.

(** A query of blanks only is not empty: the rank and the filter are set
    up on the None that the loop leaves. *)
Lemma search_blank q qs :
  str_truthy q = true -> PyStr.split q = [] ->
  list_truthy (extra_search (extra (model qs))) = true ->
  search set_iter q qs
  = extend_order_by ["-search_rank"]
      (filter_ (SearchDataExact None)
         (annotate "search_rank" (SearchRank "search_data" None) qs)).
Proof.
  intros Hq Hs Hf. unfold search. rewrite Hq, Hf, Hs, set_iter_nil. reflexivity.
Qed.

Lemma set_iter_Permutation l1 l2 :
  (forall w, In w l1 <-> In w l2) -> Permutation (set_iter l1) (set_iter l2).
Proof.
  intros H. apply NoDup_Permutation; try apply set_iter_NoDup.
  intros x. rewrite !list_elem_of_In, !set_iter_In. apply H.
Qed.

Lemma build_query_Permutation config l1 l2 :
  Permutation l1 l2 ->
  Permutation (opt_terms (build_query config l1)) (opt_terms (build_query config l2)).
Proof.
  intros H. rewrite !build_query_terms.
  apply Permutation_map. now apply filter_Permutation_bool.
Qed.

Lemma eval_lookup_search_data q q' r :
  Permutation (opt_terms q) (opt_terms q') ->
  eval_lookup ts_match (SearchDataExact q) r = eval_lookup ts_match (SearchDataExact q') r
  /\ forall field, eval_annotation ts_rank (SearchRank field q) r
                   = eval_annotation ts_rank (SearchRank field q') r.
Proof.
  intros H. destruct q as [a|], q' as [b|]; simpl in *.
  - split.
    + destruct (search_data r) as [v|]; [|reflexivity].
      now apply ts_match_Permutation.
    + intros _. destruct (search_data r) as [v|]; [|reflexivity].
      simpl. now rewrite (ts_rank_Permutation v a b H).
  - apply Permutation_sym, Permutation_nil in H. now apply terms_not_nil in H.
  - apply Permutation_nil in H. now apply terms_not_nil in H.
  - split; reflexivity.
Qed.

(** Two queries that are both empty or both not, with the same set of
    words: the same rows, the same ranks, the same ordering names, for a
    storage engine that takes no account of the order of the conjuncts. *)
Lemma search_collapses_duplicates q1 q2 qs db :
  str_truthy q1 = str_truthy q2 ->
  (forall w, In w (PyStr.split q1) <-> In w (PyStr.split q2)) ->
  selected ts_match ts_rank db (search set_iter q1 qs)
  = selected ts_match ts_rank db (search set_iter q2 qs)
  /\ order_by (query (search set_iter q1 qs)) = order_by (query (search set_iter q2 qs)).
Proof.
  intros Hq Hw. unfold search. rewrite <- Hq.
  destruct (str_truthy q1 && list_truthy (extra_search (extra (model qs))));
    [|split; reflexivity].
  split; [|reflexivity].
  pose proof (build_query_Permutation "pg_catalog.portuguese" _ _
                (set_iter_Permutation _ _ Hw)) as HP.
  fold (build_query "pg_catalog.portuguese" (set_iter (PyStr.split q1))).
  fold (build_query "pg_catalog.portuguese" (set_iter (PyStr.split q2))).
  set (b1 := build_query _ (set_iter (PyStr.split q1))) in *.
  set (b2 := build_query _ (set_iter (PyStr.split q2))) in *.
  unfold selected. cbn.
  destruct (relations db (db_table (model qs))) as [rel|]; [|reflexivity]. f_equal.
  rewrite (filter_ext _ (eval_where ts_match (where_ (query qs) ++ [SearchDataExact b2]))).
  - apply map_ext. intros r. f_equal. rewrite !map_app. f_equal.
    cbn [map fst snd].
    now rewrite (proj2 (eval_lookup_search_data b1 b2 r HP) "search_data").
  - intros r. unfold eval_where. rewrite !forallb_app. f_equal.
    cbn [forallb].
    now rewrite (proj1 (eval_lookup_search_data b1 b2 r HP)).
Qed.

End SearchFacts.

Lemma first_seen_In l x : In x (first_seen l) <-> In x l.
Proof. unfold first_seen. rewrite <- !list_elem_of_In. apply elem_of_remove_dups. Qed.

Lemma first_seen_NoDup l : NoDup (first_seen l).
Proof. apply NoDup_remove_dups. Qed.

Lemma sample_rank_Permutation v q q' :
  Permutation (terms q) (terms q') -> sample_rank v q = sample_rank v q'.
Proof. intros H. unfold sample_rank. now rewrite (Permutation_length H). Qed.

Lemma sample_match_Permutation v q q' :
  Permutation (terms q) (terms q') -> sample_match v q = sample_match v q'.
Proof.
  intros H. unfold sample_match.
  assert (HP : Permutation (sample_lexemes q) (sample_lexemes q')).
  { unfold sample_lexemes. apply filter_Permutation_bool. now apply Permutation_map. }
  now rewrite (list_truthy_Permutation _ _ HP), (forallb_Permutation _ _ _ HP).
Qed.

(** The specification's two queries select the same rows with the same
    ranks. *)
Example search_rio_de_janeiro :
  selected sample_match sample_rank sample_db (search first_seen "rio rio de janeiro" sample_qs)
  = selected sample_match sample_rank sample_db (search first_seen "rio de janeiro" sample_qs)
  /\ selected sample_match sample_rank sample_db (search first_seen "rio de janeiro" sample_qs)
     = Ok [ (sample_row "rio de janeiro" (Some ["rio"; "janeiro"]),
             [("search_rank", Some 3)]) ].
Proof.
  split.
  - apply (search_collapses_duplicates first_seen first_seen_In first_seen_NoDup
             sample_match sample_rank sample_match_Permutation sample_rank_Permutation).
    + reflexivity.
    + intros w. vm_compute. tauto.
  - vm_compute. reflexivity.
Qed.

(** In the sample engine, as in PostgreSQL, a stop word next to another
    word is dropped from the query, and alone it matches no row. *)
Example search_stop_word :
  selected sample_match sample_rank sample_db (search first_seen "rio de" sample_qs)
  = Ok [ (sample_row "rio de janeiro" (Some ["rio"; "janeiro"]), [("search_rank", Some 2)]);
         (sample_row "rio branco" (Some ["rio"; "branco"]), [("search_rank", Some 2)]) ]
  /\ selected sample_match sample_rank sample_db (search first_seen "de" sample_qs) = Ok [].
Proof. vm_compute. split; reflexivity. Qed.

(** C4, at a query of three spaces on a model with a search field: the
    split gives no word, and yet the query set comes back with a filter
    of [search_data] against None, a rank annotation and the rank as
    ordering name; it selects no row of a table whose rows all have their
    search vector. *)
Theorem search_blank_query_filters :
  PyStr.split "   " = []
  /\ query (search first_seen "   " sample_qs)
     = {| where_ := [SearchDataExact None];
          annotations := [("search_rank", SearchRank "search_data" None)];
          order_by := ["-search_rank"] |}
  /\ selected sample_match sample_rank sample_db (search first_seen "   " sample_qs) = Ok []
  /\ (exists rows, selected sample_match sample_rank sample_db sample_qs = Ok rows
                   /\ length rows = 3%nat).
Proof.
  split; [vm_compute; reflexivity|]. split; [vm_compute; reflexivity|].
  split; [vm_compute; reflexivity|]. eexists. split; vm_compute; reflexivity.
Qed.

(** C9, at the empty query and a query of three spaces: the same (empty)
    set of words, the first selects the three rows and the second none. *)
Theorem search_same_words_other_rows :
  PyStr.split "" = PyStr.split "   "
  /\ search first_seen "" sample_qs = sample_qs
  /\ (exists rows,
        selected sample_match sample_rank sample_db (search first_seen "" sample_qs) = Ok rows
        /\ length rows = 3%nat)
  /\ selected sample_match sample_rank sample_db (search first_seen "   " sample_qs) = Ok [].
Proof.
  split; [vm_compute; reflexivity|]. split; [vm_compute; reflexivity|].
  split; [|vm_compute; reflexivity]. eexists. split; vm_compute; reflexivity.
Qed.

(** ** apply_ordering *)

Lemma str_in_In x l : str_in x l = true <-> In x l.
Proof.
  unfold str_in. rewrite existsb_exists. split.
  - intros (y & Hy & E). apply String.eqb_eq in E. now subst.
  - intros H. exists x. split; [exact H | apply String.eqb_refl].
Qed.

Lemma str_in_ext x l1 l2 :
  (forall y, In y l1 <-> In y l2) -> str_in x l1 = str_in x l2.
Proof.
  intros H. apply eq_true_iff_eq. rewrite !str_in_In. apply H.
Qed.

Section OrderingFacts.

Variable set_iter : list string -> list string.
Variable order_item_valid : QuerySet -> string -> bool.
Hypothesis set_iter_In : forall l x, In x (set_iter l) <-> In x l.

(** The whitelist does not depend on the order in which the set of
    declared names is visited. *)
Lemma clean_allowed_In (declared : list string) x :
  str_in x (map clean_name (set_iter declared)) = str_in x (map clean_name declared).
Proof.
  apply str_in_ext. intros y. rewrite !in_map_iff.
  split; intros (a & Ha & Hin); exists a; (split; [exact Ha|]);
    now apply set_iter_In.
Qed.

Lemma apply_ordering_unfold requested qs :
  let declared := (extra_ordering (extra (model qs)) ++ extra_filtering (extra (model qs)))%list in
  let kept := List.filter
                (fun f => str_in (PyStr.replace "-" "" f) (map clean_name declared))
                requested in
  apply_ordering set_iter order_item_valid requested qs
  = if list_truthy kept then add_ordering order_item_valid kept qs
    else if list_truthy (extra_ordering (extra (model qs)))
         then add_ordering order_item_valid (extra_ordering (extra (model qs))) qs
         else Ok qs.
Proof.
  intros declared kept. unfold apply_ordering.
  fold declared. change (fun field => PyStr.lower (PyStr.strip (PyStr.replace "-" "" field)))
    with clean_name.
  rewrite (filter_ext _ (fun f => str_in (PyStr.replace "-" "" f) (map clean_name declared)))
    by (intros f; apply clean_allowed_In).
  reflexivity.
Qed.

Lemma extend_order_by_nil qs : extend_order_by [] qs = qs.
Proof.
  destruct qs as [m [w a o] c]. unfold extend_order_by. cbn. now rewrite app_nil_r.
Qed.

(** The names given to [add_ordering] decide what [apply_ordering]
    gives. *)
Lemma apply_ordering_cases requested qs :
  let declared := (extra_ordering (extra (model qs)) ++ extra_filtering (extra (model qs)))%list in
  let kept := List.filter
                (fun f => str_in (PyStr.replace "-" "" f) (map clean_name declared))
                requested in
  let names := if list_truthy kept then kept else extra_ordering (extra (model qs)) in
  apply_ordering set_iter order_item_valid requested qs
  = if forallb (order_item_valid qs) names then Ok (extend_order_by names qs)
    else Err FieldError.
Proof.
  intros declared kept names. rewrite apply_ordering_unfold. fold declared. fold kept.
  subst names. unfold add_ordering. destruct (list_truthy kept); [reflexivity|].
  destruct (extra_ordering (extra (model qs))) as [|o os]; [|reflexivity].
  cbn [list_truthy forallb]. now rewrite extend_order_by_nil.
Qed.

(** When the declared names are in normal form already and a requested
    name has no hyphen but its sign, the code keeps what the
    specification's wording keeps. *)
Lemma apply_ordering_as_worded requested qs qs' :
  (forall a, In a (extra_ordering (extra (model qs)) ++ extra_filtering (extra (model qs)))%list ->
             clean_name a = a) ->
  (forall f, In f requested -> PyStr.replace "-" "" f = base_name f) ->
  apply_ordering set_iter order_item_valid requested qs = Ok qs' ->
  qs' = spec_apply_ordering requested qs.
Proof.
  intros Hd Hr. rewrite apply_ordering_unfold. unfold spec_apply_ordering.
  set (declared := (extra_ordering (extra (model qs)) ++ extra_filtering (extra (model qs)))%list) in *.
  rewrite (map_ext_in clean_name (fun a => a) declared Hd), map_id.
  assert (E : List.filter (fun f => str_in (PyStr.replace "-" "" f) declared) requested
              = List.filter (fun f => str_in (base_name f) declared) requested).
  { apply filter_ext_in. intros f Hf. now rewrite (Hr f Hf). }
  rewrite E. unfold add_ordering.
  destruct (list_truthy _).
  - destruct (forallb _ _); [|discriminate]. now intros [= <-].
  - destruct (list_truthy _).
    + destruct (forallb _ _); [|discriminate]. now intros [= <-].
    + now intros [= <-].
Qed.

End OrderingFacts.

(** C8, as amended: a requested name is kept when, all its hyphens
    removed, it equals a declared ordering or filtering name put in
    normal form (hyphens removed, blanks trimmed, lower case); the names
    kept stay in the order of the request. The names kept or, when none
    is kept, the names of the declared default ordering are given to
    [add_ordering] of Django: when it accepts them all, they are appended
    to the ordering the query has and nothing else of the query set
    changes; when it refuses one, [apply_ordering] raises FieldError. *)
Theorem apply_ordering_whitelist (set_iter : list string -> list string)
    (order_item_valid : QuerySet -> string -> bool)
    (requested : list string) (qs : QuerySet) :
  (forall l x, In x (set_iter l) <-> In x l) ->
  let declared := (extra_ordering (extra (model qs)) ++ extra_filtering (extra (model qs)))%list in
  let kept := List.filter
                (fun f => str_in (PyStr.replace "-" "" f) (map clean_name declared))
                requested in
  let names := if list_truthy kept then kept else extra_ordering (extra (model qs)) in
  (forall f, In f kept <->
             In f requested
             /\ exists a, In a declared /\ PyStr.replace "-" "" f = clean_name a)
  /\ (forallb (order_item_valid qs) names = true ->
        exists qs',
          apply_ordering set_iter order_item_valid requested qs = Ok qs'
          /\ order_by (query qs') = (order_by (query qs) ++ names)%list
          /\ where_ (query qs') = where_ (query qs)
          /\ annotations (query qs') = annotations (query qs)
          /\ model qs' = model qs
          /\ _count qs' = _count qs)
  /\ (forallb (order_item_valid qs) names = false ->
        apply_ordering set_iter order_item_valid requested qs = Err FieldError).
Proof.
  intros Hset declared kept names. split; [|split].
  - intros f. unfold kept. rewrite filter_In, str_in_In, in_map_iff.
    split.
    + intros (Hf & a & Ha & Hin). split; [exact Hf|]. exists a. now split.
    + intros (Hf & a & Hin & Ha). split; [exact Hf|]. exists a. now split.
  - intros Hv. rewrite (apply_ordering_cases set_iter order_item_valid Hset).
    fold declared. fold kept. fold names. rewrite Hv.
    eexists. split; [reflexivity|]. repeat split.
  - intros Hv. rewrite (apply_ordering_cases set_iter order_item_valid Hset).
    fold declared. fold kept. fold names. now rewrite Hv.
Qed.

Lemma apply_ordering_whitelist_witness :
  exists qs',
    apply_ordering first_seen order_pattern_match ["-age"; "password"]
      (extend_order_by ["-search_rank"] sample_qs) = Ok qs'
    /\ order_by (query qs') = ["-search_rank"; "-age"].
Proof.
  destruct (apply_ordering_whitelist first_seen order_pattern_match ["-age"; "password"]
              (extend_order_by ["-search_rank"] sample_qs) first_seen_In)
    as (_ & H & _).
  destruct H as (qs' & E & O & _); [vm_compute; reflexivity|].
  exists qs'. split; [exact E|]. rewrite O. vm_compute. reflexivity.
Defined.

(** The fallback the specification names. *)
Example apply_ordering_fallback :
  apply_ordering first_seen order_pattern_match [] sample_qs
  = Ok (extend_order_by ["name"] sample_qs).
Proof. vm_compute. reflexivity. Qed.

(** A name with a hyphen inside passes the whitelist for the declared
    "name", and the check of Django 3.0 refuses it. *)
Example apply_ordering_refused_name :
  apply_ordering first_seen order_pattern_match ["na-me"] sample_qs = Err FieldError
  /\ apply_ordering first_seen order_pattern_match ["--name"] sample_qs = Err FieldError.
Proof. vm_compute. split; reflexivity. Qed.

(** C8, as stated: the declared filtering name "Age" is not found by the
    request "-Age", whose base name it is, and the default ordering is
    applied instead. *)
Lemma apply_ordering_not_as_worded :
  apply_ordering first_seen order_pattern_match ["-Age"] sample_qs
  = Ok (extend_order_by ["name"] sample_qs)
  /\ spec_apply_ordering ["-Age"] sample_qs = extend_order_by ["-Age"] sample_qs
  /\ order_by (query (extend_order_by ["name"] sample_qs)) = ["name"]
  /\ order_by (query (extend_order_by ["-Age"] sample_qs)) = ["-Age"].
Proof. vm_compute. repeat split. Qed.

(** ** DataTable generations *)

Lemma elem_of_active_generations t s i :
  i ∈ active_generations t s
  <-> exists v, data_tables s !! i = Some v
                /\ stored_table v = Some t /\ stored_active v = true.
Proof.
  unfold active_generations, active_, for_table. rewrite elem_of_dom. split.
  - intros [v Hv]. apply map_lookup_filter_Some in Hv as [Hv Ha].
    apply map_lookup_filter_Some in Hv as [Hv Ht]. eauto.
  - intros (v & Hv & Ht & Ha). exists v.
    apply map_lookup_filter_Some. split; [|exact Ha].
    apply map_lookup_filter_Some. split; [exact Hv | exact Ht].
Qed.

Lemma newer_spec (b : option (Z * Stored)) (x : Z * Stored) :
  exists c, newer b x = Some c
            /\ (c = x \/ b = Some c)
            /\ stored_created_at x.2 <= stored_created_at c.2
            /\ (forall b0, b = Some b0 -> stored_created_at b0.2 <= stored_created_at c.2).
Proof.
  unfold newer. destruct b as [b0|].
  - destruct (Z.ltb_spec (stored_created_at b0.2) (stored_created_at x.2)) as [Hlt|Hge].
    + exists x. split; [reflexivity|]. split; [now left|]. split; [lia|].
      intros ? [= <-]. lia.
    + exists b0. split; [reflexivity|]. split; [now right|]. split; [lia|].
      intros ? [= <-]. lia.
  - exists x. split; [reflexivity|]. split; [now left|]. split; [lia | discriminate].
Qed.

Lemma fold_newer_spec (l : list (Z * Stored)) (b : option (Z * Stored)) :
  match fold_left newer l b with
  | None => b = None /\ l = []
  | Some kv =>
      (b = Some kv \/ kv ∈ l)
      /\ (forall kv', b = Some kv' \/ kv' ∈ l ->
                      stored_created_at kv'.2 <= stored_created_at kv.2)
  end.
Proof.
  revert b. induction l as [|x l IH]; intros b; simpl.
  - destruct b as [kv|]; [|auto]. split; [now left|].
    intros kv' [E|E]; [injection E as ->; lia | now apply elem_of_nil in E].
  - specialize (IH (newer b x)).
    destruct (newer_spec b x) as (c & Hc & Hsrc & Hx & Hb).
    revert IH. rewrite Hc.
    destruct (fold_left newer l (Some c)) as [kv|]; intros IH.
    + destruct IH as [Hin Hmax]. split.
      * destruct Hin as [E|E]; [injection E as <- | right; now right].
        destruct Hsrc as [ -> | -> ]; [right; now left | now left].
      * assert (Hckv : stored_created_at c.2 <= stored_created_at kv.2)
          by (apply Hmax; now left).
        intros kv' [E|E].
        -- specialize (Hb kv' E). lia.
        -- apply elem_of_cons in E as [ -> | E ]; [lia|]. apply Hmax. now right.
    + destruct IH as [E _]. discriminate.
Qed.

Lemma most_recent_None (m : gmap Z Stored) : most_recent m = None <-> m = ∅.
Proof.
  unfold most_recent. pose proof (fold_newer_spec (map_to_list m) None) as H.
  destruct (fold_left newer (map_to_list m) None) as [kv|]; simpl.
  - split; [discriminate|]. intros ->. destruct H as [[E|E] _]; [discriminate|].
    rewrite map_to_list_empty in E. now apply elem_of_nil in E.
  - split; [|reflexivity]. intros _. now apply map_to_list_empty_iff.
Qed.

Lemma most_recent_Some (m : gmap Z Stored) (d : DataTable) :
  most_recent m = Some d ->
  exists k v, d = load (k, v) /\ m !! k = Some v
              /\ forall k' v', m !! k' = Some v' ->
                               stored_created_at v' <= stored_created_at v.
Proof.
  unfold most_recent. pose proof (fold_newer_spec (map_to_list m) None) as H.
  destruct (fold_left newer (map_to_list m) None) as [[k v]|]; simpl; [|discriminate].
  intros [= <-]. destruct H as [[E|E] Hmax]; [discriminate|].
  exists k, v. split; [reflexivity|]. split; [now apply elem_of_map_to_list|].
  intros k' v' H'. apply (Hmax (k', v')). right. now apply elem_of_map_to_list.
Qed.

Lemma set_id_same (self : DataTable) (i : Z) : id self = Some i -> set_id i self = self.
Proof. destruct self; simpl; now intros ->. Qed.

Lemma difference_absent (X : gset string) (x : string) : x ∉ X -> X ∖ {[x]} = X.
Proof.
  intros H. apply set_eq. intros y. rewrite elem_of_difference, elem_of_singleton.
  split; [tauto|]. intros Hy. split; [exact Hy|]. intros ->. contradiction.
Qed.

(** The model of a generation bears the physical name of the generation,
    and is a matter of that name and the table alone. *)
Lemma get_model_db_table (env : Env) (t : Z) (d : DataTable) (Model : ModelClass) :
  get_model env t d = Ok Model -> db_table (dynamic_model Model) = db_table_name d.
Proof.
  unfold get_model, and_then.
  destruct (field_classes env _); [|discriminate].
  destruct (get_model_indexes _ _ _ _); [|discriminate].
  destruct (if _ && _ then _ else _) as [mixins objects].
  destruct (create_model_class env _ _ _ _ _); [|discriminate].
  now intros [= <-].
Qed.

Lemma get_model_same_name (env : Env) (t : Z) (d d' : DataTable) :
  db_table_name d = db_table_name d' -> get_model env t d = get_model env t d'.
Proof. intros H. unfold get_model. now rewrite H. Qed.

Lemma load_stored_of (g : DataTable) (i : Z) : id g = Some i -> load (i, stored_of g) = g.
Proof. destruct g; simpl; now intros ->. Qed.

Lemma drop_error_None (env : Env) (t : Z) (d : DataTable) (drop : bool) :
  drop_error env t d drop = None <-> (drop = true -> exists Model, get_model env t d = Ok Model).
Proof.
  unfold drop_error. destruct drop.
  - destruct (get_model env t d) as [Model|e]; split.
    + eauto.
    + reflexivity.
    + discriminate.
    + intros H. destruct (H eq_refl) as [Model HM]. discriminate HM.
  - split; [discriminate | reflexivity].
Qed.

Lemma drop_error_Some (env : Env) (t : Z) (d : DataTable) (drop : bool) (e : exn) :
  drop_error env t d drop = Some e <-> drop = true /\ get_model env t d = Err e.
Proof.
  unfold drop_error. destruct drop.
  - destruct (get_model env t d) as [Model|e']; split.
    + discriminate.
    + intros [_ H]. discriminate H.
    + intros [= ->]. now split.
    + now intros [_ [= ->]].
  - split; [discriminate|]. now intros [H _].
Qed.

(** [delete_data_table] on a generation that has its table: what
    [get_model] raises, or no physical table of that name any more. *)
Lemma delete_data_table_spec (env : Env) (self : DataTable) (s : Store) (t : Z) :
  table self = Some t ->
  delete_data_table env self s
  = match get_model env t self with
    | Ok _ => (Ok tt, {| data_tables := data_tables s;
                         physical := physical s ∖ {[db_table_name self]} |})
    | Err e => (Err e, s)
    end.
Proof.
  intros Ht. unfold delete_data_table, bind, table_of. rewrite Ht. unfold ret.
  destruct (get_model env t self) as [Model|e] eqn:E; [|reflexivity].
  unfold ignore_programming_error, delete_table.
  rewrite (get_model_db_table env t self Model E).
  destruct (decide (db_table_name self ∈ physical s)) as [Hin|Hout]; [reflexivity|].
  rewrite (difference_absent _ _ Hout). now destruct s.
Qed.

(** The plain state change of [deactivate], on an instance that is saved
    and has its table: when the drop raises, the deactivation is saved
    already. *)
Lemma plain_deactivation (env : Env) (self : DataTable) (drop : bool) (s : Store) (i t : Z) :
  id self = Some i -> table self = Some t ->
  (self' <- save (set_active false self) ;;
   if drop then delete_data_table env self' ;;; ret self' else ret self') s
  = match drop_error env t self drop with
    | Some e =>
        (Err e, {| data_tables := <[i := stored_of (set_active false self)]> (data_tables s);
                   physical := physical s |})
    | None =>
        (Ok (set_active false self),
         {| data_tables := <[i := stored_of (set_active false self)]> (data_tables s);
            physical := if drop then physical s ∖ {[db_table_name self]} else physical s |})
    end.
Proof.
  intros Hi Ht. unfold bind at 1. unfold save. cbn [id set_active]. rewrite Hi.
  rewrite (set_id_same (set_active false self) i) by exact Hi.
  unfold drop_error. destruct drop; [|reflexivity].
  unfold bind. rewrite (delete_data_table_spec env (set_active false self) _ t Ht).
  change (get_model env t (set_active false self)) with (get_model env t self).
  destruct (get_model env t self) as [Model|e]; reflexivity.
Qed.

(** [deactivate] without [activate_most_recent] is the plain state
    change, at any depth of calls left, or nothing at all when the drop
    raises. *)
Lemma deactivate_n_plain (env : Env) (n : nat) (self : DataTable) (drop : bool)
    (s : Store) (i t : Z) :
  id self = Some i -> table self = Some t ->
  deactivate_n env (S n) self drop false s
  = match drop_error env t self drop with
    | Some e => (Err e, s)
    | None =>
        (Ok (set_active false self),
         {| data_tables := <[i := stored_of (set_active false self)]> (data_tables s);
            physical := if drop then physical s ∖ {[db_table_name self]} else physical s |})
    end.
Proof.
  intros Hi Ht. cbn [deactivate_n]. unfold deactivate_body, atomic. cbn [andb].
  rewrite (plain_deactivation env self drop s i t Hi Ht).
  now destruct (drop_error env t self drop).
Qed.

Lemma active_generations_insert_active (t i : Z) (v : Stored) (s1 : Store) (p : gset string) :
  stored_table v = Some t -> stored_active v = true ->
  active_generations t s1 = ∅ ->
  active_generations t {| data_tables := <[i := v]> (data_tables s1); physical := p |} = {[i]}.
Proof.
  intros Ht Ha Hnone. apply set_eq. intros j.
  rewrite elem_of_active_generations, elem_of_singleton. cbn [data_tables]. split.
  - intros (v' & Hv' & Ht' & Ha'). destruct (decide (i = j)) as [->|Hne]; [reflexivity|].
    rewrite lookup_insert_ne in Hv' by exact Hne.
    assert (Hj : j ∈ active_generations t s1)
      by (apply elem_of_active_generations; eauto).
    rewrite Hnone in Hj. now apply not_elem_of_empty in Hj.
  - intros ->. exists v. now rewrite lookup_insert_eq.
Qed.

Lemma active_generations_deactivate (t k : Z) (v : Stored) (s : Store) (p : gset string) :
  at_most_one_active t s ->
  data_tables s !! k = Some v -> stored_table v = Some t -> stored_active v = true ->
  active_generations t
    {| data_tables := <[k := set_stored_active false v]> (data_tables s); physical := p |} = ∅.
Proof.
  intros Hone Hk Ht Ha. apply set_eq. intros j.
  rewrite elem_of_active_generations. cbn [data_tables]. split.
  - intros (v' & Hv' & Ht' & Ha'). destruct (decide (k = j)) as [->|Hne].
    + rewrite lookup_insert_eq in Hv'. injection Hv' as <-. discriminate Ha'.
    + rewrite lookup_insert_ne in Hv' by exact Hne.
      exfalso. apply Hne. apply Hone; apply elem_of_active_generations; eauto.
  - intros H. now apply not_elem_of_empty in H.
Qed.

Lemma get_current_active_None (t : Z) (s : Store) :
  get_current_active (for_table t (data_tables s)) = None -> active_generations t s = ∅.
Proof.
  unfold get_current_active, active_generations. intros H.
  apply most_recent_None in H. rewrite H. apply dom_empty_L.
Qed.

Lemma get_current_active_Some (t : Z) (s : Store) (d : DataTable) :
  get_current_active (for_table t (data_tables s)) = Some d ->
  exists k v, d = load (k, v) /\ data_tables s !! k = Some v
              /\ stored_table v = Some t /\ stored_active v = true.
Proof.
  unfold get_current_active. intros H.
  apply most_recent_Some in H as (k & v & -> & Hk & _).
  assert (Hin : k ∈ active_generations t s)
    by (unfold active_generations; apply elem_of_dom; eauto).
  apply elem_of_active_generations in Hin as (v' & Hv' & Ht & Ha).
  unfold active_, for_table in Hk.
  apply map_lookup_filter_Some in Hk as [Hk _].
  apply map_lookup_filter_Some in Hk as [Hk _].
  rewrite Hk in Hv'. injection Hv' as <-. eauto 6.
Qed.

(** What [activate] does on a generation that has its table, whatever
    the store is, at any depth of calls left of two or more: it returns,
    or the drop of the table of the generation that was active raises and
    nothing is changed. *)
Lemma activate_n_shape (env : Env) (n : nat) (self : DataTable) (drop : bool)
    (s : Store) (t : Z) :
  table self = Some t ->
  (exists i s1,
     activate_n env (S (S n)) self drop s
     = (Ok (set_id i (set_active true self)),
        {| data_tables := <[i := stored_of (set_active true self)]> (data_tables s1);
           physical := physical s1 |})
     /\ (id self = Some i \/ (id self = None /\ i ∉ dom (data_tables s1)))
     /\ ((get_current_active (for_table t (data_tables s)) = None /\ s1 = s)
         \/ exists k v,
              get_current_active (for_table t (data_tables s)) = Some (load (k, v))
              /\ data_tables s !! k = Some v /\ stored_table v = Some t
              /\ stored_active v = true
              /\ drop_error env t (load (k, v)) drop = None
              /\ s1 = {| data_tables := <[k := set_stored_active false v]> (data_tables s);
                         physical := if drop then physical s ∖ {[stored_db_table_name v]}
                                     else physical s |}))
  \/ (exists e k v,
        activate_n env (S (S n)) self drop s = (Err e, s)
        /\ get_current_active (for_table t (data_tables s)) = Some (load (k, v))
        /\ data_tables s !! k = Some v /\ stored_table v = Some t
        /\ stored_active v = true
        /\ drop = true /\ get_model env t (load (k, v)) = Err e).
Proof.
  intros Ht.
  assert (Hsave : forall s1 : Store,
    exists i, save (set_active true self) s1
              = (Ok (set_id i (set_active true self)),
                 {| data_tables := <[i := stored_of (set_active true self)]> (data_tables s1);
                    physical := physical s1 |})
              /\ (id self = Some i \/ (id self = None /\ i ∉ dom (data_tables s1)))).
  { intros s1. unfold save. cbn [id set_active]. destruct (id self) as [i|].
    - exists i. split; [reflexivity | now left].
    - exists (fresh (dom (data_tables s1))). split; [reflexivity|].
      right. split; [reflexivity | apply is_fresh]. }
  assert (Hcall :
    activate_n env (S (S n)) self drop s
    = match get_current_active (for_table t (data_tables s)) with
      | Some prev =>
          match deactivate_n env (S n) prev drop false s with
          | (Ok _, s1) => save (set_active true self) s1
          | (Err e, _) => (Err e, s)
          end
      | None => save (set_active true self) s
      end).
  { cbn [activate_n]. unfold activate_body, atomic, bind, table_of. rewrite Ht.
    unfold ret, get_store.
    destruct (get_current_active (for_table t (data_tables s))) as [prev|].
    - destruct (deactivate_n env (S n) prev drop false s) as [[a|e] s1]; reflexivity.
    - reflexivity. }
  rewrite Hcall. clear Hcall.
  destruct (get_current_active (for_table t (data_tables s))) as [prev|] eqn:Hprev.
  - destruct (get_current_active_Some t s prev Hprev) as (k & v & -> & Hk & Htv & Hav).
    rewrite (deactivate_n_plain env n (load (k, v)) drop s k t eq_refl Htv).
    destruct (drop_error env t (load (k, v)) drop) as [e|] eqn:Hdrop.
    + right. apply drop_error_Some in Hdrop as [Hd He].
      exists e, k, v. split; [reflexivity|]. repeat split; assumption.
    + left.
      cbn [load set_active stored_of created_at table db_table_name active fst snd].
      set (s1 := {| data_tables := _; physical := _ |}).
      destruct (Hsave s1) as (i & Hi & Hid). exists i, s1. rewrite Hi.
      split; [reflexivity|]. split; [exact Hid|].
      right. exists k, v. repeat split; assumption.
  - left. destruct (Hsave s) as (i & Hi & Hid). exists i, s. rewrite Hi.
    split; [reflexivity|]. split; [exact Hid|]. left. now split.
Qed.

Lemma active_generations_single (t k : Z) (v : Stored) (s : Store) :
  at_most_one_active t s ->
  data_tables s !! k = Some v -> stored_table v = Some t -> stored_active v = true ->
  active_generations t s = {[k]}.
Proof.
  intros Hone Hk Ht Ha.
  assert (Hin : k ∈ active_generations t s) by (apply elem_of_active_generations; eauto).
  apply set_eq. intros j. rewrite elem_of_singleton. split.
  - intros Hj. now apply Hone.
  - now intros ->.
Qed.

(** The same from a store in which at most one generation of the table is
    active: no generation of the table is active before the instance is
    saved. *)
Lemma activate_n_spec (env : Env) (n : nat) (self : DataTable) (drop : bool)
    (s : Store) (t : Z) :
  table self = Some t ->
  at_most_one_active t s ->
  (exists i s1,
     activate_n env (S (S n)) self drop s
     = (Ok (set_id i (set_active true self)),
        {| data_tables := <[i := stored_of (set_active true self)]> (data_tables s1);
           physical := physical s1 |})
     /\ (id self = Some i \/ (id self = None /\ i ∉ dom (data_tables s1)))
     /\ active_generations t s1 = ∅
     /\ ((active_generations t s = ∅ /\ s1 = s)
         \/ exists k v,
              data_tables s !! k = Some v /\ stored_table v = Some t
              /\ stored_active v = true
              /\ drop_error env t (load (k, v)) drop = None
              /\ s1 = {| data_tables := <[k := set_stored_active false v]> (data_tables s);
                         physical := if drop then physical s ∖ {[stored_db_table_name v]}
                                     else physical s |}))
  \/ (exists e k v,
        activate_n env (S (S n)) self drop s = (Err e, s)
        /\ active_generations t s = {[k]}
        /\ data_tables s !! k = Some v /\ stored_table v = Some t
        /\ stored_active v = true
        /\ drop = true /\ get_model env t (load (k, v)) = Err e).
Proof.
  intros Ht Hone.
  destruct (activate_n_shape env n self drop s t Ht)
    as [(i & s1 & E & Hid & Hs1)|(e & k & v & E & _ & Hk & Htv & Hav & Hd & He)].
  - left. exists i, s1. split; [exact E|]. split; [exact Hid|].
    destruct Hs1 as [[Hnone ->]|(k & v & _ & Hk & Htv & Hav & Hdrop & ->)].
    + apply get_current_active_None in Hnone. split; [exact Hnone|]. left. now split.
    + split; [now apply (active_generations_deactivate t k v s)|].
      right. exists k, v. repeat split; assumption.
  - right. exists e, k, v. split; [exact E|].
    split; [now apply (active_generations_single t k v s)|]. repeat split; assumption.
Qed.

Lemma sample_store_one_active : active_generations 7 sample_store = {[1]}.
Proof. vm_compute. reflexivity. Qed.

Lemma sample_store_single_one_active : active_generations 7 sample_store_single = {[1]}.
Proof. vm_compute. reflexivity. Qed.

(** The depth of calls never goes beyond three: with more depth left the
    methods do the same. *)
Lemma deactivate_n_false (env : Env) (n : nat) (self : DataTable) (drop : bool) (s : Store) :
  deactivate_n env (S n) self drop false s = deactivate_n env 1 self drop false s.
Proof. reflexivity. Qed.

Lemma activate_depth (env : Env) (n : nat) (self : DataTable) (drop : bool) (s : Store) :
  activate_n env (S (S n)) self drop s = activate_n env 2 self drop s.
Proof.
  cbn [activate_n]. unfold activate_body, atomic, bind.
  destruct (table_of self s) as [[t|e] s0]; [|reflexivity].
  destruct (get_store s0) as [[s1|e] s2]; [|reflexivity].
  destruct (get_current_active (for_table t (data_tables s1))) as [prev|]; [|reflexivity].
  now rewrite (deactivate_n_false env n).
Qed.

Lemma deactivate_depth (env : Env) (n : nat) (self : DataTable) (drop amr : bool)
    (s : Store) :
  deactivate_n env (S (S (S n))) self drop amr s = deactivate_n env 3 self drop amr s.
Proof.
  cbn [deactivate_n]. unfold deactivate_body, atomic.
  destruct (amr && active self); [|reflexivity].
  unfold bind.
  destruct (table_of self s) as [[t|e] s0]; [|reflexivity].
  destruct (get_store s0) as [[s1|e] s2]; [|reflexivity].
  destruct (most_recent _) as [mr|]; [|reflexivity].
  now rewrite (activate_depth env n).
Qed.

(** A transaction that raises leaves the store as it found it. *)
Lemma atomic_rollback {A} (m : M A) (s s' : Store) (e : exn) :
  atomic m s = (Err e, s') -> s' = s.
Proof.
  unfold atomic. destruct (m s) as [[a|e0] s0]; [discriminate|].
  now intros [= _ <-].
Qed.

Lemma activate_all_or_nothing (env : Env) (n : nat) (self : DataTable) (drop : bool)
    (s s' : Store) (e : exn) :
  activate_n env n self drop s = (Err e, s') -> s' = s.
Proof.
  destruct n as [|n]; cbn [activate_n].
  - unfold raise. now intros [= _ <-].
  - unfold activate_body. apply atomic_rollback.
Qed.

Lemma deactivate_all_or_nothing (env : Env) (n : nat) (self : DataTable) (drop amr : bool)
    (s s' : Store) (e : exn) :
  deactivate_n env n self drop amr s = (Err e, s') -> s' = s.
Proof.
  destruct n as [|n]; cbn [deactivate_n].
  - unfold raise. now intros [= _ <-].
  - unfold deactivate_body. apply atomic_rollback.
Qed.

Lemma exactly_one_at_most_one (t i : Z) (s : Store) :
  active_generations t s = {[i]} -> at_most_one_active t s.
Proof.
  intros H a b Ha Hb. rewrite H in Ha, Hb.
  apply elem_of_singleton in Ha, Hb. congruence.
Qed.

Lemma no_active_at_most_one (t : Z) (s : Store) :
  active_generations t s = ∅ -> at_most_one_active t s.
Proof. intros H a b Ha. rewrite H in Ha. now apply not_elem_of_empty in Ha. Qed.

(** One call of [activate] on a generation of table [t], from a store in
    which at most one generation of [t] is active. Either the call
    returns, the instance is saved and active, and it is the one active
    generation; or the drop of the table of the active generation raises,
    and the store is the one before the call, with that generation
    active. *)
Lemma activate_exactly_one (env : Env) (self : DataTable) (drop : bool) (s : Store) (t : Z) :
  table self = Some t -> at_most_one_active t s ->
  (exists i s',
     activate env self drop s = (Ok (set_id i (set_active true self)), s')
     /\ active_generations t s' = {[i]}
     /\ data_tables s' !! i = Some (stored_of (set_active true self)))
  \/ (exists e k v,
        activate env self drop s = (Err e, s)
        /\ drop = true
        /\ active_generations t s = {[k]}
        /\ data_tables s !! k = Some v
        /\ get_model env t (load (k, v)) = Err e).
Proof.
  intros Ht Hone.
  destruct (activate_n_spec env 998 self drop s t Ht Hone)
    as [(i & s1 & E & _ & Hnone & _)|(e & k & v & E & Hact & Hk & _ & _ & Hd & He)].
  - left. exists i. eexists. split; [exact E|]. split.
    + apply active_generations_insert_active; [exact Ht | reflexivity | exact Hnone].
    + cbn [data_tables]. apply lookup_insert_eq.
  - right. exists e, k, v. repeat split; assumption.
Qed.

(** C1: from a store in which at most one generation of the table is
    active (none, before the first activation), take any sequence of
    [activate] calls on generations of the table. A call that returns
    leaves exactly one generation of the table active: the one it was
    made on. A call raises only with [drop_inactive_table], when the
    model of the active generation cannot be built; the store is then
    the one before the call, all that the call had done being undone,
    and exactly one generation of the table is active in it. So after
    each call exactly one generation is active, and every call is one
    step from a store to the next, all or nothing. *)
Theorem activate_single_active (env : Env) (t : Z) (calls : list (DataTable * bool))
    (s : Store) :
  at_most_one_active t s ->
  Forall (fun c => table c.1 = Some t) calls ->
  Forall2 (fun c tr =>
             match outcome tr with
             | Ok g =>
                 exists i, g = set_id i (set_active true c.1)
                           /\ active_generations t (after tr) = {[i]}
             | Err e =>
                 after tr = before tr
                 /\ c.2 = true
                 /\ exists k v, active_generations t (after tr) = {[k]}
                                /\ data_tables (after tr) !! k = Some v
                                /\ get_model env t (load (k, v)) = Err e
             end)
          calls (activations env calls s).
Proof.
  intros Hone Hcalls. revert s Hone.
  induction Hcalls as [|[g drop] calls Hg Hcalls IH]; intros s Hone; cbn [activations].
  - constructor.
  - cbn [fst] in Hg.
    destruct (activate_exactly_one env g drop s t Hg Hone)
      as [(i & s' & E & Hex & _)|(e & k & v & E & Hd & Hact & Hk & He)];
      rewrite E; cbn [fst snd]; constructor; cbn [outcome before after fst snd].
    + exists i. now split.
    + apply IH. now apply (exactly_one_at_most_one t i).
    + split; [reflexivity|]. split; [exact Hd|]. exists k, v. now split.
    + now apply IH.
Qed.

Lemma activate_single_active_witness :
  Forall2 (fun c tr =>
             match outcome tr with
             | Ok g =>
                 exists i, g = set_id i (set_active true c.1)
                           /\ active_generations 7 (after tr) = {[i]}
             | Err e =>
                 after tr = before tr
                 /\ c.2 = true
                 /\ exists k v, active_generations 7 (after tr) = {[k]}
                                /\ data_tables (after tr) !! k = Some v
                                /\ get_model sample_env_accented 7 (load (k, v)) = Err e
             end)
          [(sample_new, false); (sample_active, true)]
          (activations sample_env_accented
             [(sample_new, false); (sample_active, true)] sample_store).
Proof.
  apply (activate_single_active sample_env_accented 7
           [(sample_new, false); (sample_active, true)] sample_store).
  - apply (exactly_one_at_most_one 7 1). apply sample_store_one_active.
  - repeat constructor.
Defined.

(** The two calls of the example above, computed: the first activates the
    new generation, which gets key 4; the second, with the drop of the
    table of generation 4, raises for the column name that is not ASCII
    and leaves the store of the first. *)
Example activations_accented :
  map outcome (activations sample_env_accented
                 [(sample_new, false); (sample_active, true)] sample_store)
  = [ Ok (set_id 4 (set_active true sample_new)); Err UnicodeEncodeError ]
  /\ map (active_generations 7)
         (map after (activations sample_env_accented
                       [(sample_new, false); (sample_active, true)] sample_store))
     = [ {[4]}; {[4]} ].
Proof. split; vm_compute; reflexivity. Qed.

(** The specification's rollover: G1 is active, G2 is created and
    activated; G1 is then inactive with its physical table kept, G2 is
    the active generation. *)
Example generation_rollover (env : Env) :
  let g1 := {| stored_created_at := 10; stored_table := Some 7;
               stored_db_table_name := "data_covid19_caso_aaaaaaaa"; stored_active := true |} in
  let g2 := {| id := None; created_at := 20; table := Some 7;
               db_table_name := "data_covid19_caso_bbbbbbbb"; active := false |} in
  let s := {| data_tables := {[ 1 := g1 ]};
              physical := {[ "data_covid19_caso_aaaaaaaa"; "data_covid19_caso_bbbbbbbb" ]} |} in
  exists i s',
    activate env g2 false s = (Ok (set_id i (set_active true g2)), s')
    /\ i <> 1
    /\ active_generations 7 s' = {[ i ]}
    /\ data_tables s' !! 1 = Some (set_stored_active false g1)
    /\ physical s' = physical s.
Proof.
  intros g1 g2 s.
  assert (Hone : at_most_one_active 7 s).
  { intros a b Ha Hb. apply elem_of_active_generations in Ha as (va & Ha & _).
    apply elem_of_active_generations in Hb as (vb & Hb & _).
    subst s. cbn [data_tables] in Ha, Hb.
    apply lookup_singleton_Some in Ha as [<- _].
    apply lookup_singleton_Some in Hb as [<- _]. reflexivity. }
  destruct (activate_n_spec env 998 g2 false s 7 eq_refl Hone)
    as [(i & s1 & E & Hid & Hnone & Hs1)|(e & k & v & _ & _ & _ & _ & _ & Hd & _)];
    [|discriminate Hd].
  assert (Hs1' : s1 = {| data_tables := <[1 := set_stored_active false g1]> (data_tables s);
                         physical := physical s |}).
  { destruct Hs1 as [[Hn _]|(k & v & Hk & _ & _ & _ & ->)].
    - exfalso. assert (H1 : 1 ∈ active_generations 7 s).
      { apply elem_of_active_generations. exists g1. split; [|now split].
        subst s. cbn [data_tables]. apply lookup_singleton_eq. }
      rewrite Hn in H1. now apply not_elem_of_empty in H1.
    - subst s. cbn [data_tables] in Hk. apply lookup_singleton_Some in Hk as [<- <-].
      reflexivity. }
  destruct Hid as [Hid|[_ Hfresh]]; [discriminate Hid|].
  assert (Hi : i <> 1).
  { intros ->. apply Hfresh. rewrite Hs1'. cbn [data_tables].
    apply elem_of_dom. rewrite lookup_insert_eq. eauto. }
  exists i. eexists. split; [exact E|]. split; [exact Hi|]. split.
  - now apply active_generations_insert_active.
  - split.
    + cbn [data_tables]. rewrite lookup_insert_ne by exact Hi.
      rewrite Hs1'. cbn [data_tables]. apply lookup_insert_eq.
    + cbn [physical]. now rewrite Hs1'.
Qed.

(** ** Deletion *)

(** C2: deleting a saved DataTable whose [active] flag is set raises the
    error of [prevent_active_data_table_deletion], and the store is the
    one before the call: the row is there and no physical table was
    dropped. *)
Theorem delete_active_rejected (env : Env) (instance : DataTable) (s : Store) (i : Z) :
  id instance = Some i -> active instance = true ->
  delete_ env instance s
  = (Err (RuntimeError
            (DataTable_str instance
             ++ " is active and can not be deleted. Deactivate it first.")), s).
Proof.
  intros Hi Ha. unfold delete_. rewrite Hi.
  unfold atomic, bind, prevent_active_data_table_deletion. now rewrite Ha.
Qed.

Lemma delete_active_rejected_witness :
  delete_ sample_env sample_active sample_store
  = (Err (RuntimeError
            "DataTable: data_covid19_caso_cccccccc is active and can not be deleted. Deactivate it first."),
     sample_store).
Proof.
  apply (delete_active_rejected sample_env sample_active sample_store 1); reflexivity.
Defined.

(** An inactive generation is deleted, and its physical table with it,
    unless its model cannot be built: then nothing is deleted. *)
Lemma delete_inactive (env : Env) (instance : DataTable) (s : Store) (i t : Z) :
  id instance = Some i -> active instance = false -> table instance = Some t ->
  delete_ env instance s
  = match get_model env t instance with
    | Ok _ => (Ok tt, {| data_tables := delete i (data_tables s);
                         physical := physical s ∖ {[db_table_name instance]} |})
    | Err e => (Err e, s)
    end.
Proof.
  intros Hi Ha Ht. unfold delete_. rewrite Hi.
  unfold atomic, bind, prevent_active_data_table_deletion. rewrite Ha.
  unfold ret, get_store, put_store, clean_associated_data_base_table.
  rewrite (delete_data_table_spec env instance _ t Ht).
  destruct (get_model env t instance); reflexivity.
Qed.

(** ** deactivate with activate_most_recent *)

Lemma candidates_lookup (i t m : Z) (rm : Stored) (rows : gmap Z Stored) :
  inactive (exclude_id (Some i) (for_table t rows)) !! m = Some rm
  <-> rows !! m = Some rm /\ stored_table rm = Some t /\ m <> i
      /\ stored_active rm = false.
Proof.
  unfold inactive, exclude_id, for_table.
  rewrite !map_lookup_filter_Some. cbn [fst snd]. tauto.
Qed.

(** [deactivate] with [activate_most_recent] on an active generation that
    has a candidate is the activation of the candidate. *)
Lemma deactivate_n_candidate (env : Env) (n : nat) (g mr : DataTable) (drop : bool)
    (s : Store) (t i : Z) :
  id g = Some i -> table g = Some t -> active g = true ->
  most_recent (inactive (exclude_id (Some i) (for_table t (data_tables s)))) = Some mr ->
  deactivate_n env (S n) g drop true s
  = match activate_n env n mr drop s with
    | (Ok _, s') => (Ok g, s')
    | (Err e, _) => (Err e, s)
    end.
Proof.
  intros Hi Ht Ha Hmr. cbn [deactivate_n]. unfold deactivate_body, atomic.
  rewrite Ha. cbn [andb].
  unfold bind at 1. unfold table_of. rewrite Ht. unfold ret at 1.
  unfold bind at 1. unfold get_store. rewrite Hi, Hmr.
  unfold bind. destruct (activate_n env n mr drop s) as [[a|e] s']; reflexivity.
Qed.

(** C5, as amended: [g] is the active generation of its table, saved and
    as the store has it, and the table has another generation that is
    inactive. When [drop_table] is not set, or the model of [g] can be
    built, [deactivate] with [activate_most_recent] returns with the
    instance [g] as it was; an inactive other generation of the table with
    the greatest [created_at] is now the one active generation; the row
    of [g] is inactive, by the activation of the other, which also drops
    the physical table of [g] when [drop_table] is set. When [drop_table]
    is set and the model of [g] cannot be built, the call raises what
    [get_model] raises and the store is the one before the call. *)
Theorem deactivate_activates_most_recent
    (env : Env) (g : DataTable) (drop : bool) (s : Store) (t i : Z) :
  id g = Some i -> table g = Some t -> active g = true ->
  data_tables s !! i = Some (stored_of g) ->
  at_most_one_active t s ->
  (exists j r, j <> i /\ data_tables s !! j = Some r
               /\ stored_table r = Some t /\ stored_active r = false) ->
  ((drop = true -> exists Model, get_model env t g = Ok Model) ->
   exists m rm s',
     deactivate env g drop true s = (Ok g, s')
     /\ m <> i /\ data_tables s !! m = Some rm
     /\ stored_table rm = Some t /\ stored_active rm = false
     /\ (forall j r, j <> i -> data_tables s !! j = Some r ->
                     stored_table r = Some t -> stored_active r = false ->
                     stored_created_at r <= stored_created_at rm)
     /\ active_generations t s' = {[m]}
     /\ data_tables s' !! m = Some (set_stored_active true rm)
     /\ data_tables s' !! i = Some (set_stored_active false (stored_of g))
     /\ physical s' = (if drop then physical s ∖ {[db_table_name g]} else physical s))
  /\ (forall e, drop = true -> get_model env t g = Err e ->
        deactivate env g drop true s = (Err e, s)).
Proof.
  intros Hi Ht Ha Hrow Hone (j & r & Hji & Hj & Hjt & Hja).
  set (C := inactive (exclude_id (Some i) (for_table t (data_tables s)))).
  assert (HCj : C !! j = Some r) by (apply candidates_lookup; auto).
  destruct (most_recent C) as [d|] eqn:Hmr.
  2:{ apply most_recent_None in Hmr. rewrite Hmr in HCj.
      rewrite lookup_empty in HCj. discriminate. }
  apply most_recent_Some in Hmr as Hd. destruct Hd as (m & rm & -> & HCm & Hmax).
  apply candidates_lookup in HCm as (Hm & Hmt & Hmi & Hma).
  assert (Hin : i ∈ active_generations t s).
  { apply elem_of_active_generations. exists (stored_of g). auto. }
  assert (Hprev : forall k v, data_tables s !! k = Some v -> stored_table v = Some t ->
                              stored_active v = true -> load (k, v) = g /\ k = i /\ v = stored_of g).
  { intros k v Hk Hkt Hka.
    assert (k = i).
    { apply Hone; [|exact Hin]. apply elem_of_active_generations. eauto. }
    subst k. rewrite Hrow in Hk. injection Hk as <-.
    split; [now apply load_stored_of | now split]. }
  assert (Hcall : deactivate env g drop true s
                  = match activate_n env 999 (load (m, rm)) drop s with
                    | (Ok _, s') => (Ok g, s')
                    | (Err e, _) => (Err e, s)
                    end).
  { unfold deactivate, recursion_limit. change 1000%nat with (S 999).
    now apply (deactivate_n_candidate env 999 g (load (m, rm)) drop s t i). }
  change 999%nat with (S (S 997)) in Hcall.
  destruct (activate_n_spec env 997 (load (m, rm)) drop s t Hmt Hone)
    as [(i' & s1 & E & Hid & Hnone & Hs1)|(e & k & v & E & _ & Hk & Hkt & Hka & Hd & He)].
  - destruct Hid as [Hid|[Hid _]]; [|discriminate Hid]. injection Hid as <-.
    assert (Hs1' : s1 = {| data_tables := <[i := set_stored_active false (stored_of g)]>
                                             (data_tables s);
                           physical := if drop then physical s ∖ {[db_table_name g]}
                                       else physical s |}
                   /\ drop_error env t g drop = None).
    { destruct Hs1 as [[Hn _]|(k & v & Hk & Hkt & Hka & Hdrop & ->)].
      - rewrite Hn in Hin. now apply not_elem_of_empty in Hin.
      - destruct (Hprev k v Hk Hkt Hka) as (Hl & -> & ->). rewrite Hl in Hdrop.
        now split. }
    destruct Hs1' as [Hs1' Hdrop]. split.
    + intros _. exists m, rm. eexists. split; [rewrite Hcall, E; reflexivity|].
      split; [exact Hmi|]. split; [exact Hm|]. split; [exact Hmt|]. split; [exact Hma|].
      split.
      { intros j' r' Hj'i Hj' Hj't Hj'a. apply (Hmax j'). apply candidates_lookup. auto. }
      split.
      { now apply active_generations_insert_active. }
      split.
      { cbn [data_tables]. now rewrite lookup_insert_eq. }
      split.
      { cbn [data_tables]. rewrite lookup_insert_ne by exact Hmi.
        rewrite Hs1'. cbn [data_tables]. apply lookup_insert_eq. }
      cbn [physical]. now rewrite Hs1'.
    + intros e Hd He. exfalso.
      apply drop_error_None in Hdrop as [Model HM]; [|exact Hd]. congruence.
  - destruct (Hprev k v Hk Hkt Hka) as (Hl & _ & _). rewrite Hl in He. split.
    + intros Hok. exfalso. destruct (Hok Hd) as [Model HM]. congruence.
    + intros e' _ He'. rewrite Hcall, E. congruence.
Qed.

Lemma deactivate_activates_most_recent_witness :
  (exists m rm s',
     deactivate sample_env sample_active true true sample_store = (Ok sample_active, s')
     /\ data_tables sample_store !! m = Some rm
     /\ active_generations 7 s' = {[m]})
  /\ deactivate sample_env_unknown_type sample_active true true sample_store
     = (Err KeyError, sample_store).
Proof.
  destruct (deactivate_activates_most_recent sample_env sample_active true sample_store 7 1)
    as [Hok _].
  - reflexivity.
  - reflexivity.
  - reflexivity.
  - reflexivity.
  - apply (exactly_one_at_most_one 7 1). apply sample_store_one_active.
  - exists 3, (sample_generation 20 "data_covid19_caso_bbbbbbbb" false).
    split; [discriminate|]. repeat split.
  - destruct (deactivate_activates_most_recent sample_env_unknown_type sample_active true
                sample_store 7 1) as [_ Herr].
    + reflexivity.
    + reflexivity.
    + reflexivity.
    + reflexivity.
    + apply (exactly_one_at_most_one 7 1). apply sample_store_one_active.
    + exists 3, (sample_generation 20 "data_covid19_caso_bbbbbbbb" false).
      split; [discriminate|]. repeat split.
    + split.
      * destruct Hok as (m & rm & s' & E & _ & Hm & _ & _ & _ & Hact & _).
        { intros _. eexists. vm_compute. reflexivity. }
        exists m, rm, s'. auto.
      * apply Herr; [reflexivity | vm_compute; reflexivity].
Defined.

(** The same call, computed: generation 3, the later of the two retired
    ones, is activated and the physical table of generation 1 is gone. *)
Example deactivate_sample_store :
  exists s',
    deactivate sample_env sample_active true true sample_store = (Ok sample_active, s')
    /\ active_generations 7 s' = {[3]}
    /\ physical s' = {[ "data_covid19_caso_bbbbbbbb" ]}.
Proof.
  eexists. split; [vm_compute; reflexivity|].
  split; vm_compute; reflexivity.
Qed.

(** C5, as stated: the table of generation 1, the active one, is ordered
    by a column whose name is not ASCII, and generations 2 and 3 are
    inactive. With [drop_table] the call raises, and generation 1 is
    still the active one, no other having been activated. *)
Lemma deactivate_most_recent_drop_raises :
  id sample_active = Some 1 /\ active sample_active = true
  /\ data_tables sample_store !! 1 = Some (stored_of sample_active)
  /\ data_tables sample_store !! 3
     = Some (sample_generation 20 "data_covid19_caso_bbbbbbbb" false)
  /\ get_model sample_env_accented 7 sample_active = Err UnicodeEncodeError
  /\ deactivate sample_env_accented sample_active true true sample_store
     = (Err UnicodeEncodeError, sample_store)
  /\ active_generations 7 sample_store = {[1]}.
Proof. repeat split; vm_compute; reflexivity. Qed.

(** C10, as amended: [g] is the active generation of its table, saved and
    as the store has it, and the table has no other generation that is
    inactive. When [drop_table] is not set, or the model of [g] can be
    built, [deactivate] with [activate_most_recent] does the plain state
    change: the instance and its row become inactive, its physical table
    is dropped when [drop_table] is set, and the table, which had one
    active generation, has none. When [drop_table] is set and the model of
    [g] cannot be built, the call raises what [get_model] raises and the
    store is the one before the call, with [g] active. *)
Theorem deactivate_without_candidate
    (env : Env) (g : DataTable) (drop : bool) (s : Store) (t i : Z) :
  id g = Some i -> table g = Some t -> active g = true ->
  data_tables s !! i = Some (stored_of g) ->
  at_most_one_active t s ->
  (forall j r, j <> i -> data_tables s !! j = Some r ->
               stored_table r = Some t -> stored_active r = true) ->
  active_generations t s = {[i]}
  /\ ((drop = true -> exists Model, get_model env t g = Ok Model) ->
      exists s',
        deactivate env g drop true s = (Ok (set_active false g), s')
        /\ active_generations t s' = ∅
        /\ data_tables s' !! i = Some (stored_of (set_active false g))
        /\ physical s' = (if drop then physical s ∖ {[db_table_name g]} else physical s))
  /\ (forall e, drop = true -> get_model env t g = Err e ->
        deactivate env g drop true s = (Err e, s)).
Proof.
  intros Hi Ht Ha Hrow Hone Hothers.
  set (C := inactive (exclude_id (Some i) (for_table t (data_tables s)))).
  assert (HC : most_recent C = None).
  { apply most_recent_None. apply map_empty. intros j.
    destruct (C !! j) as [r|] eqn:E; [|reflexivity].
    apply candidates_lookup in E as (Hj & Hjt & Hji & Hja).
    rewrite (Hothers j r Hji Hj Hjt) in Hja. discriminate. }
  assert (Hcall : deactivate env g drop true s
                  = match drop_error env t g drop with
                    | Some e => (Err e, s)
                    | None =>
                        (Ok (set_active false g),
                         {| data_tables := <[i := stored_of (set_active false g)]> (data_tables s);
                            physical := if drop then physical s ∖ {[db_table_name g]}
                                        else physical s |})
                    end).
  { unfold deactivate, recursion_limit. change 1000%nat with (S 999).
    cbn [deactivate_n]. unfold deactivate_body, atomic. rewrite Ha. cbn [andb].
    unfold bind at 1. unfold table_of. rewrite Ht. unfold ret at 1.
    unfold bind at 1. unfold get_store. rewrite Hi. fold C. rewrite HC.
    rewrite (plain_deactivation env g drop s i t Hi Ht).
    now destruct (drop_error env t g drop). }
  split; [|split].
  - apply (active_generations_single t i (stored_of g) s); auto.
  - intros Hok. apply drop_error_None in Hok. rewrite Hok in Hcall.
    eexists. split; [exact Hcall|]. split.
    { apply (active_generations_deactivate t i (stored_of g) s); auto. }
    split; [cbn [data_tables]; apply lookup_insert_eq | reflexivity].
  - intros e Hd He.
    assert (Herr : drop_error env t g drop = Some e) by (apply drop_error_Some; now split).
    now rewrite Herr in Hcall.
Qed.

Lemma deactivate_without_candidate_witness :
  (exists s',
     deactivate sample_env sample_active true true sample_store_single
     = (Ok (set_active false sample_active), s')
     /\ active_generations 7 s' = ∅
     /\ physical s' = ∅)
  /\ deactivate sample_env_unknown_type sample_active true true sample_store_single
     = (Err KeyError, sample_store_single).
Proof.
  assert (Hothers : forall j r, j <> 1 -> data_tables sample_store_single !! j = Some r ->
                                stored_table r = Some 7 -> stored_active r = true).
  { intros j r Hj Hr. unfold sample_store_single in Hr. cbn [data_tables] in Hr.
    apply lookup_singleton_Some in Hr as [<- _]. contradiction. }
  split.
  - destruct (deactivate_without_candidate sample_env sample_active true
                sample_store_single 7 1) as (_ & Hok & _).
    + reflexivity.
    + reflexivity.
    + reflexivity.
    + reflexivity.
    + apply (exactly_one_at_most_one 7 1). apply sample_store_single_one_active.
    + exact Hothers.
    + destruct Hok as (s' & E & Hnone & _ & Hphys).
      { intros _. eexists. vm_compute. reflexivity. }
      exists s'. split; [exact E|]. split; [exact Hnone|]. rewrite Hphys.
      vm_compute. reflexivity.
  - destruct (deactivate_without_candidate sample_env_unknown_type sample_active true
                sample_store_single 7 1) as (_ & _ & Herr).
    + reflexivity.
    + reflexivity.
    + reflexivity.
    + reflexivity.
    + apply (exactly_one_at_most_one 7 1). apply sample_store_single_one_active.
    + exact Hothers.
    + apply Herr; [reflexivity | vm_compute; reflexivity].
Defined.

(** C10, as stated: the one generation of the table is active and the
    table is ordered by a column whose name is not ASCII. With
    [drop_table] the call raises: the generation is not marked inactive,
    its physical table is there, and the table still has its active
    generation. *)
Lemma deactivate_plain_drop_raises :
  id sample_active = Some 1 /\ active sample_active = true
  /\ data_tables sample_store_single = {[ 1 := stored_of sample_active ]}
  /\ get_model sample_env_accented 7 sample_active = Err UnicodeEncodeError
  /\ deactivate sample_env_accented sample_active true true sample_store_single
     = (Err UnicodeEncodeError, sample_store_single)
  /\ active_generations 7 sample_store_single = {[1]}.
Proof. repeat split; vm_compute; reflexivity. Qed.

(** * Further properties *)

(** ** Index names *)

Lemma append_inj_l (p a b : string) : p ++ a = p ++ b -> a = b.
Proof. induction p as [|c p IH]; simpl; [auto|]. intros [= H]. auto. Qed.

Lemma starts_with_app (p s : string) : PyStr.starts_with p (p ++ s) = true.
Proof.
  induction p as [|c p IH]; simpl; [reflexivity|].
  now rewrite Ascii.eqb_refl, IH.
Qed.

(** What a call of [make_index_name] that returns has computed. *)
Lemma make_index_name_Ok_inv (t k : string) (fields : list string) (n : string) :
  make_index_name t k fields = Ok n ->
  exists c k' suffix,
    k = String c k'
    /\ PyStr.len suffix = 12%nat
    /\ n = "idx_"
           ++ PyStr.take 12 (PyStr.replace "-" "" (PyStr.replace "data_" "" t))
           ++ "_" ++ String c suffix.
Proof.
  unfold make_index_name.
  destruct (PyStr.encode_ascii (format_index_key t k fields)) as [bytes|e]; [|discriminate].
  destruct k as [|c k']; [discriminate|]. intros [= <-].
  exists c, k', (PyStr.last_n 12 (MD5.hexdigest bytes)). split; [reflexivity|].
  split; [|reflexivity].
  apply PyStrFacts.len_last_n. rewrite MD5Facts.len_hexdigest. lia.
Qed.

Lemma make_index_name_total (t k : string) (fields : list string) :
  PyStr.is_ascii (format_index_key t k fields) -> k <> "" ->
  exists n, make_index_name t k fields = Ok n.
Proof.
  intros Hkey Hk. unfold make_index_name.
  rewrite (PyStrFacts.encode_ascii_ok _ Hkey).
  destruct k as [|c k']; [contradiction|]. eauto.
Qed.

(** X1: every name that [make_index_name] returns begins with "idx_" and
    has from 18 to 30 characters, whatever the table name, the index kind
    and the field names are. *)
Theorem make_index_name_bounded (t k : string) (fields : list string) (n : string) :
  make_index_name t k fields = Ok n ->
  PyStr.starts_with "idx_" n = true
  /\ (18 <= PyStr.len n <= 30)%nat.
Proof.
  intros H. apply make_index_name_Ok_inv in H as (c & k' & suffix & _ & Hs & ->).
  split; [apply starts_with_app|].
  pose proof (PyStrFacts.len_take 12 (PyStr.replace "-" "" (PyStr.replace "data_" "" t))) as Ht.
  rewrite !PyStrFacts.len_app. cbn [PyStr.len]. rewrite Hs.
  change (PyStr.len "idx_") with 4%nat. change (PyStr.len "_") with 1%nat. lia.
Qed.

Lemma make_index_name_bounded_witness :
  PyStr.starts_with "idx_" "idx_covid19_caso_oec436bf3410d" = true
  /\ (18 <= PyStr.len "idx_covid19_caso_oec436bf3410d" <= 30)%nat.
Proof.
  apply (make_index_name_bounded "data_covid19_caso_abcdefgh" "order" ["date"; "state"]).
  vm_compute. reflexivity.
Defined.

(** X2: [make_index_name] raises UnicodeEncodeError exactly when the text
    it hashes is not ASCII, IndexError exactly when that text is ASCII and
    the index kind is empty, and returns a name otherwise. *)
Theorem make_index_name_failures (t k : string) (fields : list string) :
  (make_index_name t k fields = Err UnicodeEncodeError
   <-> ~ PyStr.is_ascii (format_index_key t k fields))
  /\ (make_index_name t k fields = Err IndexError
      <-> PyStr.is_ascii (format_index_key t k fields) /\ k = "")
  /\ ((exists n, make_index_name t k fields = Ok n)
      <-> PyStr.is_ascii (format_index_key t k fields) /\ k <> "").
Proof.
  assert (Hdec : PyStr.is_ascii (format_index_key t k fields)
                 \/ ~ PyStr.is_ascii (format_index_key t k fields)).
  { unfold PyStr.is_ascii.
    destruct (decide (Forall (fun c => PyStr.code c < 128)
                             (list_ascii_of_string (format_index_key t k fields))));
      auto. }
  destruct Hdec as [Ha|Hn].
  - unfold make_index_name. rewrite (PyStrFacts.encode_ascii_ok _ Ha).
    destruct k as [|c k'].
    + split; [split; [discriminate | contradiction]|].
      split; [split; [auto | reflexivity]|].
      split; [intros [n Hn]; discriminate | intros [_ H]; contradiction].
    + split; [split; [discriminate | contradiction]|].
      split; [split; [discriminate | intros [_ H]; discriminate]|].
      split; [intros _; split; [exact Ha | discriminate] | eauto].
  - rewrite (make_index_name_not_ascii t k fields Hn).
    split; [split; auto|].
    split; [split; [discriminate | intros [H _]; contradiction]|].
    split; [intros [n H]; discriminate | intros [H _]; contradiction].
Qed.

Lemma index_names_differ
    (t : string) (c1 c2 : ascii) (k1 k2 : string) (f1 f2 : list string) (n1 n2 : string) :
  make_index_name t (String c1 k1) f1 = Ok n1 ->
  make_index_name t (String c2 k2) f2 = Ok n2 ->
  c1 <> c2 -> n1 <> n2.
Proof.
  intros H1 H2 Hc E.
  apply make_index_name_Ok_inv in H1 as (a1 & r1 & s1 & [= <- <-] & _ & ->).
  apply make_index_name_Ok_inv in H2 as (a2 & r2 & s2 & [= <- <-] & _ & E2).
  rewrite E2 in E.
  do 3 apply append_inj_l in E. injection E as E _. contradiction.
Qed.

(** X3: for one table, two index kinds with different initials never get
    the same name, whatever the fields are. *)
Theorem make_index_name_kinds_apart
    (t : string) (c1 c2 : ascii) (k1 k2 : string) (f1 f2 : list string) (n1 n2 : string) :
  make_index_name t (String c1 k1) f1 = Ok n1 ->
  make_index_name t (String c2 k2) f2 = Ok n2 ->
  c1 <> c2 -> n1 <> n2.
Proof. exact (index_names_differ t c1 c2 k1 k2 f1 f2 n1 n2). Qed.

Lemma make_index_name_kinds_apart_witness :
  "idx_t_o1a32033c2394" <> "idx_t_fa5523c34d825".
Proof.
  apply (make_index_name_kinds_apart "t" "o" "f" "rder" "ilter" ["a"; "b"] ["a"]).
  - vm_compute. reflexivity.
  - vm_compute. reflexivity.
  - discriminate.
Defined.

(** ** The indexes of a dynamic model *)

Lemma list_eqb_true (l1 l2 : list string) : list_eqb l1 l2 = true <-> l1 = l2.
Proof. unfold list_eqb. destruct (decide (l1 = l2)); split; auto; discriminate. Qed.

Lemma filtering_indexes_inv (t : string) (o f : list string) (acc r : list Index) :
  filtering_indexes t o f acc = Ok r ->
  exists extra, r = (acc ++ extra)%list /\ Forall (is_filter_index t o f) extra.
Proof.
  revert acc. induction f as [|x f IH]; intros acc; cbn [filtering_indexes].
  - intros [= <-]. exists []. split; [now rewrite app_nil_r | constructor].
  - assert (Hmono : forall i, is_filter_index t o f i -> is_filter_index t o (x :: f) i).
    { intros i (Hc & y & Hy & Hrest). split; [exact Hc|]. exists y. split; [now right | exact Hrest]. }
    destruct (list_eqb o [x]) eqn:Eo.
    + intros H. apply IH in H as (extra & -> & Hex). exists extra. split; [reflexivity|].
      eapply Forall_impl; [exact Hex | exact Hmono].
    + destruct (make_index_name t "filter" [x]) as [n|e] eqn:En; cbn [and_then]; [|discriminate].
      intros H. apply IH in H as (extra & -> & Hex).
      exists ({| index_class := BTreeIndex; index_name := n; index_fields := [x] |} :: extra).
      split; [now rewrite <- app_assoc|]. constructor.
      * split; [reflexivity|]. exists x. split; [now left|]. split; [reflexivity|].
        split; [|exact En]. intros E. apply list_eqb_true in E. congruence.
      * eapply Forall_impl; [exact Hex | exact Hmono].
Qed.

Lemma get_model_indexes_inv (t : string) (o f s : list string) (idxs : list Index) :
  get_model_indexes t o f s = Ok idxs ->
  exists i1 i2 i3,
    idxs = (i1 ++ i2 ++ i3)%list
    /\ ((o = [] /\ i1 = [])
        \/ exists n, o <> [] /\ make_index_name t "order" o = Ok n
                     /\ i1 = [ {| index_class := BTreeIndex; index_name := n;
                                  index_fields := o |} ])
    /\ Forall (is_filter_index t o f) i2
    /\ ((s = [] /\ i3 = [])
        \/ exists n, s <> [] /\ make_index_name t "search" ["search_data"] = Ok n
                     /\ i3 = [ {| index_class := GinIndex; index_name := n;
                                  index_fields := ["search_data"] |} ]).
Proof.
  unfold get_model_indexes. intros H.
  assert (H1 : exists i1,
    (if list_truthy o
     then and_then (make_index_name t "order" o) (fun name =>
          Ok [ {| index_class := BTreeIndex; index_name := name; index_fields := o |} ])
     else Ok []) = Ok i1
    /\ ((o = [] /\ i1 = [])
        \/ exists n, o <> [] /\ make_index_name t "order" o = Ok n
                     /\ i1 = [ {| index_class := BTreeIndex; index_name := n;
                                  index_fields := o |} ])).
  { destruct o as [|x o']; cbn [list_truthy] in *.
    - exists []. split; [reflexivity | left; now split].
    - destruct (make_index_name t "order" (x :: o')) as [n|e]; cbn [and_then] in *;
        [|discriminate].
      eexists. split; [reflexivity|]. right. exists n. split; [discriminate | now split]. }
  destruct H1 as (i1 & E1 & Hi1). rewrite E1 in H. cbn [and_then] in H.
  assert (H2 : exists i2,
    (if list_truthy f then filtering_indexes t o f i1 else Ok i1) = Ok (i1 ++ i2)%list
    /\ Forall (is_filter_index t o f) i2).
  { destruct f as [|x f'].
    - exists []. cbn [list_truthy]. split; [now rewrite app_nil_r | constructor].
    - cbn [list_truthy] in *.
      destruct (filtering_indexes t o (x :: f') i1) as [r|e] eqn:Ef; cbn [and_then] in H;
        [|discriminate].
      apply filtering_indexes_inv in Ef as (extra & -> & Hex). eauto. }
  destruct H2 as (i2 & E2 & Hi2). rewrite E2 in H. cbn [and_then] in H.
  destruct s as [|x s']; cbn [list_truthy] in H.
  - injection H as <-. exists i1, i2, []. rewrite app_nil_r.
    split; [reflexivity|]. split; [exact Hi1|]. split; [exact Hi2 | left; now split].
  - destruct (make_index_name t "search" ["search_data"]) as [n|e] eqn:En; cbn [and_then] in H;
      [|discriminate].
    injection H as <-. eexists i1, i2, _. rewrite <- app_assoc.
    split; [reflexivity|]. split; [exact Hi1|]. split; [exact Hi2|].
    right. exists n. split; [discriminate | now split].
Qed.

(** X4: the name of every index that [Table.get_model] declares begins
    with "idx_" and has at most 30 characters. *)
Theorem get_model_index_names_bounded (t : string) (o f s : list string) (idxs : list Index) :
  get_model_indexes t o f s = Ok idxs ->
  Forall (fun i => PyStr.starts_with "idx_" (index_name i) = true
                   /\ (PyStr.len (index_name i) <= 30)%nat) idxs.
Proof.
  intros H. apply get_model_indexes_inv in H as (i1 & i2 & i3 & -> & H1 & H2 & H3).
  assert (Hb : forall k fields n, make_index_name t k fields = Ok n ->
                 PyStr.starts_with "idx_" n = true /\ (PyStr.len n <= 30)%nat).
  { intros k fields n Hn.
    apply make_index_name_Ok_inv in Hn as (c & k' & suffix & _ & Hs & ->).
    split; [apply starts_with_app|].
    pose proof (PyStrFacts.len_take 12 (PyStr.replace "-" "" (PyStr.replace "data_" "" t))).
    rewrite !PyStrFacts.len_app. cbn [PyStr.len]. rewrite Hs.
    change (PyStr.len "idx_") with 4%nat. change (PyStr.len "_") with 1%nat. lia. }
  rewrite !Forall_app. split; [|split].
  - destruct H1 as [[_ ->]|(n & _ & Hn & ->)]; [constructor|].
    constructor; [|constructor]. now apply (Hb "order" o).
  - eapply Forall_impl; [exact H2|]. intros i (_ & x & _ & _ & _ & Hn).
    now apply (Hb "filter" [x]).
  - destruct H3 as [[_ ->]|(n & _ & Hn & ->)]; [constructor|].
    constructor; [|constructor]. now apply (Hb "search" ["search_data"]).
Qed.

Lemma get_model_index_names_bounded_witness :
  exists idxs,
    get_model_indexes "data_covid19_caso_abcdefgh" ["-date"; "state"] ["state"; "city"] ["city"]
    = Ok idxs
    /\ Forall (fun i => PyStr.starts_with "idx_" (index_name i) = true
                        /\ (PyStr.len (index_name i) <= 30)%nat) idxs.
Proof.
  eexists. split; [vm_compute; reflexivity|].
  apply (get_model_index_names_bounded "data_covid19_caso_abcdefgh"
           ["-date"; "state"] ["state"; "city"] ["city"]).
  vm_compute. reflexivity.
Defined.

(** X5: when the table has an ordering, its index comes first, no other
    index has its name, and no other B-tree index covers the same list of
    fields: a filtering field that is the whole ordering gets no index of
    its own. *)
Theorem get_model_ordering_index_once (t : string) (o f s : list string) (idxs : list Index) :
  get_model_indexes t o f s = Ok idxs -> o <> [] ->
  exists n others,
    idxs = {| index_class := BTreeIndex; index_name := n; index_fields := o |} :: others
    /\ Forall (fun i => index_name i <> n
                        /\ (index_class i = BTreeIndex -> index_fields i <> o)) others.
Proof.
  intros H Ho. apply get_model_indexes_inv in H as (i1 & i2 & i3 & -> & H1 & H2 & H3).
  destruct H1 as [[E _]|(n & _ & Hn & ->)]; [contradiction|].
  exists n, (i2 ++ i3)%list. split; [reflexivity|].
  rewrite Forall_app. split.
  - eapply Forall_impl; [exact H2|]. intros i (_ & x & _ & Hf & Hne & Hx). split.
    + apply (index_names_differ t "f" "o" "ilter" "rder" [x] o); [exact Hx | exact Hn|].
      discriminate.
    + intros _ E. rewrite Hf in E. congruence.
  - destruct H3 as [[_ ->]|(m & _ & Hm & ->)]; [constructor|].
    constructor; [|constructor]. cbn [index_name index_class]. split; [|discriminate].
    apply (index_names_differ t "s" "o" "earch" "rder" ["search_data"] o);
      [exact Hm | exact Hn | discriminate].
Qed.

Lemma get_model_ordering_index_once_witness :
  exists n others,
    get_model_indexes "data_caso" ["state"] ["state"; "city"] ["city"]
    = Ok ({| index_class := BTreeIndex; index_name := n; index_fields := ["state"] |}
          :: others)
    /\ length others = 2%nat.
Proof.
  destruct (get_model_indexes "data_caso" ["state"] ["state"; "city"] ["city"])
    as [idxs|e] eqn:E; [|vm_compute in E; discriminate E].
  destruct (get_model_ordering_index_once "data_caso" ["state"] ["state"; "city"] ["city"]
              idxs E) as (n & others & -> & _); [discriminate|].
  exists n, others. split; [reflexivity|].
  vm_compute in E. injection E as _ <-. reflexivity.
Defined.

Lemma get_model_indexes_total (t : string) (o f s : list string) :
  PyStr.is_ascii t -> Forall PyStr.is_ascii o -> Forall PyStr.is_ascii f ->
  exists idxs, get_model_indexes t o f s = Ok idxs.
Proof.
  intros Ht Ho Hf.
  assert (Hmk : forall k fields, PyStr.is_ascii k -> k <> "" ->
                  Forall PyStr.is_ascii fields ->
                  exists n, make_index_name t k fields = Ok n).
  { intros k fields Hk Hne Hfs. apply make_index_name_total; [|exact Hne].
    now apply format_index_key_ascii. }
  assert (Hfi : forall acc, exists r, filtering_indexes t o f acc = Ok r).
  { induction Hf as [|x f Hx Hf IH]; intros acc; cbn [filtering_indexes]; [eauto|].
    destruct (list_eqb o [x]); [apply IH|].
    destruct (Hmk "filter" [x]) as [n Hn];
      [repeat constructor | discriminate | now constructor |].
    rewrite Hn. cbn [and_then]. apply IH. }
  unfold get_model_indexes.
  assert (H1 : exists i1,
    (if list_truthy o
     then and_then (make_index_name t "order" o) (fun name =>
          Ok [ {| index_class := BTreeIndex; index_name := name; index_fields := o |} ])
     else Ok []) = Ok i1).
  { destruct (list_truthy o); [|eauto].
    destruct (Hmk "order" o) as [n Hn]; [repeat constructor | discriminate | exact Ho |].
    rewrite Hn. cbn [and_then]. eauto. }
  destruct H1 as [i1 ->]. cbn [and_then].
  assert (H2 : exists i2,
    (if list_truthy f then filtering_indexes t o f i1 else Ok i1) = Ok i2).
  { destruct (list_truthy f); [apply Hfi | eauto]. }
  destruct H2 as [i2 ->]. cbn [and_then].
  destruct (list_truthy s); [|eauto].
  destruct (Hmk "search" ["search_data"]) as [n Hn];
    [repeat constructor | discriminate | repeat constructor |].
  rewrite Hn. cbn [and_then]. eauto.
Qed.

(** X6: [Table.get_model] can declare its indexes whenever the physical
    table name and the ordering and filtering names are ASCII; the names
    of the search fields play no part, and IndexError never comes up. *)
Theorem get_model_indexes_ascii (t : string) (o f s : list string) :
  PyStr.is_ascii t -> Forall PyStr.is_ascii o -> Forall PyStr.is_ascii f ->
  exists idxs, get_model_indexes t o f s = Ok idxs.
Proof. exact (get_model_indexes_total t o f s). Qed.

Lemma get_model_indexes_ascii_witness :
  exists idxs,
    get_model_indexes "data_caso" ["state"] ["city"] [String (ascii_of_nat 233) ""] = Ok idxs.
Proof.
  apply (get_model_indexes_ascii "data_caso" ["state"] ["city"] [String (ascii_of_nat 233) ""]);
    repeat constructor.
Defined.

(** ** Blanks and case *)

Lemma lower_char_idem (c : ascii) : PyStr.lower_char (PyStr.lower_char c) = PyStr.lower_char c.
Proof. destruct c as [[] [] [] [] [] [] [] []]; vm_compute; reflexivity. Qed.

Lemma is_space_lower_char (c : ascii) : PyStr.is_space (PyStr.lower_char c) = PyStr.is_space c.
Proof. destruct c as [[] [] [] [] [] [] [] []]; vm_compute; reflexivity. Qed.

Lemma list_of_lstrip (s : string) :
  list_ascii_of_string (PyStr.lstrip s) = lstrip_list (list_ascii_of_string s).
Proof.
  induction s as [|c s IH]; simpl; [reflexivity|].
  destruct (PyStr.is_space c); [exact IH | reflexivity].
Qed.

Lemma list_of_rev_string (s : string) :
  list_ascii_of_string (PyStr.rev_string s) = rev (list_ascii_of_string s).
Proof. unfold PyStr.rev_string. apply list_ascii_of_string_of_list_ascii. Qed.

Lemma list_of_strip (s : string) :
  list_ascii_of_string (PyStr.strip s) = strip_list (list_ascii_of_string s).
Proof.
  unfold PyStr.strip, PyStr.rstrip, strip_list.
  now rewrite list_of_rev_string, list_of_lstrip, list_of_rev_string, list_of_lstrip.
Qed.

Lemma list_of_lower (s : string) :
  list_ascii_of_string (PyStr.lower s) = map PyStr.lower_char (list_ascii_of_string s).
Proof. induction s as [|c s IH]; simpl; [reflexivity | now rewrite IH]. Qed.

Lemma string_of_list_inj (s1 s2 : string) :
  list_ascii_of_string s1 = list_ascii_of_string s2 -> s1 = s2.
Proof.
  intros H. rewrite <- (string_of_list_ascii_of_string s1),
    <- (string_of_list_ascii_of_string s2). now rewrite H.
Qed.

Lemma lstrip_list_clean (l : list ascii) : clean_head (lstrip_list l).
Proof.
  induction l as [|c l IH]; simpl; [exact I|].
  destruct (PyStr.is_space c) eqn:E; [exact IH | exact E].
Qed.

Lemma lstrip_list_of_clean (l : list ascii) : clean_head l -> lstrip_list l = l.
Proof. destruct l as [|c l]; simpl; [reflexivity|]. now intros ->. Qed.

Lemma lstrip_list_snoc (l : list ascii) (c : ascii) :
  PyStr.is_space c = false -> lstrip_list (l ++ [c]) = (lstrip_list l ++ [c])%list.
Proof.
  intros Hc. induction l as [|a l IH]; simpl; [now rewrite Hc|].
  destruct (PyStr.is_space a); [exact IH | reflexivity].
Qed.

Lemma rstrip_list_clean (l : list ascii) :
  clean_head l -> clean_head (rev (lstrip_list (rev l))).
Proof.
  destruct l as [|c l]; simpl; [intros _; exact I|]. intros Hc.
  rewrite (lstrip_list_snoc _ c Hc), rev_app_distr. simpl. exact Hc.
Qed.

Lemma strip_list_idem (l : list ascii) : strip_list (strip_list l) = strip_list l.
Proof.
  unfold strip_list.
  rewrite (lstrip_list_of_clean (rev (lstrip_list (rev (lstrip_list l)))))
    by (apply rstrip_list_clean, lstrip_list_clean).
  rewrite rev_involutive.
  now rewrite (lstrip_list_of_clean (lstrip_list (rev (lstrip_list l))))
    by apply lstrip_list_clean.
Qed.

Lemma lstrip_list_lower (l : list ascii) :
  lstrip_list (map PyStr.lower_char l) = map PyStr.lower_char (lstrip_list l).
Proof.
  induction l as [|c l IH]; simpl; [reflexivity|].
  rewrite is_space_lower_char. destruct (PyStr.is_space c); [exact IH | reflexivity].
Qed.

Lemma strip_list_lower (l : list ascii) :
  strip_list (map PyStr.lower_char l) = map PyStr.lower_char (strip_list l).
Proof.
  unfold strip_list.
  now rewrite lstrip_list_lower, <- map_rev, lstrip_list_lower, <- map_rev.
Qed.

Lemma strip_idem (s : string) : PyStr.strip (PyStr.strip s) = PyStr.strip s.
Proof. apply string_of_list_inj. rewrite !list_of_strip. apply strip_list_idem. Qed.

Lemma strip_lower (s : string) : PyStr.strip (PyStr.lower s) = PyStr.lower (PyStr.strip s).
Proof.
  apply string_of_list_inj.
  rewrite list_of_strip, !list_of_lower, list_of_strip. apply strip_list_lower.
Qed.

Lemma lower_idem (s : string) : PyStr.lower (PyStr.lower s) = PyStr.lower s.
Proof.
  induction s as [|c s IH]; simpl; [reflexivity|]. now rewrite lower_char_idem, IH.
Qed.

Lemma lower_truthy (s : string) : str_truthy (PyStr.lower s) = str_truthy s.
Proof. destruct s; reflexivity. Qed.

Lemma str_truthy_ne (s : string) : str_truthy s = true <-> s <> "".
Proof. destruct s; simpl; split; congruence. Qed.

(** The words that [split] gives are not empty. *)
Lemma split_from_nonempty (cur : list ascii) (s : string) :
  Forall (fun w => w <> "") (PyStr.split_from cur s).
Proof.
  assert (Hflush : forall cur : list ascii,
            Forall (fun w => w <> "")
              (match cur with [] => [] | _ => [string_of_list_ascii (rev cur)] end)).
  { intros [|c cur']; [constructor|]. constructor; [|constructor].
    intros E. apply (f_equal list_ascii_of_string) in E.
    rewrite list_ascii_of_string_of_list_ascii in E. simpl in E.
    destruct (rev cur'); discriminate. }
  revert cur. induction s as [|c s IH]; intros cur; cbn [PyStr.split_from].
  - apply Hflush.
  - destruct (PyStr.is_space c); [|apply IH].
    apply Forall_app. split; [apply Hflush | apply IH].
Qed.

Lemma split_nonempty (s : string) : Forall (fun w => w <> "") (PyStr.split s).
Proof. apply split_from_nonempty. Qed.

Example split_on_examples :
  PyStr.split_on "," "" = [""]
  /\ PyStr.split_on "," "a,,b" = ["a"; ""; "b"]
  /\ PyStr.split_on "," ",a," = [""; "a"; ""]
  /\ PyStr.split_on "," " -Date , state" = [" -Date "; " state"].
Proof. vm_compute. repeat split. Qed.

(** ** Query strings *)

Lemma pop_spec (key : string) (d : list string) (q : gmap string (list string)) :
  pop key d q = (default d (q !! key), delete key q).
Proof.
  unfold pop. destruct (q !! key) as [v|] eqn:E; [reflexivity|].
  now rewrite (delete_id q key E).
Qed.

(** The parts of the parser, in a call that returns or not. *)
Lemma parse_querystring_unfold (q : gmap string (list string)) :
  parse_querystring q
  = and_then (first_item (default [""] (q !! "order-by"))) (fun order_by0 =>
    and_then (first_item (default [""] (q !! "search"))) (fun search_query =>
    Ok (omap truthy_last (delete "search" (delete "order-by" q)),
        search_query,
        map (fun field => PyStr.lower (PyStr.strip field))
            (List.filter (fun field => str_truthy (PyStr.strip field))
                         (PyStr.split_on "," order_by0))))).
Proof.
  unfold parse_querystring. rewrite (pop_spec "order-by"). cbn iota beta.
  destruct (first_item (default [""] (q !! "order-by"))) as [o0|e]; [|reflexivity].
  cbn [and_then]. rewrite (pop_spec "search"). cbn iota beta.
  rewrite (lookup_delete_ne q "order-by" "search") by discriminate.
  reflexivity.
Qed.

(** X7: every ordering name that [parse_querystring] returns is not
    empty, has no blank at either end and is in lower case. *)
Theorem parse_querystring_order_by_clean
    (q : gmap string (list string)) (fq : gmap string string) (sq : string)
    (ob : list string) :
  parse_querystring q = Ok (fq, sq, ob) ->
  Forall (fun name => name <> "" /\ PyStr.strip name = name /\ PyStr.lower name = name) ob.
Proof.
  rewrite parse_querystring_unfold.
  destruct (first_item (default [""] (q !! "order-by"))) as [o0|e]; [|discriminate].
  cbn [and_then].
  destruct (first_item (default [""] (q !! "search"))) as [s0|e]; [|discriminate].
  cbn [and_then]. intros [= _ _ <-].
  apply List.Forall_forall. intros name Hin. apply in_map_iff in Hin as (f & <- & Hf).
  apply filter_In in Hf as [_ Hf]. split; [|split].
  - apply str_truthy_ne. now rewrite lower_truthy.
  - now rewrite strip_lower, strip_idem.
  - apply lower_idem.
Qed.

Lemma parse_querystring_order_by_clean_witness :
  Forall (fun name => name <> "" /\ PyStr.strip name = name /\ PyStr.lower name = name)
         ["-date"; "state"].
Proof.
  apply (parse_querystring_order_by_clean
           {[ "order-by" := [" -Date ,, State"]; "state" := ["RJ"] ]}
           {[ "state" := "RJ" ]} "" ["-date"; "state"]).
  vm_compute. reflexivity.
Defined.

(** X8: the filter query that [parse_querystring] returns has neither
    "order-by" nor "search" as key; for every other key it holds the last
    value given for the key when that value is not empty, and nothing
    else. *)
Theorem parse_querystring_filter_query
    (q : gmap string (list string)) (fq : gmap string string) (sq : string)
    (ob : list string) :
  parse_querystring q = Ok (fq, sq, ob) ->
  fq !! "order-by" = None /\ fq !! "search" = None
  /\ forall key value,
       fq !! key = Some value
       <-> key <> "order-by" /\ key <> "search" /\ value <> ""
           /\ exists values, q !! key = Some values /\ last values = Some value.
Proof.
  rewrite parse_querystring_unfold.
  destruct (first_item (default [""] (q !! "order-by"))) as [o0|e]; [|discriminate].
  cbn [and_then].
  destruct (first_item (default [""] (q !! "search"))) as [s0|e]; [|discriminate].
  cbn [and_then]. intros [= <- _ _].
  assert (Hlk : forall key,
    omap truthy_last (delete "search" (delete "order-by" q)) !! key
    = if decide (key = "order-by") then None
      else if decide (key = "search") then None
      else q !! key ≫= truthy_last).
  { intros key. rewrite lookup_omap.
    destruct (decide (key = "order-by")) as [->|H1].
    - rewrite lookup_delete_ne by discriminate. now rewrite lookup_delete_eq.
    - destruct (decide (key = "search")) as [->|H2].
      + now rewrite lookup_delete_eq.
      + now rewrite !lookup_delete_ne by congruence. }
  split; [now rewrite Hlk|]. split; [now rewrite Hlk|].
  intros key value. rewrite Hlk.
  destruct (decide (key = "order-by")) as [->|H1]; [split; [discriminate | tauto]|].
  destruct (decide (key = "search")) as [->|H2]; [split; [discriminate | tauto]|].
  destruct (q !! key) as [values|]; cbn.
  - unfold truthy_last. destruct (last values) as [v|] eqn:El.
    + destruct (str_truthy v) eqn:Ev.
      * split.
        -- intros [= <-]. split; [exact H1|]. split; [exact H2|].
           split; [now apply str_truthy_ne|]. exists values. now split.
        -- intros (_ & _ & _ & vs & [= <-] & E). rewrite El in E. exact E.
      * split; [discriminate|].
        intros (_ & _ & Hne & vs & [= <-] & E). rewrite El in E. injection E as <-.
        apply str_truthy_ne in Hne. congruence.
    + split; [discriminate|]. intros (_ & _ & _ & vs & [= <-] & E).
      rewrite El in E. discriminate.
  - split; [discriminate|]. intros (_ & _ & _ & vs & E & _). discriminate.
Qed.

Lemma parse_querystring_filter_query_witness :
  ({[ "state" := "RJ" ]} : gmap string string) !! "search" = None.
Proof.
  destruct (parse_querystring_filter_query
              {[ "search" := ["rio"]; "state" := ["SP"; "RJ"]; "city" := [""] ]}
              {[ "state" := "RJ" ]} "rio" []) as (_ & H & _).
  - vm_compute. reflexivity.
  - exact H.
Defined.

(** X9: [parse_querystring] raises exactly when "order-by" or "search" is
    a key with an empty list of values, and then it raises IndexError; a
    key that is missing counts as one empty value: no ordering names, the
    empty search query. *)
Theorem parse_querystring_failures (q : gmap string (list string)) :
  (parse_querystring q = Err IndexError
   <-> q !! "order-by" = Some [] \/ q !! "search" = Some [])
  /\ (forall e, parse_querystring q = Err e -> e = IndexError)
  /\ (forall fq sq ob, parse_querystring q = Ok (fq, sq, ob) ->
        (q !! "order-by" = None -> ob = [])
        /\ (q !! "search" = None -> sq = "")).
Proof.
  rewrite parse_querystring_unfold.
  destruct (q !! "order-by") as [[|o os]|] eqn:Eo; cbn [default first_item and_then];
    destruct (q !! "search") as [[|s ss]|] eqn:Es; cbn [default first_item and_then].
  all: split; [split; [try discriminate; auto | intros [H|H]; try discriminate; auto]|].
  all: split; [intros e [= <-]; reflexivity || (intros e H; discriminate H) |].
  all: intros fq sq ob H; try discriminate H; injection H as <- <- <-.
  all: split; intros H; try discriminate H; reflexivity.
Qed.

(** ** Composed queries *)

(** The rows that a query set selects are the rows of its table that its
    filter keeps. *)
Lemma selected_rows {tsvector rank : Type}
    (ts_match : tsvector -> SearchQuery -> bool)
    (ts_rank : tsvector -> SearchQuery -> rank)
    (db : Database tsvector) (qs : QuerySet) rows :
  selected ts_match ts_rank db qs = Ok rows ->
  exists rel, relations db (db_table (model qs)) = Some rel
              /\ map fst rows
                 = List.filter (eval_where ts_match (where_ (query qs))) (rel_rows rel).
Proof.
  unfold selected. destruct (relations db (db_table (model qs))) as [rel|]; [|discriminate].
  intros [= <-]. exists rel. split; [reflexivity|].
  rewrite map_map. cbn [fst]. apply map_id.
Qed.

Lemma selected_total {tsvector rank : Type}
    (ts_match : tsvector -> SearchQuery -> bool)
    (ts_rank : tsvector -> SearchQuery -> rank)
    (db : Database tsvector) (qs : QuerySet) (rel : Relation tsvector) :
  relations db (db_table (model qs)) = Some rel ->
  exists rows, selected ts_match ts_rank db qs = Ok rows.
Proof. intros H. unfold selected. rewrite H. eauto. Qed.

Lemma filter_stronger {A} (f g : A -> bool) (l : list A) :
  (forall x, g x = true -> f x = true) -> incl (List.filter g l) (List.filter f l).
Proof.
  intros H x Hx. apply filter_In in Hx as [Hin Hg]. apply filter_In. auto.
Qed.

Lemma NoDup_map_pair {A B} (c : B) (l : list A) :
  NoDup l -> NoDup (map (fun w => (w, c)) l).
Proof.
  induction 1 as [|x l Hx Hl IH]; simpl; constructor; [|exact IH].
  rewrite list_elem_of_In, in_map_iff. intros (w & [= ->] & Hw).
  apply Hx. now apply list_elem_of_In.
Qed.

Section CompositionFacts.

Variable set_iter : list string -> list string.
Variable order_item_valid : QuerySet -> string -> bool.
Variable processor_filters : gmap string string -> list string -> list Lookup.
Variable filter_refused : QuerySet -> list Lookup -> option exn.

Lemma search_shape (q : string) (qs : QuerySet) :
  model (search set_iter q qs) = model qs
  /\ exists extra_where,
       where_ (query (search set_iter q qs)) = (where_ (query qs) ++ extra_where)%list.
Proof.
  unfold search. destruct (str_truthy q && list_truthy _).
  - split; [reflexivity|]. eexists. reflexivity.
  - split; [reflexivity|]. exists []. now rewrite app_nil_r.
Qed.

Lemma apply_filters_shape (filtering : gmap string string) (qs qs' : QuerySet) :
  apply_filters processor_filters filter_refused filtering qs = Ok qs' ->
  qs' = filter_kwargs (processor_filters filtering (extra_filtering (extra (model qs)))) qs.
Proof.
  unfold apply_filters. destruct (filter_refused _ _); [discriminate|]. now intros [= <-].
Qed.

Lemma apply_ordering_shape (requested : list string) (qs qs' : QuerySet) :
  apply_ordering set_iter order_item_valid requested qs = Ok qs' ->
  model qs' = model qs
  /\ where_ (query qs') = where_ (query qs)
  /\ annotations (query qs') = annotations (query qs)
  /\ _count qs' = _count qs.
Proof.
  unfold apply_ordering, add_ordering.
  destruct (list_truthy (List.filter _ requested)).
  - destruct (forallb _ _); [|discriminate]. intros [= <-]. repeat split.
  - destruct (list_truthy (extra_ordering (extra (model qs)))).
    + destruct (forallb _ _); [|discriminate]. intros [= <-]. repeat split.
    + intros [= <-]. repeat split.
Qed.

(** The steps of [composed_query]. *)
Lemma composed_query_unfold (fq : option (gmap string string)) (sq : option string)
    (ob : option (list string)) (qs : QuerySet) :
  let qs1 := if opt_str_truthy sq then search set_iter (default "" sq) qs else qs in
  composed_query set_iter order_item_valid processor_filters filter_refused fq sq ob qs
  = and_then (if dict_truthy fq
              then apply_filters processor_filters filter_refused (default ∅ fq) qs1
              else Ok qs1)
      (apply_ordering set_iter order_item_valid (match ob with Some l => l | None => [] end)).
Proof.
  intros qs1. unfold composed_query. fold qs1.
  now destruct ob as [[|x l]|].
Qed.

(** A [composed_query] that returns went through its three steps. *)
Lemma composed_query_steps (fq : option (gmap string string)) (sq : option string)
    (ob : option (list string)) (qs qs' : QuerySet) :
  composed_query set_iter order_item_valid processor_filters filter_refused fq sq ob qs
  = Ok qs' ->
  let qs1 := if opt_str_truthy sq then search set_iter (default "" sq) qs else qs in
  exists qs2,
    (if dict_truthy fq
     then apply_filters processor_filters filter_refused (default ∅ fq) qs1
     else Ok qs1) = Ok qs2
    /\ (qs2 = qs1
        \/ qs2 = filter_kwargs
                   (processor_filters (default ∅ fq) (extra_filtering (extra (model qs1))))
                   qs1)
    /\ apply_ordering set_iter order_item_valid
         (match ob with Some l => l | None => [] end) qs2 = Ok qs'.
Proof.
  rewrite composed_query_unfold. intros E qs1. fold qs1 in E.
  destruct (if dict_truthy fq then _ else _) as [qs2|e] eqn:E2; [|discriminate E].
  exists qs2. split; [reflexivity|]. split; [|exact E].
  destruct (dict_truthy fq).
  - right. now apply apply_filters_shape.
  - left. now injection E2 as <-.
Qed.

Lemma composed_query_shape (fq : option (gmap string string)) (sq : option string)
    (ob : option (list string)) (qs qs' : QuerySet) :
  composed_query set_iter order_item_valid processor_filters filter_refused fq sq ob qs
  = Ok qs' ->
  model qs' = model qs
  /\ exists extra_where,
       where_ (query qs') = (where_ (query qs) ++ extra_where)%list.
Proof.
  intros E. destruct (composed_query_steps fq sq ob qs qs' E) as (qs2 & _ & H2 & E3).
  set (qs1 := if opt_str_truthy sq then search set_iter (default "" sq) qs else qs) in *.
  assert (H1 : model qs1 = model qs
               /\ exists e1, where_ (query qs1) = (where_ (query qs) ++ e1)%list).
  { subst qs1. destruct (opt_str_truthy sq); [apply search_shape|].
    split; [reflexivity|]. exists []. now rewrite app_nil_r. }
  assert (H2' : model qs2 = model qs1
                /\ exists e2, where_ (query qs2) = (where_ (query qs1) ++ e2)%list).
  { destruct H2 as [ -> | -> ].
    - split; [reflexivity|]. exists []. now rewrite app_nil_r.
    - split; [reflexivity|]. eexists. reflexivity. }
  destruct H1 as (M1 & e1 & W1). destruct H2' as (M2 & e2 & W2).
  destruct (apply_ordering_shape _ qs2 qs' E3) as (M3 & W3 & _).
  split; [congruence|]. exists (e1 ++ e2)%list.
  now rewrite W3, W2, W1, app_assoc.
Qed.

Context {tsvector rank : Type}.
Variable ts_match : tsvector -> SearchQuery -> bool.
Variable ts_rank : tsvector -> SearchQuery -> rank.

(** X10: whatever the filter query, the search query, the ordering and the
    filter processor are, the query set that [composed_query] returns
    selects no row that the query set it starts from does not select. *)
Theorem composed_query_narrows (fq : option (gmap string string)) (sq : option string)
    (ob : option (list string)) (qs qs' : QuerySet) (db : Database tsvector)
    (rows' : list (Row tsvector * list (string * option rank))) :
  composed_query set_iter order_item_valid processor_filters filter_refused fq sq ob qs
  = Ok qs' ->
  selected ts_match ts_rank db qs' = Ok rows' ->
  exists rows,
    selected ts_match ts_rank db qs = Ok rows
    /\ incl (map fst rows') (map fst rows).
Proof.
  intros E Hsel'.
  destruct (composed_query_shape fq sq ob qs qs' E) as (M & e & W).
  destruct (selected_rows ts_match ts_rank db qs' rows' Hsel') as (rel & Hrel & Hrows').
  rewrite M in Hrel.
  destruct (selected_total ts_match ts_rank db qs rel Hrel) as (rows & Hsel).
  exists rows. split; [exact Hsel|].
  destruct (selected_rows ts_match ts_rank db qs rows Hsel) as (rel0 & Hrel0 & Hrows).
  rewrite Hrel in Hrel0. injection Hrel0 as <-.
  rewrite Hrows', Hrows, W.
  apply filter_stronger. intros r. unfold eval_where. rewrite forallb_app.
  now intros [H _]%andb_true_iff.
Qed.

(** X13: a query set that [composed_query] returns for a search query
    that is not empty, on a model with search fields, is counted exactly,
    whatever the planner statistics say. *)
Theorem composed_search_count_exact (fq : option (gmap string string)) (q : string)
    (ob : option (list string)) (qs qs' : QuerySet) (db : Database tsvector) :
  str_truthy q = true -> list_truthy (extra_search (extra (model qs))) = true ->
  composed_query set_iter order_item_valid processor_filters filter_refused
    fq (Some q) ob qs = Ok qs' ->
  (count ts_match ts_rank db qs').1 = exact_count ts_match ts_rank db qs'.
Proof.
  intros Hq Hs E.
  assert (H : _count qs' = None /\ where_ (query qs') <> []).
  { destruct (composed_query_steps fq (Some q) ob qs qs' E) as (qs2 & _ & H2 & E3).
    cbn [opt_str_truthy] in H2. rewrite Hq in H2.
    change (default "" (Some q)) with q in H2.
    set (qs1 := search set_iter q qs) in H2.
    assert (H1 : _count qs1 = None /\ where_ (query qs1) <> []).
    { subst qs1. unfold search. rewrite Hq, Hs. cbn. split; [reflexivity|].
      intros E'. apply app_eq_nil in E' as [_ E']. discriminate. }
    assert (H2' : _count qs2 = None /\ where_ (query qs2) <> []).
    { destruct H2 as [ -> | -> ]; [exact H1|].
      split; [reflexivity|]. cbn. intros E'. apply app_eq_nil in E' as [E' _].
      now apply (proj2 H1). }
    destruct (apply_ordering_shape _ qs2 qs' E3) as (_ & W & _ & C).
    rewrite W, C. exact H2'. }
  destruct H as [Hc Hw]. unfold count. rewrite Hc.
  destruct (where_ (query qs')); [contradiction|]. cbn [list_truthy negb].
  now destruct (exact_count ts_match ts_rank db qs').
Qed.

Hypothesis set_iter_In : forall l x, In x (set_iter l) <-> In x l.
Hypothesis set_iter_NoDup : forall l, NoDup (set_iter l).

(** The search query that [search] builds of a query string with a word:
    the conjunction of the words of the string, each once. *)
Lemma search_terms_query (q : string) :
  PyStr.split q <> [] ->
  exists sq, build_query "pg_catalog.portuguese" (set_iter (PyStr.split q)) = Some sq
             /\ NoDup (terms sq)
             /\ forall w c, In (w, c) (terms sq)
                            <-> In w (PyStr.split q) /\ c = "pg_catalog.portuguese".
Proof.
  intros Hne.
  pose proof (build_query_terms "pg_catalog.portuguese" (set_iter (PyStr.split q))) as Ht.
  assert (Hall : forall w, In w (set_iter (PyStr.split q)) -> str_truthy w = true).
  { intros w Hw. apply (proj1 (set_iter_In _ _)) in Hw. apply str_truthy_ne.
    pose proof (split_nonempty q) as Hs. rewrite List.Forall_forall in Hs. now apply Hs. }
  rewrite (forallb_filter_id str_truthy) in Ht
    by (apply forallb_forall; exact Hall).
  destruct (build_query _ _) as [sq|]; cbn [opt_terms] in Ht.
  - exists sq. split; [reflexivity|]. rewrite Ht. split.
    + apply NoDup_map_pair, set_iter_NoDup.
    + intros w c. rewrite in_map_iff. split.
      * intros (w' & [= <- <-] & Hw'). split; [|reflexivity].
        now apply (proj1 (set_iter_In _ _)).
      * intros [Hw ->]. exists w. split; [reflexivity|].
        now apply (proj2 (set_iter_In _ _)).
  - exfalso. destruct (PyStr.split q) as [|w ws] eqn:E; [contradiction|].
    assert (Hin : In w (set_iter (w :: ws))) by (apply (proj2 (set_iter_In _ _)); now left).
    destruct (set_iter (w :: ws)); [contradiction|]. discriminate.
Qed.

(** X11: with a search query of at least one word, on a model with search
    fields, [search] filters by one search query, the conjunction of the
    words of the query string, each once and with the Portuguese
    configuration, and the query set it returns selects exactly the rows
    that the query set selected whose search vector is set and matches
    that search query as a whole. *)
Theorem search_selects_all_words (q : string) (qs : QuerySet) (db : Database tsvector) :
  PyStr.split q <> [] -> list_truthy (extra_search (extra (model qs))) = true ->
  exists sq,
    where_ (query (search set_iter q qs))
    = (where_ (query qs) ++ [SearchDataExact (Some sq)])%list
    /\ NoDup (terms sq)
    /\ (forall w c, In (w, c) (terms sq)
                    <-> In w (PyStr.split q) /\ c = "pg_catalog.portuguese")
    /\ forall rows, selected ts_match ts_rank db qs = Ok rows ->
         exists rows',
           selected ts_match ts_rank db (search set_iter q qs) = Ok rows'
           /\ forall r, In r (map fst rows')
                        <-> In r (map fst rows)
                            /\ exists v, search_data r = Some v /\ ts_match v sq = true.
Proof.
  intros Hw Hs.
  assert (Hq : str_truthy q = true).
  { destruct q; [|reflexivity]. now contradiction Hw. }
  destruct (search_terms_query q Hw) as (sq & Hb & Hnd & Hterms).
  assert (Esearch : search set_iter q qs
                    = extend_order_by ["-search_rank"]
                        (filter_ (SearchDataExact (Some sq))
                           (annotate "search_rank" (SearchRank "search_data" (Some sq)) qs))).
  { unfold search. rewrite Hq, Hs. cbn [andb].
    fold (build_query "pg_catalog.portuguese" (set_iter (PyStr.split q))). now rewrite Hb. }
  exists sq. split; [now rewrite Esearch|]. split; [exact Hnd|]. split; [exact Hterms|].
  intros rows Hsel.
  destruct (selected_rows ts_match ts_rank db qs rows Hsel) as (rel & Hrel & Hrows).
  assert (Hrel' : relations db (db_table (model (search set_iter q qs))) = Some rel)
    by (now rewrite Esearch).
  destruct (selected_total ts_match ts_rank db _ rel Hrel') as (rows' & Hsel').
  exists rows'. split; [exact Hsel'|]. intros r.
  destruct (selected_rows ts_match ts_rank db _ rows' Hsel') as (rel0 & Hrel0 & Hrows').
  rewrite Hrel' in Hrel0. injection Hrel0 as <-.
  rewrite Hrows', Hrows, Esearch.
  cbn [extend_order_by filter_ annotate clone model query where_ db_table].
  rewrite !filter_In. unfold eval_where. rewrite forallb_app. cbn [forallb eval_lookup].
  rewrite andb_true_r, andb_true_iff.
  split.
  - intros (Hin & Hwhere & Hsd). split; [now split|].
    destruct (search_data r) as [v|]; [|discriminate].
    exists v. now split.
  - intros ((Hin & Hwhere) & v & Hv & Hm). split; [exact Hin|]. split; [exact Hwhere|].
    now rewrite Hv.
Qed.

(** X12: when [composed_query] searches, it gives to [add_ordering] the
    names kept of the request or, when none is kept, the declared default
    ordering, on the query set that the search and the filters leave.
    When Django accepts them all, the ordering of the query set returned
    is the ordering the query set had, "-search_rank", then those names;
    when it refuses one, [composed_query] raises FieldError. When Django
    refuses the filters, [composed_query] raises what [filter] raises. *)
Theorem composed_query_rank_first (fq : option (gmap string string)) (q : string)
    (ob : option (list string)) (qs : QuerySet) :
  str_truthy q = true -> list_truthy (extra_search (extra (model qs))) = true ->
  let declared :=
    (extra_ordering (extra (model qs)) ++ extra_filtering (extra (model qs)))%list in
  let requested := match ob with Some l => l | None => [] end in
  let kept := List.filter
                (fun f => str_in (PyStr.replace "-" "" f) (map clean_name declared))
                requested in
  let names := if list_truthy kept then kept else extra_ordering (extra (model qs)) in
  let composed :=
    composed_query set_iter order_item_valid processor_filters filter_refused
      fq (Some q) ob qs in
  let filtered :=
    if dict_truthy fq
    then apply_filters processor_filters filter_refused (default ∅ fq)
           (search set_iter q qs)
    else Ok (search set_iter q qs) in
  (forall qs2, filtered = Ok qs2 ->
     composed = (if forallb (order_item_valid qs2) names
                 then Ok (extend_order_by names qs2) else Err FieldError)
     /\ order_by (query (extend_order_by names qs2))
        = (order_by (query qs) ++ "-search_rank" :: names)%list)
  /\ (forall e, filtered = Err e -> composed = Err e).
Proof.
  intros Hq Hs declared requested kept names composed filtered.
  assert (Hc : composed
               = and_then filtered (apply_ordering set_iter order_item_valid requested)).
  { subst composed filtered. rewrite composed_query_unfold. cbn [opt_str_truthy].
    rewrite Hq. reflexivity. }
  set (qs1 := search set_iter q qs) in *.
  assert (H1 : model qs1 = model qs
               /\ order_by (query qs1) = (order_by (query qs) ++ ["-search_rank"])%list).
  { subst qs1. unfold search. rewrite Hq, Hs. now split. }
  split.
  - intros qs2 E2. rewrite Hc, E2. cbn [and_then].
    assert (H2 : model qs2 = model qs
                 /\ order_by (query qs2) = (order_by (query qs) ++ ["-search_rank"])%list).
    { subst filtered. destruct (dict_truthy fq).
      - apply apply_filters_shape in E2. subst qs2. exact H1.
      - injection E2 as <-. exact H1. }
    destruct H2 as [M2 O2]. split.
    + rewrite (apply_ordering_cases set_iter order_item_valid set_iter_In requested qs2), M2.
      reflexivity.
    + cbn [extend_order_by query order_by]. now rewrite O2, <- app_assoc.
  - intros e E2. now rewrite Hc, E2.
Qed.

End CompositionFacts.

(** ** More on the generations *)

Lemma activate_n_detached (env : Env) (n : nat) (self : DataTable) (drop : bool) (s : Store) :
  table self = None -> activate_n env (S n) self drop s = (Err AttributeError, s).
Proof.
  intros Ht. cbn [activate_n]. unfold activate_body, atomic, bind, table_of.
  now rewrite Ht.
Qed.

(** X14: [activate] on a generation whose table is null raises
    AttributeError. On a generation that has its table, it raises only
    with [drop_inactive_table], when the table has an active generation
    whose model cannot be built: it raises what [get_model] raises for
    that generation. In both cases the store is untouched. In any other
    case it returns, and the generation is then saved with its [active]
    flag set. *)
Theorem activate_outcome (env : Env) (self : DataTable) (drop : bool) (s : Store) :
  match table self with
  | None => activate env self drop s = (Err AttributeError, s)
  | Some t =>
      match get_current_active (for_table t (data_tables s)) with
      | Some prev =>
          (forall e, drop = true -> get_model env t prev = Err e ->
                     activate env self drop s = (Err e, s))
          /\ ((drop = true -> exists Model, get_model env t prev = Ok Model) ->
              exists i s',
                activate env self drop s = (Ok (set_id i (set_active true self)), s')
                /\ data_tables s' !! i = Some (stored_of (set_active true self))
                /\ i ∈ active_generations t s')
      | None =>
          exists i s',
            activate env self drop s = (Ok (set_id i (set_active true self)), s')
            /\ data_tables s' !! i = Some (stored_of (set_active true self))
            /\ i ∈ active_generations t s'
      end
  end.
Proof.
  destruct (table self) as [t|] eqn:Ht.
  2:{ exact (activate_n_detached env 999 self drop s Ht). }
  assert (Hok : forall i s1,
    activate_n env 1000 self drop s
    = (Ok (set_id i (set_active true self)),
       {| data_tables := <[i := stored_of (set_active true self)]> (data_tables s1);
          physical := physical s1 |}) ->
    exists i s',
      activate env self drop s = (Ok (set_id i (set_active true self)), s')
      /\ data_tables s' !! i = Some (stored_of (set_active true self))
      /\ i ∈ active_generations t s').
  { intros i s1 E. exists i. eexists. split; [exact E|]. cbn [data_tables].
    split; [apply lookup_insert_eq|].
    apply elem_of_active_generations. cbn [data_tables].
    exists (stored_of (set_active true self)). rewrite lookup_insert_eq.
    repeat split. exact Ht. }
  change 1000%nat with (S (S 998)) in Hok.
  destruct (activate_n_shape env 998 self drop s t Ht)
    as [(i & s1 & E & _ & Hs1)|(e & k & v & E & Hprev & _ & _ & _ & Hd & He)].
  - destruct (get_current_active (for_table t (data_tables s))) as [prev|] eqn:Hprev.
    + split; [|intros _; exact (Hok i s1 E)].
      intros e Hd He. exfalso.
      destruct Hs1 as [[Hnone _]|(k & v & Hp & _ & _ & _ & Hdrop & _)]; [discriminate|].
      injection Hp as ->.
      apply drop_error_None in Hdrop as [Model HM]; [|exact Hd]. congruence.
    + exact (Hok i s1 E).
  - rewrite Hprev. split.
    + intros e' _ He'. unfold activate, recursion_limit. change 1000%nat with (S (S 998)).
      rewrite E. congruence.
    + intros Hmodel. exfalso. destruct (Hmodel Hd) as [Model HM]. congruence.
Qed.

Lemma activate_outcome_witness :
  (exists i s',
     activate sample_env sample_new true sample_store
     = (Ok (set_id i (set_active true sample_new)), s')
     /\ i ∈ active_generations 7 s')
  /\ activate sample_env_accented sample_new true sample_store
     = (Err UnicodeEncodeError, sample_store).
Proof.
  pose proof (activate_outcome sample_env sample_new true sample_store) as H1.
  pose proof (activate_outcome sample_env_accented sample_new true sample_store) as H2.
  cbn [table sample_new] in H1, H2.
  assert (Hprev : get_current_active (for_table 7 (data_tables sample_store))
                  = Some sample_active) by (vm_compute; reflexivity).
  rewrite Hprev in H1, H2. split.
  - destruct H1 as [_ H1]. destruct H1 as (i & s' & E & _ & Hin).
    + intros _. eexists. vm_compute. reflexivity.
    + exists i, s'. now split.
  - destruct H2 as [H2 _]. apply H2; [reflexivity | vm_compute; reflexivity].
Defined.

Lemma active_generations_after_save (t' i : Z) (v : Stored) (m : gmap Z Stored)
    (p p' : gset string) (j : Z) :
  j ∈ active_generations t' {| data_tables := <[i := v]> m; physical := p |} ->
  (j = i /\ stored_table v = Some t' /\ stored_active v = true)
  \/ (j <> i /\ j ∈ active_generations t' {| data_tables := m; physical := p' |}).
Proof.
  rewrite !elem_of_active_generations. cbn [data_tables].
  intros (r & Hr & Ht & Ha). destruct (decide (i = j)) as [<-|Hne].
  - rewrite lookup_insert_eq in Hr. injection Hr as <-. now left.
  - rewrite lookup_insert_ne in Hr by exact Hne. right. split; [congruence|]. eauto.
Qed.

Lemma activate_n_at_most_one (env : Env) (n : nat) (self : DataTable) (drop : bool)
    (s : Store) (t' : Z) :
  at_most_one_active t' s ->
  at_most_one_active t' (activate_n env (S (S n)) self drop s).2.
Proof.
  intros Hone. destruct (table self) as [t|] eqn:Ht.
  2:{ now rewrite (activate_n_detached env (S n) self drop s Ht). }
  destruct (decide (t' = t)) as [->|Hne].
  - destruct (activate_n_spec env n self drop s t Ht Hone)
      as [(i & s1 & E & _ & Hnone & _)|(e & k & v & E & _)].
    + rewrite E. cbn [snd]. apply (exactly_one_at_most_one t i).
      now apply active_generations_insert_active.
    + now rewrite E.
  - destruct (activate_n_shape env n self drop s t Ht)
      as [(i & s1 & E & _ & Hs1)|(e & k & v & E & _)]; [|now rewrite E].
    rewrite E. cbn [snd].
    assert (Hsub : forall j,
      j ∈ active_generations t'
            {| data_tables := <[i := stored_of (set_active true self)]> (data_tables s1);
               physical := physical s1 |} ->
      j ∈ active_generations t' s).
    { intros j Hj.
      apply (active_generations_after_save t' i _ _ _ (physical s1)) in Hj
        as [(_ & Htb & _)|[_ Hj]].
      - cbn [stored_of set_active stored_table table] in Htb. congruence.
      - destruct Hs1 as [[_ ->]|(k & v & _ & _ & _ & _ & _ & ->)].
        + now destruct s.
        + apply (active_generations_after_save t' k _ _ _ (physical s)) in Hj
            as [(_ & _ & Hfalse)|[_ Hj]]; [discriminate Hfalse|]. now destruct s. }
    intros a b Ha Hb. apply Hone; now apply Hsub.
Qed.

Lemma delete_data_table_rows (env : Env) (d : DataTable) (s0 s' : Store) (r : result unit) :
  delete_data_table env d s0 = (r, s') -> data_tables s' = data_tables s0.
Proof.
  unfold delete_data_table, bind, table_of.
  destruct (table d) as [t|]; [|now intros [= _ <-]]. unfold ret.
  destruct (get_model env t d) as [Model|e]; [|now intros [= _ <-]].
  unfold ignore_programming_error, delete_table.
  destruct (decide _); now intros [= _ <-].
Qed.

(** The store that the plain state change leaves, inside its
    transaction: the one it found, or that one with the row of the
    instance saved as inactive and some physical tables. *)
Lemma plain_store (env : Env) (self : DataTable) (drop : bool) (s : Store) :
  (atomic (self' <- save (set_active false self) ;;
           if drop then delete_data_table env self' ;;; ret self' else ret self') s).2 = s
  \/ exists i p,
       (atomic (self' <- save (set_active false self) ;;
                if drop then delete_data_table env self' ;;; ret self' else ret self') s).2
       = {| data_tables := <[i := stored_of (set_active false self)]> (data_tables s);
            physical := p |}.
Proof.
  unfold atomic, bind, save, ret. destruct drop.
  - destruct (delete_data_table env _ _) as [[u|e] s2] eqn:E; cbn [snd]; [|now left].
    right. apply delete_data_table_rows in E. cbn [data_tables] in E.
    destruct s2 as [rows p]. cbn [data_tables] in E. subst rows. eauto.
  - right. cbn [snd]. eauto.
Qed.

(** The store that [deactivate] leaves: the one it found, the one that
    the activation of another generation leaves, or the one it found with
    the row of the instance saved as inactive and some physical tables. *)
Lemma deactivate_n_store (env : Env) (n : nat) (self : DataTable) (drop amr : bool)
    (s : Store) :
  (deactivate_n env (S (S (S n))) self drop amr s).2 = s
  \/ (exists mr, (deactivate_n env (S (S (S n))) self drop amr s).2
                 = (activate_n env (S (S n)) mr drop s).2)
  \/ (exists i p, (deactivate_n env (S (S (S n))) self drop amr s).2
                  = {| data_tables := <[i := stored_of (set_active false self)]> (data_tables s);
                       physical := p |}).
Proof.
  assert (Hcall :
    deactivate_n env (S (S (S n))) self drop amr s
    = let plain :=
        atomic (self' <- save (set_active false self) ;;
                if drop then delete_data_table env self' ;;; ret self' else ret self') s in
      if amr && active self
      then match table self with
           | Some t =>
               match most_recent (inactive (exclude_id (id self)
                                              (for_table t (data_tables s)))) with
               | Some mr =>
                   match activate_n env (S (S n)) mr drop s with
                   | (Ok _, s') => (Ok self, s')
                   | (Err e, _) => (Err e, s)
                   end
               | None => plain
               end
           | None => (Err AttributeError, s)
           end
      else plain).
  { cbn [deactivate_n]. unfold deactivate_body.
    destruct (amr && active self); [|reflexivity].
    unfold atomic at 1. unfold bind at 1. unfold table_of.
    destruct (table self) as [t|]; [|reflexivity].
    unfold ret at 1. unfold bind at 1. unfold get_store.
    destruct (most_recent _) as [mr|]; [|reflexivity].
    unfold bind, ret.
    destruct (activate_n env (S (S n)) mr drop s) as [[a|e] s']; reflexivity. }
  rewrite Hcall. clear Hcall. cbv zeta.
  destruct (amr && active self).
  - destruct (table self) as [t|]; [|now left].
    destruct (most_recent _) as [mr|].
    + destruct (activate_n env (S (S n)) mr drop s) as [[a|e] s'] eqn:E; cbn [snd].
      * right. left. exists mr. now rewrite E.
      * now left.
    + destruct (plain_store env self drop s) as [H|H]; [left | right; right]; exact H.
  - destruct (plain_store env self drop s) as [H|H]; [left | right; right]; exact H.
Qed.

Lemma store_eta (s : Store) : {| data_tables := data_tables s; physical := physical s |} = s.
Proof. now destruct s. Qed.

Lemma deactivate_n_at_most_one (env : Env) (n : nat) (self : DataTable) (drop amr : bool)
    (s : Store) (t' : Z) :
  at_most_one_active t' s ->
  at_most_one_active t' (deactivate_n env (S (S (S n))) self drop amr s).2.
Proof.
  intros Hone.
  destruct (deactivate_n_store env n self drop amr s) as [->|[[mr ->]|(i & p & ->)]].
  - exact Hone.
  - now apply activate_n_at_most_one.
  - intros a b Ha Hb. apply Hone.
    + apply (active_generations_after_save t' i _ _ _ (physical s)) in Ha
        as [(_ & _ & Hf)|[_ Ha]]; [discriminate Hf | now rewrite store_eta in Ha].
    + apply (active_generations_after_save t' i _ _ _ (physical s)) in Hb
        as [(_ & _ & Hf)|[_ Hb]]; [discriminate Hf | now rewrite store_eta in Hb].
Qed.

(** X15: [activate] and [deactivate] keep the invariant of the data model
    for every logical table, whatever generation they are called on and
    whether they return or raise: a table with at most one active
    generation before the call has at most one after it. *)
Theorem lifecycle_keeps_invariant (env : Env) (self : DataTable) (drop amr : bool)
    (s : Store) (t' : Z) :
  at_most_one_active t' s ->
  at_most_one_active t' (activate env self drop s).2
  /\ at_most_one_active t' (deactivate env self drop amr s).2.
Proof.
  intros Hone. split.
  - exact (activate_n_at_most_one env 998 self drop s t' Hone).
  - exact (deactivate_n_at_most_one env 997 self drop amr s t' Hone).
Qed.

Lemma lifecycle_keeps_invariant_witness :
  at_most_one_active 7 (activate sample_env_accented sample_new true sample_store).2
  /\ at_most_one_active 7 (deactivate sample_env sample_new true true sample_store).2.
Proof.
  split.
  - apply (lifecycle_keeps_invariant sample_env_accented sample_new true true sample_store 7).
    apply (exactly_one_at_most_one 7 1). apply sample_store_one_active.
  - apply (lifecycle_keeps_invariant sample_env sample_new true true sample_store 7).
    apply (exactly_one_at_most_one 7 1). apply sample_store_one_active.
Defined.

(** X16: an [activate] that returns removes no row and touches no row but
    the one of the generation it is called on and the one of the
    generation that was active for the same table; it drops no physical
    table when [drop_inactive_table] is not set, and creates none in any
    case. *)
Theorem activate_frame (env : Env) (self self' : DataTable) (drop : bool)
    (s s' : Store) (t i : Z) :
  table self = Some t ->
  activate env self drop s = (Ok self', s') -> id self' = Some i ->
  (forall j r, j <> i -> data_tables s !! j = Some r ->
               stored_table r <> Some t \/ stored_active r = false ->
               data_tables s' !! j = Some r)
  /\ dom (data_tables s) ⊆ dom (data_tables s')
  /\ physical s' ⊆ physical s
  /\ (drop = false -> physical s' = physical s).
Proof.
  intros Ht E Hi.
  unfold activate, recursion_limit in E. change 1000%nat with (S (S 998)) in E.
  destruct (activate_n_shape env 998 self drop s t Ht)
    as [(i' & s1 & E' & _ & Hs1)|(e & k & v & E' & _)];
    rewrite E' in E; [|discriminate E].
  injection E as <- <-. cbn [id set_id] in Hi. injection Hi as ->.
  cbn [data_tables physical].
  destruct Hs1 as [[_ ->]|(k & v & _ & Hk & Htv & Hav & _ & ->)]; cbn [data_tables physical].
  - split; [|split; [|split]].
    + intros j r Hj Hr _. now rewrite lookup_insert_ne by congruence.
    + rewrite dom_insert. set_solver.
    + reflexivity.
    + reflexivity.
  - split; [|split; [|split]].
    + intros j r Hj Hr Hor. rewrite lookup_insert_ne by congruence.
      destruct (decide (k = j)) as [->|Hkj].
      * rewrite Hk in Hr. injection Hr as <-. destruct Hor; congruence.
      * now rewrite lookup_insert_ne.
    + rewrite !dom_insert. set_solver.
    + destruct drop; [|reflexivity]. intros x Hx.
      now apply elem_of_difference in Hx as [Hx _].
    + now intros ->.
Qed.

Lemma activate_sample_new :
  exists s', activate sample_env sample_new true sample_store
             = (Ok (set_id 4 (set_active true sample_new)), s').
Proof. eexists. vm_compute. reflexivity. Qed.

Lemma activate_frame_witness :
  exists self' s' i,
    activate sample_env sample_new true sample_store = (Ok self', s')
    /\ id self' = Some i
    /\ dom (data_tables sample_store) ⊆ dom (data_tables s')
    /\ physical s' ⊆ physical sample_store.
Proof.
  destruct activate_sample_new as (s' & E).
  destruct (activate_frame sample_env sample_new _ true sample_store s' 7 4 eq_refl E eq_refl)
    as (_ & Hdom & Hphys & _).
  exists (set_id 4 (set_active true sample_new)), s', 4.
  split; [exact E|]. split; [reflexivity|]. split; [exact Hdom | exact Hphys].
Defined.

Lemma set_active_same (g : DataTable) (b : bool) : active g = b -> set_active b g = g.
Proof. destruct g; simpl; now intros ->. Qed.

(** X17: [activate] called on the generation that is already the active
    one changes no row. Without [drop_inactive_table] it changes nothing
    at all; with it, it drops the physical table of that very generation,
    which stays the active one, unless the model of the generation cannot
    be built: it then raises what [get_model] raises, and nothing is
    changed. *)
Theorem activate_active_generation (env : Env) (g : DataTable) (drop : bool)
    (s : Store) (t i : Z) :
  id g = Some i -> table g = Some t -> active g = true ->
  data_tables s !! i = Some (stored_of g) ->
  at_most_one_active t s ->
  activate env g drop s
  = if drop
    then match get_model env t g with
         | Ok _ => (Ok g, {| data_tables := data_tables s;
                             physical := physical s ∖ {[db_table_name g]} |})
         | Err e => (Err e, s)
         end
    else (Ok g, s).
Proof.
  intros Hi Ht Ha Hrow Hone.
  assert (Hin : i ∈ active_generations t s).
  { apply elem_of_active_generations. exists (stored_of g). auto. }
  assert (Hprev : forall k v, data_tables s !! k = Some v -> stored_table v = Some t ->
                              stored_active v = true -> load (k, v) = g /\ k = i /\ v = stored_of g).
  { intros k v Hk Hkt Hka.
    assert (k = i).
    { apply Hone; [|exact Hin]. apply elem_of_active_generations. eauto. }
    subst k. rewrite Hrow in Hk. injection Hk as <-.
    split; [now apply load_stored_of | now split]. }
  unfold activate, recursion_limit. change 1000%nat with (S (S 998)).
  destruct (activate_n_shape env 998 g drop s t Ht)
    as [(i' & s1 & E & Hid & Hs1)|(e & k & v & E & _ & Hk & Hkt & Hka & Hd & He)].
  - destruct Hid as [Hid|[Hid _]]; [|congruence].
    assert (i' = i) by congruence. subst i'.
    rewrite E, (set_active_same g true Ha), (set_id_same g i Hi).
    destruct Hs1 as [[Hnone ->]|(k & v & _ & Hk & Htv & Hav & Hdrop & ->)].
    + apply get_current_active_None in Hnone. rewrite Hnone in Hin.
      now apply not_elem_of_empty in Hin.
    + destruct (Hprev k v Hk Htv Hav) as (Hl & -> & ->). rewrite Hl in Hdrop.
      cbn [data_tables physical]. rewrite insert_insert_eq.
      rewrite (insert_id _ _ _ Hrow). cbn [stored_db_table_name stored_of].
      destruct drop.
      * apply drop_error_None in Hdrop as [Model HM]; [|reflexivity]. now rewrite HM.
      * now rewrite store_eta.
  - destruct (Hprev k v Hk Hkt Hka) as (Hl & _ & _). rewrite Hl in He.
    now rewrite E, Hd, He.
Qed.

Lemma activate_active_generation_witness :
  activate sample_env sample_active true sample_store
  = (Ok sample_active,
     {| data_tables := data_tables sample_store;
        physical := physical sample_store ∖ {[ "data_covid19_caso_cccccccc" ]} |})
  /\ activate sample_env_unknown_type sample_active true sample_store
     = (Err KeyError, sample_store).
Proof.
  split.
  - rewrite (activate_active_generation sample_env sample_active true sample_store 7 1);
      try reflexivity.
    apply (exactly_one_at_most_one 7 1). apply sample_store_one_active.
  - rewrite (activate_active_generation sample_env_unknown_type sample_active true
               sample_store 7 1); try reflexivity.
    apply (exactly_one_at_most_one 7 1). apply sample_store_one_active.
Defined.

(** X18: [deactivate] with [drop_table] on a generation whose table is
    null raises AttributeError, and the deactivation it had saved is
    undone with it: the store is as before the call. *)
Theorem deactivate_drop_detached (env : Env) (self : DataTable) (amr : bool) (s : Store) :
  table self = None ->
  deactivate env self true amr s = (Err AttributeError, s).
Proof.
  intros Ht. unfold deactivate, recursion_limit. change 1000%nat with (S 999).
  cbn [deactivate_n]. unfold deactivate_body, atomic, bind, table_of, get_store.
  rewrite Ht.
  destruct (amr && active self); [reflexivity|].
  unfold save, delete_data_table, bind, table_of. cbn [table set_id set_active].
  now rewrite Ht.
Qed.

Lemma deactivate_drop_detached_witness :
  deactivate sample_env
             {| id := Some 1; created_at := 30; table := None;
                db_table_name := "data_covid19_caso_cccccccc"; active := true |}
             true false sample_store
  = (Err AttributeError, sample_store).
Proof. apply deactivate_drop_detached. reflexivity. Defined.

(** X19: deleting a saved, inactive generation that has its table, when
    the model of the generation can be built, takes its row away and
    nothing else from the rows, and leaves no physical table of its name,
    whether there was one or not; the other physical tables stay. When
    the model cannot be built, the deletion raises what [get_model]
    raises and the row is there as before. *)
Theorem delete_inactive_generation (env : Env) (instance : DataTable) (s : Store) (i t : Z) :
  id instance = Some i -> active instance = false -> table instance = Some t ->
  ((exists Model, get_model env t instance = Ok Model) ->
   exists s',
     delete_ env instance s = (Ok tt, s')
     /\ data_tables s' !! i = None
     /\ (forall j, j <> i -> data_tables s' !! j = data_tables s !! j)
     /\ (forall name, name ∈ physical s'
                      <-> name ∈ physical s /\ name <> db_table_name instance))
  /\ (forall e, get_model env t instance = Err e -> delete_ env instance s = (Err e, s)).
Proof.
  intros Hi Ha Ht. rewrite (delete_inactive env instance s i t Hi Ha Ht). split.
  - intros [Model ->]. eexists. split; [reflexivity|].
    cbn [data_tables physical]. split; [apply lookup_delete_eq|]. split.
    + intros j Hj. now apply lookup_delete_ne.
    + intros name. rewrite elem_of_difference, elem_of_singleton. tauto.
  - now intros e ->.
Qed.

Lemma delete_inactive_generation_witness :
  (exists s',
     delete_ sample_env (load (2, sample_generation 10 "data_covid19_caso_aaaaaaaa" false))
             sample_store = (Ok tt, s')
     /\ data_tables s' !! 2 = None)
  /\ delete_ sample_env_accented
             (load (2, sample_generation 10 "data_covid19_caso_aaaaaaaa" false)) sample_store
     = (Err UnicodeEncodeError, sample_store).
Proof.
  split.
  - destruct (delete_inactive_generation sample_env
                (load (2, sample_generation 10 "data_covid19_caso_aaaaaaaa" false))
                sample_store 2 7 eq_refl eq_refl eq_refl) as [Hok _].
    destruct Hok as (s' & E & H & _).
    + eexists. vm_compute. reflexivity.
    + exists s'. now split.
  - destruct (delete_inactive_generation sample_env_accented
                (load (2, sample_generation 10 "data_covid19_caso_aaaaaaaa" false))
                sample_store 2 7 eq_refl eq_refl eq_refl) as [_ Herr].
    apply Herr. vm_compute. reflexivity.
Defined.

(** X20: deleting a saved, inactive generation whose table is null raises
    AttributeError in the cleanup after the deletion, and the deletion is
    undone: the store is as before the call. *)
Theorem delete_detached (env : Env) (instance : DataTable) (s : Store) (i : Z) :
  id instance = Some i -> active instance = false -> table instance = None ->
  delete_ env instance s = (Err AttributeError, s).
Proof.
  intros Hi Ha Ht. unfold delete_. rewrite Hi.
  unfold atomic, bind, prevent_active_data_table_deletion. rewrite Ha.
  unfold ret, get_store, put_store, clean_associated_data_base_table,
    delete_data_table, bind, table_of.
  now rewrite Ht.
Qed.

Lemma delete_detached_witness :
  delete_ sample_env
          {| id := Some 2; created_at := 10; table := None;
             db_table_name := "data_covid19_caso_aaaaaaaa"; active := false |}
          sample_store
  = (Err AttributeError, sample_store).
Proof. apply (delete_detached sample_env _ sample_store 2); reflexivity. Defined.

(** ** The physical table of a logical table *)

Lemma get_current_active_single (t i : Z) (v : Stored) (s : Store) :
  active_generations t s = {[i]} -> data_tables s !! i = Some v ->
  get_current_active (for_table t (data_tables s)) = Some (load (i, v)).
Proof.
  intros Hact Hi.
  destruct (get_current_active (for_table t (data_tables s))) as [d|] eqn:E.
  - apply get_current_active_Some in E as (k & v' & -> & Hk & Ht & Ha).
    assert (Hin : k ∈ active_generations t s)
      by (apply elem_of_active_generations; eauto).
    rewrite Hact in Hin. apply elem_of_singleton in Hin. subst k.
    rewrite Hi in Hk. now injection Hk as <-.
  - apply get_current_active_None in E. rewrite Hact in E.
    assert (Hin : i ∈ ({[i]} : gset Z)) by now apply elem_of_singleton.
    rewrite E in Hin. now apply not_elem_of_empty in Hin.
Qed.

(** X21: when [activate] has returned for a generation of a table that
    had at most one active generation, [Table.db_table] of that table is
    the physical name of the activated generation. *)
Theorem db_table_after_activate (env : Env) (self self' : DataTable) (drop : bool)
    (s s' : Store) (t : Z) :
  table self = Some t -> at_most_one_active t s ->
  activate env self drop s = (Ok self', s') ->
  Table_db_table t s' = (Ok (db_table_name self), s').
Proof.
  intros Ht Hone E.
  destruct (activate_exactly_one env self drop s t Ht Hone)
    as [(i & s0 & E0 & Hact & Hrow)|(e & k & v & E0 & _)];
    rewrite E0 in E; [|discriminate E].
  injection E as _ <-.
  unfold Table_db_table, Table_data_table, bind, get_store, ret.
  now rewrite (get_current_active_single t i _ s0 Hact Hrow).
Qed.

Lemma db_table_after_activate_witness :
  exists s',
    activate sample_env sample_new true sample_store
    = (Ok (set_id 4 (set_active true sample_new)), s')
    /\ Table_db_table 7 s' = (Ok "data_covid19_caso_dddddddd", s').
Proof.
  destruct activate_sample_new as (s' & E). exists s'. split; [exact E|].
  apply (db_table_after_activate sample_env sample_new
           (set_id 4 (set_active true sample_new)) true sample_store s' 7 eq_refl);
    [|exact E].
  apply (exactly_one_at_most_one 7 1). apply sample_store_one_active.
Defined.

(** X22: [Table.db_table] raises AttributeError exactly when the table
    has no active generation; otherwise it gives, without changing the
    store, the physical name of an active generation of the table, one
    with the greatest [created_at] among them. *)
Theorem db_table_outcome (t : Z) (s : Store) :
  (Table_db_table t s = (Err AttributeError, s) <-> active_generations t s = ∅)
  /\ (forall name s', Table_db_table t s = (Ok name, s') ->
        s' = s
        /\ exists i r, data_tables s !! i = Some r /\ stored_table r = Some t
                       /\ stored_active r = true /\ stored_db_table_name r = name
                       /\ forall j r', data_tables s !! j = Some r' ->
                                       stored_table r' = Some t -> stored_active r' = true ->
                                       stored_created_at r' <= stored_created_at r).
Proof.
  unfold Table_db_table, Table_data_table, bind, get_store, ret, raise.
  destruct (get_current_active (for_table t (data_tables s))) as [d|] eqn:E.
  - split.
    + split; [discriminate|]. intros Hnone.
      apply get_current_active_Some in E as (k & v & _ & Hk & Ht & Ha).
      assert (Hin : k ∈ active_generations t s)
        by (apply elem_of_active_generations; eauto).
      rewrite Hnone in Hin. now apply not_elem_of_empty in Hin.
    + intros name s' [= <- <-]. split; [reflexivity|].
      unfold get_current_active in E.
      apply most_recent_Some in E as (k & v & -> & Hk & Hmax).
      unfold active_, for_table in Hk.
      apply map_lookup_filter_Some in Hk as [Hk Ha].
      apply map_lookup_filter_Some in Hk as [Hk Ht].
      exists k, v. repeat split; try assumption.
      intros j r' Hj Hjt Hja. apply (Hmax j).
      apply map_lookup_filter_Some. split; [|exact Hja].
      apply map_lookup_filter_Some. now split.
  - split.
    + split; [intros _; now apply get_current_active_None | reflexivity].
    + intros name s' H. discriminate H.
Qed.

(** ** New generations *)

Lemma is_ascii_nil : PyStr.is_ascii "".
Proof. constructor. Qed.

Lemma is_ascii_cons (c : ascii) (s : string) :
  PyStr.code c < 128 -> PyStr.is_ascii s -> PyStr.is_ascii (String c s).
Proof. intros Hc Hs. now constructor. Qed.

Lemma is_ascii_replace_from (old new : string) (skip : nat) (s : string) :
  PyStr.is_ascii new -> PyStr.is_ascii s ->
  PyStr.is_ascii (PyStr.replace_from old new skip s).
Proof.
  intros Hnew. revert skip. induction s as [|c s IH]; intros skip Hs; cbn [PyStr.replace_from].
  - constructor.
  - inversion Hs as [|? ? Hc Hs']; subst.
    destruct skip as [|k]; [|now apply IH].
    destruct (PyStr.starts_with old (String c s)).
    + apply PyStrFacts.is_ascii_app; [exact Hnew | now apply IH].
    + apply is_ascii_cons; [exact Hc | now apply IH].
Qed.

Lemma is_ascii_replace (old new s : string) :
  PyStr.is_ascii new -> PyStr.is_ascii s -> PyStr.is_ascii (PyStr.replace old new s).
Proof. apply is_ascii_replace_from. Qed.

Lemma random_choice_letter (rand : nat -> nat) (i : nat) :
  is_lowercase_letter (random_choice rand i).
Proof.
  unfold random_choice.
  assert (H : Forall is_lowercase_letter ascii_lowercase).
  { unfold is_lowercase_letter. repeat constructor; vm_compute; discriminate. }
  rewrite List.Forall_forall in H. apply H. apply nth_In.
  change (length ascii_lowercase) with 26%nat. apply Nat.mod_upper_bound. discriminate.
Qed.

Lemma len_string_of_list (l : list ascii) : PyStr.len (string_of_list_ascii l) = length l.
Proof. induction l as [|c l IH]; simpl; [reflexivity | now rewrite IH]. Qed.

Lemma string_of_list_ascii_inj (l1 l2 : list ascii) :
  string_of_list_ascii l1 = string_of_list_ascii l2 -> l1 = l2.
Proof.
  intros H. apply (f_equal list_ascii_of_string) in H.
  now rewrite !list_ascii_of_string_of_list_ascii in H.
Qed.

Lemma append_nil_r (s : string) : s ++ "" = s.
Proof.
  induction s as [|c s IH]; [reflexivity|].
  change (String c s ++ "") with (String c (s ++ "")). now f_equal.
Qed.

Lemma append_longer (p s : string) : p = p ++ s -> s = "".
Proof.
  intros H. apply (f_equal PyStr.len) in H. rewrite PyStrFacts.len_app in H.
  destruct s; [reflexivity|]. simpl in H. lia.
Qed.

Lemma new_data_table_name (rand : nat -> nat) (now : Z) (tbl : TableRef) (n : Z) :
  let suffix := string_of_list_ascii (map (random_choice rand) (seq 0 (Z.to_nat n))) in
  db_table_name (new_data_table rand now tbl n)
  = if str_truthy suffix then new_name_base tbl ++ "_" ++ suffix else new_name_base tbl.
Proof. reflexivity. Qed.

Lemma suffix_truthy (rand : nat -> nat) (n : Z) :
  str_truthy (string_of_list_ascii (map (random_choice rand) (seq 0 (Z.to_nat n))))
  = (0 <? n).
Proof.
  destruct (Z.ltb_spec 0 n) as [H|H].
  - destruct (Z.to_nat n) as [|k] eqn:E; [lia | reflexivity].
  - replace (Z.to_nat n) with 0%nat by lia. reflexivity.
Qed.

(** X23: the instance that [new_data_table] makes is not saved and not
    active and belongs to the table; its physical name is "data_", the
    dataset slug without hyphens, "_", the table name without
    underscores and, for a positive [suffix_size], "_" and that many
    lowercase letters; for a [suffix_size] of zero or less the name ends
    with the table name. *)
Theorem new_data_table_shape (rand : nat -> nat) (now : Z) (tbl : TableRef) (n : Z) :
  let d := new_data_table rand now tbl n in
  id d = None /\ active d = false /\ table d = Some (table_pk tbl)
  /\ exists suffix,
       db_table_name d
       = new_name_base tbl ++ (if 0 <? n then "_" ++ suffix else "")
       /\ PyStr.len suffix = Z.to_nat n
       /\ Forall is_lowercase_letter (list_ascii_of_string suffix).
Proof.
  intros d. split; [reflexivity|]. split; [reflexivity|]. split; [reflexivity|].
  exists (string_of_list_ascii (map (random_choice rand) (seq 0 (Z.to_nat n)))).
  split; [|split].
  - subst d. rewrite new_data_table_name. cbv zeta. rewrite suffix_truthy.
    destruct (0 <? n); [reflexivity|]. now rewrite append_nil_r.
  - now rewrite len_string_of_list, length_map, length_seq.
  - rewrite list_ascii_of_string_of_list_ascii. apply List.Forall_forall.
    intros c Hc. apply in_map_iff in Hc as (i & <- & _). apply random_choice_letter.
Qed.

(** X24: two instances that [new_data_table] makes for one table have the
    same physical name only when the same suffix was drawn for both. *)
Theorem new_data_table_names_apart
    (rand1 rand2 : nat -> nat) (now1 now2 : Z) (tbl : TableRef) (n1 n2 : Z) :
  db_table_name (new_data_table rand1 now1 tbl n1)
  = db_table_name (new_data_table rand2 now2 tbl n2) ->
  map (random_choice rand1) (seq 0 (Z.to_nat n1))
  = map (random_choice rand2) (seq 0 (Z.to_nat n2)).
Proof.
  rewrite !new_data_table_name. cbv zeta.
  set (l1 := map (random_choice rand1) (seq 0 (Z.to_nat n1))).
  set (l2 := map (random_choice rand2) (seq 0 (Z.to_nat n2))).
  destruct l1 as [|a l1], l2 as [|b l2]; cbn [string_of_list_ascii str_truthy];
    intros H.
  - reflexivity.
  - apply append_longer in H. discriminate H.
  - symmetry in H. apply append_longer in H. discriminate H.
  - do 2 apply append_inj_l in H. injection H as -> H.
    now apply string_of_list_ascii_inj in H as ->.
Qed.

Lemma new_data_table_names_apart_witness :
  map (random_choice (fun i => i)) (seq 0 (Z.to_nat 2))
  = map (random_choice (fun i => (i + 26)%nat)) (seq 0 (Z.to_nat 2)).
Proof.
  apply (new_data_table_names_apart (fun i => i) (fun i => (i + 26)%nat) 1 2
           {| table_pk := 7; table_dataset_slug := "covid-19"; table_name := "caso_full" |}
           2 2).
  vm_compute. reflexivity.
Defined.

Lemma is_ascii_lowercase_letters (l : list ascii) :
  Forall is_lowercase_letter l -> PyStr.is_ascii (string_of_list_ascii l).
Proof.
  unfold PyStr.is_ascii. rewrite list_ascii_of_string_of_list_ascii.
  intros H. eapply Forall_impl; [exact H|].
  unfold is_lowercase_letter. intros c Hc. cbv beta in *. lia.
Qed.

(** X25: for a table whose dataset slug and name are ASCII, the physical
    name that [new_data_table] gives is ASCII, so that [Table.get_model]
    can declare the indexes of the new generation whenever the ordering
    and filtering names are ASCII too. *)
Theorem new_data_table_indexable (rand : nat -> nat) (now : Z) (tbl : TableRef) (n : Z)
    (o f s : list string) :
  PyStr.is_ascii (table_dataset_slug tbl) -> PyStr.is_ascii (table_name tbl) ->
  Forall PyStr.is_ascii o -> Forall PyStr.is_ascii f ->
  PyStr.is_ascii (db_table_name (new_data_table rand now tbl n))
  /\ exists idxs,
       get_model_indexes (db_table_name (new_data_table rand now tbl n)) o f s = Ok idxs.
Proof.
  intros Hslug Hname Ho Hf.
  assert (Ha : PyStr.is_ascii (db_table_name (new_data_table rand now tbl n))).
  { rewrite new_data_table_name. cbv zeta.
    assert (Hbase : PyStr.is_ascii (new_name_base tbl)).
    { unfold new_name_base. apply PyStrFacts.is_ascii_app; [repeat constructor|].
      apply PyStrFacts.is_ascii_app; [apply is_ascii_replace; [constructor | exact Hslug]|].
      apply PyStrFacts.is_ascii_app; [repeat constructor|].
      apply is_ascii_replace; [constructor | exact Hname]. }
    destruct (str_truthy _); [|exact Hbase].
    apply PyStrFacts.is_ascii_app; [exact Hbase|].
    apply PyStrFacts.is_ascii_app; [repeat constructor|].
    apply is_ascii_lowercase_letters. apply List.Forall_forall.
    intros c Hc. apply in_map_iff in Hc as (i & <- & _). apply random_choice_letter. }
  split; [exact Ha|]. now apply get_model_indexes_total.
Qed.

(** ** The catalog of tables *)

Lemma get_one_cases (m : gmap Z CatalogTable) :
  match get_one m with
  | inl DoesNotExist => m = ∅
  | inr kv => m = {[ kv.1 := kv.2 ]}
  | inl MultipleObjectsReturned =>
      exists k1 t1 k2 t2, k1 <> k2 /\ m !! k1 = Some t1 /\ m !! k2 = Some t2
  end.
Proof.
  unfold get_one. destruct (map_to_list m) as [|[k v] [|[k2 v2] l]] eqn:E.
  - now apply map_to_list_empty_iff.
  - rewrite <- (list_to_map_to_list m), E. reflexivity.
  - pose proof (NoDup_fst_map_to_list m) as Hnd. rewrite E in Hnd. cbn in Hnd.
    exists k, v, k2, v2. split; [|split].
    + intros ->. apply NoDup_cons in Hnd as [Hnotin _]. apply Hnotin. now left.
    + apply elem_of_map_to_list. rewrite E. now left.
    + apply elem_of_map_to_list. rewrite E. right. now left.
Qed.

Lemma get_table_candidates (catalog : gmap Z CatalogTable) (slug name : string)
    (allow_hidden : bool) (k : Z) (t : CatalogTable) :
  filter (fun kv => cat_name kv.2 = name)
    (for_dataset slug
       (if allow_hidden then Table_with_hidden catalog else Table_objects catalog)) !! k
  = Some t
  <-> table_found catalog slug name allow_hidden k t.
Proof.
  unfold table_found, for_dataset, Table_with_hidden, Table_objects.
  rewrite !map_lookup_filter_Some. cbn [fst snd].
  destruct allow_hidden.
  - intuition discriminate.
  - rewrite map_lookup_filter_Some. cbn [snd]. intuition.
Qed.

Lemma get_table_cases (catalog : gmap Z CatalogTable) (slug name : string)
    (allow_hidden : bool) :
  match get_table catalog slug name allow_hidden with
  | inl DoesNotExist => forall k t, ~ table_found catalog slug name allow_hidden k t
  | inr kv =>
      table_found catalog slug name allow_hidden kv.1 kv.2
      /\ forall k t, table_found catalog slug name allow_hidden k t -> k = kv.1
  | inl MultipleObjectsReturned =>
      exists k1 t1 k2 t2,
        k1 <> k2 /\ table_found catalog slug name allow_hidden k1 t1
        /\ table_found catalog slug name allow_hidden k2 t2
  end.
Proof.
  unfold get_table, named.
  replace (if allow_hidden then Table_with_hidden catalog else Table_objects catalog)
    with (if allow_hidden then Table_with_hidden catalog else Table_objects catalog)
    by reflexivity.
  set (m := filter (fun kv => cat_name kv.2 = name) _).
  assert (Hm : forall k t, m !! k = Some t <-> table_found catalog slug name allow_hidden k t).
  { intros k t. subst m. rewrite <- get_table_candidates. now destruct allow_hidden. }
  pose proof (get_one_cases m) as H.
  destruct (get_one m) as [[|]|[k t]].
  - intros k t Hf. apply Hm in Hf. rewrite H in Hf. now rewrite lookup_empty in Hf.
  - destruct H as (k1 & t1 & k2 & t2 & Hne & H1 & H2).
    exists k1, t1, k2, t2. split; [exact Hne|]. split; now apply Hm.
  - cbn [fst snd] in *. split.
    + apply Hm. rewrite H. apply lookup_singleton_eq.
    + intros k' t' Hf. apply Hm in Hf. rewrite H in Hf.
      now apply lookup_singleton_Some in Hf as [<- _].
Qed.

(** X26: [get_table] gives the one table of the catalog with the dataset
    slug and the name asked for (among the tables that are not hidden,
    unless [allow_hidden]); it raises DoesNotExist when there is none and
    MultipleObjectsReturned when there are two, which tables of two
    versions of a dataset with one name are: the version plays no part. *)
Theorem get_table_outcome (catalog : gmap Z CatalogTable) (slug name : string)
    (allow_hidden : bool) :
  match get_table catalog slug name allow_hidden with
  | inl DoesNotExist => forall k t, ~ table_found catalog slug name allow_hidden k t
  | inr kv =>
      table_found catalog slug name allow_hidden kv.1 kv.2
      /\ forall k t, table_found catalog slug name allow_hidden k t -> k = kv.1
  | inl MultipleObjectsReturned =>
      exists k1 t1 k2 t2,
        k1 <> k2 /\ table_found catalog slug name allow_hidden k1 t1
        /\ table_found catalog slug name allow_hidden k2 t2
  end.
Proof. exact (get_table_cases catalog slug name allow_hidden). Qed.

(** X27: a table that [get_table] finds among the tables that are not
    hidden is the one it finds with [allow_hidden] too, unless a hidden
    table of the same dataset and name is in the catalog: then the call
    with [allow_hidden] raises MultipleObjectsReturned. *)
Theorem get_table_allow_hidden (catalog : gmap Z CatalogTable) (slug name : string)
    (kv : Z * CatalogTable) :
  get_table catalog slug name false = inr kv ->
  get_table catalog slug name true = inr kv
  \/ (get_table catalog slug name true = inl MultipleObjectsReturned
      /\ exists k t, k <> kv.1 /\ catalog !! k = Some t /\ cat_hidden t = true
                     /\ cat_dataset_slug t = slug /\ cat_name t = name).
Proof.
  intros Hv.
  pose proof (get_table_cases catalog slug name false) as H0. rewrite Hv in H0.
  destruct H0 as [(Hk & Hs & Hn & Hh) Huniq].
  assert (Hfound : table_found catalog slug name true kv.1 kv.2).
  { split; [exact Hk|]. split; [exact Hs|]. split; [exact Hn | discriminate]. }
  pose proof (get_table_cases catalog slug name true) as H1.
  destruct (get_table catalog slug name true) as [[|]|[k t]].
  - exfalso. exact (H1 _ _ Hfound).
  - right. split; [reflexivity|].
    destruct H1 as (k1 & t1 & k2 & t2 & Hne & (Hk1 & Hs1 & Hn1 & _) & (Hk2 & Hs2 & Hn2 & _)).
    assert (Hhid : forall k t, catalog !! k = Some t -> cat_dataset_slug t = slug ->
                     cat_name t = name -> k <> kv.1 -> cat_hidden t = true).
    { intros k t Hkt Hst Hnt Hkne. destruct (cat_hidden t) eqn:E; [reflexivity|].
      exfalso. apply Hkne. apply (Huniq k t). repeat split; auto. }
    destruct (decide (k1 = kv.1)) as [E1|E1].
    + exists k2, t2. assert (Hk2ne : k2 <> kv.1) by congruence.
      split; [exact Hk2ne|]. split; [exact Hk2|].
      split; [now apply (Hhid k2 t2)|]. now split.
    + exists k1, t1.
      split; [exact E1|]. split; [exact Hk1|].
      split; [now apply (Hhid k1 t1)|]. now split.
  - left. destruct H1 as [(Hk' & _) Hu]. cbn [fst snd] in *.
    pose proof (Hu _ _ Hfound) as E. destruct kv as [k0 t0]. cbn [fst snd] in *.
    subst k0. rewrite Hk in Hk'. now injection Hk' as <-.
Qed.

(** ** Cached counts *)

(** X28: [count] computes at most once on an instance: when a call has
    returned a value, a second call, on the instance the first one leaves
    and against any database, gives the value of the first again. A call
    that raises leaves the instance as it was. *)
Theorem count_once {tsvector rank : Type}
    (ts_match : tsvector -> SearchQuery -> bool)
    (ts_rank : tsvector -> SearchQuery -> rank)
    (db db' : Database tsvector) (qs : QuerySet) :
  (forall c, (count ts_match ts_rank db qs).1 = Ok c ->
             count ts_match ts_rank db' (count ts_match ts_rank db qs).2
             = count ts_match ts_rank db qs)
  /\ (forall e, (count ts_match ts_rank db qs).1 = Err e ->
                (count ts_match ts_rank db qs).2 = qs).
Proof.
  assert (H : (exists c, count ts_match ts_rank db qs = (Ok c, qs) /\ _count qs = Some c)
              \/ (exists c, count ts_match ts_rank db qs = (Ok c, set_count c qs))
              \/ (exists e, count ts_match ts_rank db qs = (Err e, qs))).
  { unfold count. destruct (_count qs) as [c0|]; [left; eauto|]. right.
    destruct (if negb _ then _ else _) as [c0|e0]; eauto. }
  destruct H as [(c0 & -> & E)|[(c0 & ->)|(e0 & ->)]]; cbn [fst snd].
  - split; [|intros e H; discriminate H]. intros c _. unfold count. now rewrite E.
  - split; [|intros e H; discriminate H]. intros c _. reflexivity.
  - split; [intros c H; discriminate H | reflexivity].
Qed.

(** ** Witnesses of the further properties *)

Lemma count_once_witness :
  count sample_match sample_rank sample_db_empty
        (count sample_match sample_rank sample_db sample_qs).2
  = (Ok (-1), set_count (-1) sample_qs).
Proof.
  destruct (count_once sample_match sample_rank sample_db sample_db_empty sample_qs)
    as [H _].
  rewrite (H (-1)); vm_compute; reflexivity.
Defined.

Lemma search_selects_all_words_witness :
  exists sq rows',
    selected sample_match sample_rank sample_db (search first_seen "rio  branco" sample_qs)
    = Ok rows'
    /\ Permutation (terms sq) [("rio", "pg_catalog.portuguese");
                               ("branco", "pg_catalog.portuguese")]
    /\ (forall r, In r (map fst rows')
                  <-> In r sample_rows
                      /\ exists v, search_data r = Some v /\ sample_match v sq = true).
Proof.
  destruct (search_selects_all_words first_seen sample_match sample_rank first_seen_In
              first_seen_NoDup "rio  branco" sample_qs sample_db)
    as (sq & _ & Hnd & Hterms & Hsel).
  - vm_compute. discriminate.
  - reflexivity.
  - destruct (Hsel (map (fun r => (r, [])) sample_rows)) as (rows' & E & Hrows).
    + vm_compute. reflexivity.
    + exists sq, rows'. split; [exact E|]. split; [|exact Hrows].
      apply NoDup_Permutation; [exact Hnd | |].
      * apply NoDup_ListNoDup. repeat constructor; cbn; intuition discriminate.
      * assert (Hsplit : PyStr.split "rio  branco" = ["rio"; "branco"])
          by (vm_compute; reflexivity).
        intros [w c]. rewrite !list_elem_of_In, Hterms, Hsplit. cbn [In].
        split.
        -- intros [[<-|[<-|[]]] ->]; auto.
        -- intros [[= <- <-]|[[= <- <-]|[]]]; auto.
Defined.

Lemma composed_query_narrows_witness :
  exists rows rows',
    selected sample_match sample_rank sample_db sample_qs = Ok rows
    /\ selected sample_match sample_rank sample_db
         (extend_order_by ["-search_rank"; "name"]
            (search first_seen "rio" sample_qs)) = Ok rows'
    /\ incl (map fst rows') (map fst rows).
Proof.
  destruct (composed_query_narrows first_seen order_pattern_match sample_processor
              sample_filter_refused sample_match sample_rank None (Some "rio") None sample_qs
              (extend_order_by ["name"] (search first_seen "rio" sample_qs)) sample_db
              (map (fun r => (r, [("search_rank", Some 1)]))
                   [ sample_row "rio de janeiro" (Some ["rio"; "janeiro"]);
                     sample_row "rio branco" (Some ["rio"; "branco"]) ]))
    as (rows & E & Hincl).
  - vm_compute. reflexivity.
  - vm_compute. reflexivity.
  - exists rows. eexists. split; [exact E|]. split; [vm_compute; reflexivity|].
    exact Hincl.
Defined.

Lemma composed_query_rank_first_witness :
  (exists qs',
     composed_query first_seen order_pattern_match sample_processor sample_filter_refused
       (Some {[ "Age" := "10" ]}) (Some "rio") (Some ["-age"; "password"]) sample_qs
     = Ok qs'
     /\ order_by (query qs') = ["-search_rank"; "-age"])
  /\ composed_query first_seen order_pattern_match sample_processor sample_filter_refused
       (Some {[ "Age" := "10" ]}) (Some "rio") (Some ["na-me"]) sample_qs
     = Err FieldError.
Proof.
  split.
  - destruct (composed_query_rank_first first_seen order_pattern_match sample_processor
                sample_filter_refused first_seen_In (Some {[ "Age" := "10" ]}) "rio"
                (Some ["-age"; "password"]) sample_qs eq_refl eq_refl) as [H _].
    destruct (H (filter_kwargs [FieldExact "Age" "10"] (search first_seen "rio" sample_qs)))
      as [E O]; [vm_compute; reflexivity|].
    eexists. split.
    + rewrite E. vm_compute. reflexivity.
    + vm_compute. reflexivity.
  - destruct (composed_query_rank_first first_seen order_pattern_match sample_processor
                sample_filter_refused first_seen_In (Some {[ "Age" := "10" ]}) "rio"
                (Some ["na-me"]) sample_qs eq_refl eq_refl) as [H _].
    destruct (H (filter_kwargs [FieldExact "Age" "10"] (search first_seen "rio" sample_qs)))
      as [E _]; [vm_compute; reflexivity|].
    rewrite E. vm_compute. reflexivity.
Defined.

Lemma composed_search_count_exact_witness :
  (count sample_match sample_rank sample_db
         (extend_order_by ["name"] (search first_seen "rio" sample_qs))).1
  = Ok 2.
Proof.
  rewrite (composed_search_count_exact first_seen order_pattern_match sample_processor
             sample_filter_refused sample_match sample_rank None "rio" None sample_qs
             (extend_order_by ["name"] (search first_seen "rio" sample_qs))
             sample_db eq_refl eq_refl).
  - vm_compute. reflexivity.
  - vm_compute. reflexivity.
Defined.

(** A filter value that the column cannot take: the composed query
    raises what [filter] raises. *)
Example composed_query_refused_filter :
  composed_query first_seen order_pattern_match
    (fun filtering _ => map (fun kv => FieldExact kv.1 kv.2) (map_to_list filtering))
    sample_filter_refused (Some {[ "date" := "ontem" ]}) None None sample_qs
  = Err ValidationError.
Proof. vm_compute. reflexivity. Qed.

Lemma new_data_table_indexable_witness :
  exists idxs,
    get_model_indexes (db_table_name (new_data_table (fun i => i) 40 sample_table_ref 8))
      ["-date"] ["state"] ["city"] = Ok idxs.
Proof.
  destruct (new_data_table_indexable (fun i => i) 40 sample_table_ref 8
              ["-date"] ["state"] ["city"]) as [_ H].
  - repeat constructor.
  - repeat constructor.
  - repeat constructor.
  - repeat constructor.
  - exact H.
Defined.

Lemma get_table_allow_hidden_witness :
  get_table sample_catalog "covid19" "caso" true = inl MultipleObjectsReturned.
Proof.
  destruct (get_table_allow_hidden sample_catalog "covid19" "caso" (2, sample_table 2 false))
    as [H|[H _]].
  - vm_compute. reflexivity.
  - vm_compute in H. discriminate H.
  - exact H.
Defined.

Example new_data_table_example :
  db_table_name (new_data_table (fun i => i) 40 sample_table_ref 8)
  = "data_covid19_casofull_abcdefgh"
  /\ db_table_name (new_data_table (fun i => i) 40 sample_table_ref 0)
     = "data_covid19_casofull".
Proof. vm_compute. split; reflexivity. Qed.

Example parse_querystring_example :
  parse_querystring {[ "order-by" := [" -Date ,, State"]; "search" := ["rio"];
                       "state" := ["SP"; "RJ"]; "city" := [""] ]}
  = Ok ({[ "state" := "RJ" ]}, "rio", ["-date"; "state"]).
Proof. vm_compute. reflexivity. Qed.
